(** * Message lifecycle and dispatch of a conversation

    A shallow embedding of [ts/models/message.ts] (class [MessageModel]) and
    of the conversation model (class [ConversationModel]): the derived
    message status, error bookkeeping, expiration start, retry and resend,
    the per-conversation job chain, read marking, the disappearing-message
    timer and the remote typing indicator.

    Attributes are records, [this.set] is a record update, followed for the
    expiration start by the listener that the constructor of [MessageModel]
    puts on it; asynchronous methods run in a small state / exception /
    trace monad, and the promise chain of [queueJob] is a step function over
    a promise store. *)

From Stdlib Require Import ZArith Lia.
From stdpp Require Import base option list strings.

Local Open Scope string_scope.
Local Open Scope list_scope.

(** ** JavaScript values *)

(** [x || []] on an attribute that holds an array or is unset. *)
Definition orEmpty {A} (x : option (list A)) : list A := default [] x.

(** Truthiness of a number attribute that may be unset: [undefined], [null]
    and [0] are falsy. *)
Definition truthyNum (x : option Z) : bool :=
  match x with
  | Some n => negb (Z.eqb n 0)
  | None => false
  end.

(** Truthiness of a string: the empty string is falsy. *)
Definition truthyStr (s : string) : bool := negb (String.eqb s "").

Definition truthyOptStr (x : option string) : bool :=
  match x with
  | Some s => truthyStr s
  | None => false
  end.

(** A value as [updateExpirationTimer] receives it ([providedExpireTimer: any])
    and as the [expireTimer] attribute of a conversation holds it. *)
Inductive JsVal :=
| JsUndefined
| JsNull
| JsNum (n : Z).

Definition truthy (v : JsVal) : bool :=
  match v with
  | JsNum n => negb (Z.eqb n 0)
  | _ => false
  end.

(** A number attribute that may be unset, as a value. *)
Definition jsNum (x : option Z) : JsVal :=
  match x with
  | Some n => JsNum n
  | None => JsUndefined
  end.

(** [a === b] *)
Definition strictEq (a b : JsVal) : bool :=
  match a, b with
  | JsUndefined, JsUndefined => true
  | JsNull, JsNull => true
  | JsNum x, JsNum y => Z.eqb x y
  | _, _ => false
  end.

(** ** lodash on arrays of strings *)

(** Unique values, first occurrence kept (lodash compares with SameValueZero,
    which on strings is equality). *)
Fixpoint uniqFrom (seen l : list string) : list string :=
  match l with
  | [] => []
  | x :: l' =>
      if bool_decide (x ∈ seen) then uniqFrom seen l'
      else x :: uniqFrom (x :: seen) l'
  end.

Definition uniq (l : list string) : list string := uniqFrom [] l.

(** [_.intersection(a, b)]: the unique values of [a] that [b] includes, in
    the order of [a]. *)
Definition intersection (a b : list string) : list string :=
  uniq (filter (λ x, x ∈ b) a).

(** [_.union(a, b)] *)
Definition union (a b : list string) : list string := uniq (a ++ b).

(** [_.without(l, x)] *)
Definition without (l : list string) (x : string) : list string :=
  filter (λ y, y ≠ x) l.

(** ** Errors *)

Inductive ErrorCtor :=
| CError
| CTypeError
| CReferenceError
| CCustom      (* a subclass: its constructor is none of the three above *)
| CObject.     (* the plain object [_.pick] builds *)

Record JsError := {
  e_ctor : ErrorCtor;
  e_name : string;
  e_message : string;
  e_code : option Z;
  e_number : option string;
  e_reason : option string;
  e_stack : option string;
}.

(** [_.pick(e, 'name', 'message', 'code', 'number', 'reason')] *)
Definition pick (e : JsError) : JsError :=
  {| e_ctor := CObject; e_name := e_name e; e_message := e_message e;
     e_code := e_code e; e_number := e_number e; e_reason := e_reason e;
     e_stack := None |}.

(** [new Error(message)] and [new TypeError(message)] *)
Definition newError (msg : string) : JsError :=
  {| e_ctor := CError; e_name := "Error"; e_message := msg; e_code := None;
     e_number := None; e_reason := None; e_stack := Some "stack" |}.

Definition newTypeError (msg : string) : JsError :=
  {| e_ctor := CTypeError; e_name := "TypeError"; e_message := msg;
     e_code := None; e_number := None; e_reason := None;
     e_stack := Some "stack" |}.

(** ** Attributes *)

Inductive MessageModelType := incoming | outgoing.

(** The [expirationTimerUpdate] attribute of a timer notification; a message
    that carries one has the EXPIRATION_TIMER_UPDATE flag set. *)
Record TimerUpdate := {
  tu_expireTimer : JsVal;
  tu_source : string;
  tu_fromSync : bool;
  tu_fromGroupUpdate : bool;
}.

Module MessageAttributes.

Record t := {
  id : option string;
  type : MessageModelType;
  conversationId : string;
  source : option string;
  body : string;
  sent_at : option Z;
  received_at : Z;
  unread : bool;
  errors : option (list JsError);
  recipients : option (list string);
  sent : bool;
  sent_to : option (list string);
  delivered : option Z;
  delivered_to : option (list string);
  read_by : option (list string);
  calculatingPoW : bool;
  expireTimer : option Z;
  expirationStartTimestamp : option Z;
  expires_at : option Z;
  synced : bool;
  sentSync : bool;
  sync : bool;
  groupInvitation : bool;
  destination : option string;
  expirationTimerUpdate : option TimerUpdate;
}.

(** [this.set({ field: v })], one function per field the models write. *)
Definition set_id v (m : t) : t :=
  {| id := v; type := type m; conversationId := conversationId m;
     source := source m; body := body m; sent_at := sent_at m;
     received_at := received_at m; unread := unread m; errors := errors m;
     recipients := recipients m; sent := sent m; sent_to := sent_to m;
     delivered := delivered m; delivered_to := delivered_to m;
     read_by := read_by m; calculatingPoW := calculatingPoW m;
     expireTimer := expireTimer m;
     expirationStartTimestamp := expirationStartTimestamp m;
     expires_at := expires_at m;
     synced := synced m; sentSync := sentSync m; sync := sync m;
     groupInvitation := groupInvitation m; destination := destination m;
     expirationTimerUpdate := expirationTimerUpdate m |}.

Definition set_unread v (m : t) : t :=
  {| id := id m; type := type m; conversationId := conversationId m;
     source := source m; body := body m; sent_at := sent_at m;
     received_at := received_at m; unread := v; errors := errors m;
     recipients := recipients m; sent := sent m; sent_to := sent_to m;
     delivered := delivered m; delivered_to := delivered_to m;
     read_by := read_by m; calculatingPoW := calculatingPoW m;
     expireTimer := expireTimer m;
     expirationStartTimestamp := expirationStartTimestamp m;
     expires_at := expires_at m;
     synced := synced m; sentSync := sentSync m; sync := sync m;
     groupInvitation := groupInvitation m; destination := destination m;
     expirationTimerUpdate := expirationTimerUpdate m |}.

Definition set_errors v (m : t) : t :=
  {| id := id m; type := type m; conversationId := conversationId m;
     source := source m; body := body m; sent_at := sent_at m;
     received_at := received_at m; unread := unread m; errors := v;
     recipients := recipients m; sent := sent m; sent_to := sent_to m;
     delivered := delivered m; delivered_to := delivered_to m;
     read_by := read_by m; calculatingPoW := calculatingPoW m;
     expireTimer := expireTimer m;
     expirationStartTimestamp := expirationStartTimestamp m;
     expires_at := expires_at m;
     synced := synced m; sentSync := sentSync m; sync := sync m;
     groupInvitation := groupInvitation m; destination := destination m;
     expirationTimerUpdate := expirationTimerUpdate m |}.

Definition set_recipients v (m : t) : t :=
  {| id := id m; type := type m; conversationId := conversationId m;
     source := source m; body := body m; sent_at := sent_at m;
     received_at := received_at m; unread := unread m; errors := errors m;
     recipients := v; sent := sent m; sent_to := sent_to m;
     delivered := delivered m; delivered_to := delivered_to m;
     read_by := read_by m; calculatingPoW := calculatingPoW m;
     expireTimer := expireTimer m;
     expirationStartTimestamp := expirationStartTimestamp m;
     expires_at := expires_at m;
     synced := synced m; sentSync := sentSync m; sync := sync m;
     groupInvitation := groupInvitation m; destination := destination m;
     expirationTimerUpdate := expirationTimerUpdate m |}.

Definition set_sent v (m : t) : t :=
  {| id := id m; type := type m; conversationId := conversationId m;
     source := source m; body := body m; sent_at := sent_at m;
     received_at := received_at m; unread := unread m; errors := errors m;
     recipients := recipients m; sent := v; sent_to := sent_to m;
     delivered := delivered m; delivered_to := delivered_to m;
     read_by := read_by m; calculatingPoW := calculatingPoW m;
     expireTimer := expireTimer m;
     expirationStartTimestamp := expirationStartTimestamp m;
     expires_at := expires_at m;
     synced := synced m; sentSync := sentSync m; sync := sync m;
     groupInvitation := groupInvitation m; destination := destination m;
     expirationTimerUpdate := expirationTimerUpdate m |}.

Definition set_sent_to v (m : t) : t :=
  {| id := id m; type := type m; conversationId := conversationId m;
     source := source m; body := body m; sent_at := sent_at m;
     received_at := received_at m; unread := unread m; errors := errors m;
     recipients := recipients m; sent := sent m; sent_to := v;
     delivered := delivered m; delivered_to := delivered_to m;
     read_by := read_by m; calculatingPoW := calculatingPoW m;
     expireTimer := expireTimer m;
     expirationStartTimestamp := expirationStartTimestamp m;
     expires_at := expires_at m;
     synced := synced m; sentSync := sentSync m; sync := sync m;
     groupInvitation := groupInvitation m; destination := destination m;
     expirationTimerUpdate := expirationTimerUpdate m |}.

Definition set_read_by v (m : t) : t :=
  {| id := id m; type := type m; conversationId := conversationId m;
     source := source m; body := body m; sent_at := sent_at m;
     received_at := received_at m; unread := unread m; errors := errors m;
     recipients := recipients m; sent := sent m; sent_to := sent_to m;
     delivered := delivered m; delivered_to := delivered_to m;
     read_by := v; calculatingPoW := calculatingPoW m;
     expireTimer := expireTimer m;
     expirationStartTimestamp := expirationStartTimestamp m;
     expires_at := expires_at m;
     synced := synced m; sentSync := sentSync m; sync := sync m;
     groupInvitation := groupInvitation m; destination := destination m;
     expirationTimerUpdate := expirationTimerUpdate m |}.

Definition set_calculatingPoW v (m : t) : t :=
  {| id := id m; type := type m; conversationId := conversationId m;
     source := source m; body := body m; sent_at := sent_at m;
     received_at := received_at m; unread := unread m; errors := errors m;
     recipients := recipients m; sent := sent m; sent_to := sent_to m;
     delivered := delivered m; delivered_to := delivered_to m;
     read_by := read_by m; calculatingPoW := v;
     expireTimer := expireTimer m;
     expirationStartTimestamp := expirationStartTimestamp m;
     expires_at := expires_at m;
     synced := synced m; sentSync := sentSync m; sync := sync m;
     groupInvitation := groupInvitation m; destination := destination m;
     expirationTimerUpdate := expirationTimerUpdate m |}.

Definition set_expirationStartTimestamp v (m : t) : t :=
  {| id := id m; type := type m; conversationId := conversationId m;
     source := source m; body := body m; sent_at := sent_at m;
     received_at := received_at m; unread := unread m; errors := errors m;
     recipients := recipients m; sent := sent m; sent_to := sent_to m;
     delivered := delivered m; delivered_to := delivered_to m;
     read_by := read_by m; calculatingPoW := calculatingPoW m;
     expireTimer := expireTimer m;
     expirationStartTimestamp := v;
     expires_at := expires_at m;
     synced := synced m; sentSync := sentSync m; sync := sync m;
     groupInvitation := groupInvitation m; destination := destination m;
     expirationTimerUpdate := expirationTimerUpdate m |}.

Definition set_expires_at v (m : t) : t :=
  {| id := id m; type := type m; conversationId := conversationId m;
     source := source m; body := body m; sent_at := sent_at m;
     received_at := received_at m; unread := unread m; errors := errors m;
     recipients := recipients m; sent := sent m; sent_to := sent_to m;
     delivered := delivered m; delivered_to := delivered_to m;
     read_by := read_by m; calculatingPoW := calculatingPoW m;
     expireTimer := expireTimer m;
     expirationStartTimestamp := expirationStartTimestamp m;
     expires_at := v;
     synced := synced m; sentSync := sentSync m; sync := sync m;
     groupInvitation := groupInvitation m; destination := destination m;
     expirationTimerUpdate := expirationTimerUpdate m |}.

Definition set_synced v (m : t) : t :=
  {| id := id m; type := type m; conversationId := conversationId m;
     source := source m; body := body m; sent_at := sent_at m;
     received_at := received_at m; unread := unread m; errors := errors m;
     recipients := recipients m; sent := sent m; sent_to := sent_to m;
     delivered := delivered m; delivered_to := delivered_to m;
     read_by := read_by m; calculatingPoW := calculatingPoW m;
     expireTimer := expireTimer m;
     expirationStartTimestamp := expirationStartTimestamp m;
     expires_at := expires_at m;
     synced := v; sentSync := sentSync m; sync := sync m;
     groupInvitation := groupInvitation m; destination := destination m;
     expirationTimerUpdate := expirationTimerUpdate m |}.

Definition set_sentSync v (m : t) : t :=
  {| id := id m; type := type m; conversationId := conversationId m;
     source := source m; body := body m; sent_at := sent_at m;
     received_at := received_at m; unread := unread m; errors := errors m;
     recipients := recipients m; sent := sent m; sent_to := sent_to m;
     delivered := delivered m; delivered_to := delivered_to m;
     read_by := read_by m; calculatingPoW := calculatingPoW m;
     expireTimer := expireTimer m;
     expirationStartTimestamp := expirationStartTimestamp m;
     expires_at := expires_at m;
     synced := synced m; sentSync := v; sync := sync m;
     groupInvitation := groupInvitation m; destination := destination m;
     expirationTimerUpdate := expirationTimerUpdate m |}.

Definition set_destination v (m : t) : t :=
  {| id := id m; type := type m; conversationId := conversationId m;
     source := source m; body := body m; sent_at := sent_at m;
     received_at := received_at m; unread := unread m; errors := errors m;
     recipients := recipients m; sent := sent m; sent_to := sent_to m;
     delivered := delivered m; delivered_to := delivered_to m;
     read_by := read_by m; calculatingPoW := calculatingPoW m;
     expireTimer := expireTimer m;
     expirationStartTimestamp := expirationStartTimestamp m;
     expires_at := expires_at m;
     synced := synced m; sentSync := sentSync m; sync := sync m;
     groupInvitation := groupInvitation m; destination := v;
     expirationTimerUpdate := expirationTimerUpdate m |}.

End MessageAttributes.

Module ConversationAttributes.

Record t := {
  id : string;
  type : string;
  members : list string;
  expireTimer : JsVal;
  profileSharing : bool;
  mentionedUs : bool;
  unreadCount : nat;
  is_medium_group : bool;
}.

Definition set_expireTimer v (c : t) : t :=
  {| id := id c; type := type c; members := members c; expireTimer := v;
     profileSharing := profileSharing c; mentionedUs := mentionedUs c;
     unreadCount := unreadCount c; is_medium_group := is_medium_group c |}.

Definition set_unreadCount v (c : t) : t :=
  {| id := id c; type := type c; members := members c;
     expireTimer := expireTimer c; profileSharing := profileSharing c;
     mentionedUs := mentionedUs c; unreadCount := v;
     is_medium_group := is_medium_group c |}.

Definition set_mentionedUs v (c : t) : t :=
  {| id := id c; type := type c; members := members c;
     expireTimer := expireTimer c; profileSharing := profileSharing c;
     mentionedUs := v; unreadCount := unreadCount c;
     is_medium_group := is_medium_group c |}.

End ConversationAttributes.

(** ** Outbound payloads, effects and collaborators *)

(** The messages handed to the message queue. Uploaded bodies, attachments,
    previews and quotes are opaque to the models and left out. *)
Inductive Payload :=
| ChatMessage (identifier : option string) (timestamp : Z)
    (expireTimer : JsVal)
| OpenGroupMessage (identifier : option string) (timestamp : Z)
    (conversationId : string)
| ClosedGroupChatMessage (identifier : option string) (groupId : string)
    (chatMessage : Payload)
| GroupInvitationMessage (identifier : option string) (timestamp : Z)
| ExpirationTimerUpdateMessage (identifier : option string) (timestamp : Z)
    (expireTimer : JsVal) (groupId : option string)
| ReadReceiptMessage (timestamp : Z) (timestamps : list Z)
| TypingMessage (isTyping : bool) (timestamp : Z).

(** What a method does to the world outside the model it runs on, in the
    order it does it. *)
Inductive Effect :=
| SaveMessage (attrs : MessageAttributes.t)
    (* window.Signal.Data.saveMessage *)
| UpdateConversation (attrs : ConversationAttributes.t)
    (* window.Signal.Data.updateConversation *)
| UploadData (identifier : option string)
    (* the uploads of MessageModel.uploadData *)
| SendToPubKey (pubkey : string) (payload : Payload)
    (* getMessageQueue().sendToPubKey *)
| SendToGroup (payload : Payload)
    (* getMessageQueue().sendToGroup *)
| PushNotify (device : string)
    (* window.LokiPushNotificationServer.notify *)
| RemoveNotifications (key : string)
    (* window.Whisper.Notifications.remove(where ...) *)
| UpdateLastMessage
    (* conversation.updateLastMessage() *)
| GetProfiles (device : string)
    (* ConversationController.getInstance().get(device).getProfiles() *)
| SetTimeout (ms : Z)
| ClearTimeout
| Trigger (event : string).
    (* Backbone and window.Whisper.events triggers *)

(** The settings the models read and the outcome of the calls they make to
    code outside the two classes: [None] is a call that goes through, [Some e]
    one that throws or rejects with [e]. *)
Record Collaborators := {
  messaging : bool;               (* window.textsecure.messaging is set *)
  read_receipt_setting : bool;    (* window.storage.get('read-receipt-setting') *)
  getOurPubKeyStrFromCache : string;
  isUsFromCache : string -> bool;
  generateUUID : string;          (* the id saveMessage gives a row without one *)
  uploadFails : MessageAttributes.t -> option JsError;
  pubKeyFails : string -> option JsError;       (* new PubKey(key) *)
  sendToPubKeyFails : string -> Payload -> option JsError;
  sendToGroupFails : Payload -> option JsError;
}.

(** ** Asynchronous methods

    A method runs on the attributes of its model ([S]), returns or throws,
    and leaves a trace of effects. [await] is sequencing: the event loop is
    modelled only for the job chain, below. *)

Inductive Completion (A : Type) :=
| Returned (a : A)
| Thrown (e : JsError).
Arguments Returned {A} a.
Arguments Thrown {A} e.

Definition Async (S A : Type) : Type := S -> Completion A * S * list Effect.

Definition ret {S A} (a : A) : Async S A := fun s => (Returned a, s, []).

Definition bind {S A B} (m : Async S A) (f : A -> Async S B) : Async S B :=
  fun s =>
    match m s with
    | (Returned a, s', t) =>
        let '(r, s'', t') := f a s' in (r, s'', t ++ t')
    | (Thrown e, s', t) => (Thrown e, s', t)
    end.

Notation "x <- m ;; k" := (bind m (fun x => k))
  (at level 100, m at next level, right associativity).
Notation "m ;; k" := (bind m (fun _ => k))
  (at level 100, right associativity).

Definition throw {S A} (e : JsError) : Async S A := fun s => (Thrown e, s, []).

Definition get {S} : Async S S := fun s => (Returned s, s, []).

Definition set {S} (f : S -> S) : Async S unit :=
  fun s => (Returned tt, f s, []).

Definition perform {S} (eff : Effect) : Async S unit :=
  fun s => (Returned tt, s, [eff]).

(** A call to a collaborator: the call is made, then it may fail. *)
Definition call {S} (eff : Effect) (fails : option JsError) : Async S unit :=
  perform eff ;;
  match fails with
  | Some e => throw e
  | None => ret tt
  end.

Definition when {S} (b : bool) (m : Async S unit) : Async S unit :=
  if b then m else ret tt.

(** [try { body } catch (e) { handler }] inside an async function. The body
    hands back what the function resolves with: [ret v] after a plain
    [return v] (or [return await p]), and the promise [p] itself after
    [return p], which settles once the [try] block has been left, so that
    its rejection is not caught. *)
Definition tryCatch {S A} (body : Async S (Async S A))
    (handler : JsError -> Async S A) : Async S A :=
  fun s =>
    match body s with
    | (Returned p, s', t) =>
        let '(r, s'', t') := p s' in (r, s'', t ++ t')
    | (Thrown e, s', t) =>
        let '(r, s'', t') := handler e s' in (r, s'', t ++ t')
    end.

(** [Promise.all(l.map(f))]: every callback runs; the result rejects with
    the first rejection. *)
Fixpoint promiseAll {S A} (f : A -> Async S unit) (l : list A) : Async S unit :=
  match l with
  | [] => ret tt
  | x :: l' =>
      fun s =>
        let '(r, s', t) := f x s in
        let '(r', s'', t') := promiseAll f l' s' in
        (match r with Thrown e => Thrown e | Returned _ => r' end,
         s'', t ++ t')
  end.

(** The effects of a run that hand a payload to the delivery gateway. *)
Definition isDispatch (eff : Effect) : bool :=
  match eff with
  | SendToPubKey _ _ | SendToGroup _ => true
  | _ => false
  end.

Definition dispatches (t : list Effect) : list Effect :=
  List.filter isDispatch t.

(** The public keys a trace dispatches to. *)
Fixpoint dispatchedTo (t : list Effect) : list string :=
  match t with
  | [] => []
  | SendToPubKey k _ :: t' => k :: dispatchedTo t'
  | _ :: t' => dispatchedTo t'
  end.

Definition isUpload (eff : Effect) : bool :=
  match eff with
  | UploadData _ => true
  | _ => false
  end.

Definition result {S A} (x : Completion A * S * list Effect) : Completion A :=
  x.1.1.
Definition final {S A} (x : Completion A * S * list Effect) : S := x.1.2.
Definition trace {S A} (x : Completion A * S * list Effect) : list Effect :=
  x.2.

(** ** The conversation as a message reads it *)

Module ConversationQueries.
Import ConversationAttributes.

Definition isPrivate (c : t) : bool := bool_decide (type c = "private").

Definition isPublic (c : t) : bool :=
  truthyStr (id c) && String.prefix "publicChat:" (id c).

(** [ConversationType.GROUP] is ['group'], the other type that [validate]
    accepts. *)
Definition isClosedGroup (c : t) : bool :=
  bool_decide (type c = "group") && negb (isPublic c).

Definition isMediumGroup (c : t) : bool := is_medium_group c.

Definition isMe (env : Collaborators) (c : t) : bool :=
  isUsFromCache env (id c).

Definition getRecipients (env : Collaborators) (c : t) : list string :=
  if isPrivate c then [id c]
  else without (members c) (getOurPubKeyStrFromCache env).

End ConversationQueries.

(** What a method resolves with, as far as its callers can tell values
    apart. *)
Inductive Ret :=
| RetNull
| RetUndefined
| RetId (id : string)
| RetMessage (id : string)
| RetArray (n : nat).

(** The fields of the [sentMessage] argument of the delivery callbacks that
    the message model reads, with [plainTextBuffer] already decoded. *)
Record SentMessage := {
  device : string;
  closedGroupEncryption : bool;  (* encryption === EncryptionType.ClosedGroup *)
  openGroup : bool;              (* group instanceof Types.OpenGroup *)
  hasDataMessage : bool;
  hasBodyOrAttachments : bool;
}.

(** ** MessageModel *)

Module MessageModel.
Import MessageAttributes ConversationQueries.

Definition isIncoming (m : t) : bool :=
  match type m with incoming => true | outgoing => false end.

Definition isOutgoing (m : t) : bool :=
  match type m with outgoing => true | incoming => false end.

Definition isUnread (m : t) : bool := unread m.

(** [_.size(this.get('errors')) > 0] *)
Definition hasErrors (m : t) : bool :=
  Nat.ltb 0 (length (orEmpty (errors m))).

Definition getMessagePropStatus (env : Collaborators) (m : t)
  : option string :=
  if hasErrors m then Some "error"
  else if negb (isOutgoing m) then None
  else
    let readBy := orEmpty (read_by m) in
    if read_receipt_setting env && Nat.ltb 0 (length readBy) then Some "read"
    else
      let deliveredTo := orEmpty (delivered_to m) in
      if truthyNum (delivered m) || Nat.ltb 0 (length deliveredTo)
      then Some "delivered"
      else
        let sentTo := orEmpty (sent_to m) in
        if sent m || Nat.ltb 0 (length sentTo) then Some "sent"
        else if calculatingPoW m then Some "pow"
        else Some "sending".

(** [saveMessage] resolves with the id of the row it wrote. *)
Definition commit (env : Collaborators) : Async t string :=
  attrs <- get ;;
  perform (SaveMessage attrs) ;;
  perform (Trigger "change") ;;
  ret (default (generateUUID env) (id attrs)).

Definition uploadData (env : Collaborators) : Async t unit :=
  attrs <- get ;;
  call (UploadData (id attrs)) (uploadFails env attrs).

(** [new PubKey(key)] *)
Definition newPubKey (env : Collaborators) (key : string) : Async t unit :=
  match pubKeyFails env key with
  | Some e => throw e
  | None => ret tt
  end.

Definition isPlainError (e : JsError) : bool :=
  match e_ctor e with
  | CError | CTypeError | CReferenceError => true
  | _ => false
  end.

(** [providedErrors] is one error ([inl]) or an array of them ([inr]). *)
Definition saveErrors (env : Collaborators)
    (providedErrors : JsError + list JsError) : Async t unit :=
  let errors :=
    match providedErrors with
    | inl e => [e]
    | inr l => l
    end in
  let errors := map (fun e => if isPlainError e then pick e else e) errors in
  attrs <- get ;;
  let errors := errors ++ orEmpty (MessageAttributes.errors attrs) in
  set (set_errors (Some errors)) ;;
  commit env ;;
  ret tt.

(** *** Expiration

    [isExpiring], [msTilExpire], [isExpired] and [setToExpire] close the
    class in the source; they come first here because [set] runs
    [setToExpire] as a listener. *)

Definition isExpiring (m : t) : bool :=
  truthyNum (expireTimer m) && truthyNum (expirationStartTimestamp m).

(** What [msTilExpire] returns: [Infinity] or a number of milliseconds. *)
Inductive Millis :=
| Infinity
| Finite (ms : Z).

Definition msTilExpire (now : Z) (m : t) : Millis :=
  if negb (isExpiring m) then Infinity
  else
    let start := expirationStartTimestamp m in
    if negb (truthyNum start) then Infinity
    else
      let delta := (default 0 (expireTimer m) * 1000)%Z in
      let msFromNow := (default 0 start + delta - now)%Z in
      Finite (if Z.ltb msFromNow 0 then 0%Z else msFromNow).

(** [this.msTilExpire() <= 0] *)
Definition isExpired (now : Z) (m : t) : bool :=
  match msTilExpire now m with
  | Infinity => false
  | Finite ms => Z.leb ms 0
  end.

Definition setToExpire (env : Collaborators) (force : bool) : Async t unit :=
  this <- get ;;
  if isExpiring this && (force || negb (truthyNum (expires_at this)))
  then
    let start := expirationStartTimestamp this in
    let delta := (default 0 (expireTimer this) * 1000)%Z in
    if negb (truthyNum start) then ret tt
    else
      let expiresAt := (default 0 start + delta)%Z in
      set (set_expires_at (Some expiresAt)) ;;
      let id := id this in
      when (truthyOptStr id) (commit env ;; ret tt)
  else ret tt.

(** [this.set({ ..., expirationStartTimestamp })]. The constructor
    subscribes [setToExpire] to [change:expirationStartTimestamp] (and to
    [change:expireTimer], an attribute that no method below writes).
    Backbone fires the event inside [set], once every attribute of the call
    is written, when the new value is not the one held before, and calls the
    listener with the model as first argument, so that [force] is truthy.
    [set] does not wait for the listener: the write of [expires_at] and the
    call of [saveMessage] happen inside [set]. The [change] event of that
    commit fires when the save has resolved, at a time the data layer
    decides; it is put right after the save, as for every other commit. *)
Definition setExpirationStart (env : Collaborators)
    (expirationStartTimestamp : option Z) (others : t -> t) : Async t unit :=
  attrs <- get ;;
  set (fun m =>
         set_expirationStartTimestamp expirationStartTimestamp (others m)) ;;
  when (negb (bool_decide (MessageAttributes.expirationStartTimestamp attrs
                           = expirationStartTimestamp)))
    (setToExpire env true).

Definition markRead (env : Collaborators) (readAt : option Z) (now : Z)
  : Async t unit :=
  set (set_unread false) ;;
  attrs <- get ;;
  when (truthyNum (expireTimer attrs)
        && negb (truthyNum (expirationStartTimestamp attrs)))
    (let expirationStartTimestamp :=
       Z.min now (if truthyNum readAt then default now readAt else now) in
     setExpirationStart env (Some expirationStartTimestamp) (fun m => m)) ;;
  perform (RemoveNotifications (default "" (id attrs))) ;;
  commit env ;;
  ret tt.

Definition isOutgoingError (number : string) (e : JsError) : bool :=
  bool_decide (e_number e = Some number)
  && (bool_decide (e_name e = "MessageError")
      || bool_decide (e_name e = "SendMessageNetworkError")
      || bool_decide (e_name e = "OutgoingIdentityKeyError")).

Definition removeOutgoingErrors (number : string)
  : Async t (option JsError) :=
  attrs <- get ;;
  let errors :=
    List.partition (isOutgoingError number)
      (orEmpty (MessageAttributes.errors attrs)) in
  set (set_errors (Some errors.2)) ;;
  ret (head errors.1).

Definition sendSyncMessage (env : Collaborators) : Async t unit :=
  attrs <- get ;;
  if synced attrs || sentSync attrs then ret tt
  else
    set (set_sentSync true) ;;
    commit env ;;
    ret tt.

Definition sendSyncMessageOnly (env : Collaborators) (now : Z)
  : Async t unit :=
  setExpirationStart env (Some now)
    (fun m =>
       set_sent true (set_sent_to (Some [getOurPubKeyStrFromCache env]) m)) ;;
  commit env ;;
  sendSyncMessage env.

Definition handleMessageSentSuccess (env : Collaborators)
    (sentMessage : SentMessage) (wrappedEnvelope : bool) (now : Z)
  : Async t unit :=
  attrs <- get ;;
  let sentTo := orEmpty (sent_to attrs) in
  let isOurDevice :=
    truthyStr (device sentMessage)
    && isUsFromCache env (device sentMessage) in
  let isClosedGroupMessage := closedGroupEncryption sentMessage in
  let isOpenGroupMessage := openGroup sentMessage in
  let shouldTriggerSyncMessage :=
    negb isOurDevice && negb isClosedGroupMessage
    && negb (synced attrs) && negb (sentSync attrs) in
  let shouldMarkMessageAsSynced := isOurDevice && sentSync attrs in
  let isSessionOrClosedMessage := negb isOpenGroupMessage in
  sentTo <-
    (if isSessionOrClosedMessage then
       let shouldNotifyPushServer :=
         hasBodyOrAttachments sentMessage && isSessionOrClosedMessage in
       when (shouldNotifyPushServer && wrappedEnvelope)
         (perform (PushNotify (device sentMessage))) ;;
       (if shouldTriggerSyncMessage
        then when (hasDataMessage sentMessage) (sendSyncMessage env)
        else when shouldMarkMessageAsSynced (set (set_synced true))) ;;
       ret (union sentTo [device sentMessage])
     else ret sentTo) ;;
  setExpirationStart env (Some now)
    (fun m => set_sent true (set_sent_to (Some sentTo) m)) ;;
  commit env ;;
  perform UpdateLastMessage ;;
  perform (Trigger "sent").

(** [error] is [Some e] when the argument is an [Error]. *)
Definition handleMessageSentFailure (env : Collaborators)
    (sentMessage : SentMessage) (error : option JsError) (now : Z)
  : Async t unit :=
  match error with
  | Some e =>
      saveErrors env (inl e) ;;
      when (bool_decide (e_name e = "OutgoingIdentityKeyError"))
        (perform (GetProfiles (device sentMessage)))
  | None => ret tt
  end ;;
  let isOurDevice :=
    truthyStr (device sentMessage)
    && isUsFromCache env (device sentMessage) in
  let expirationStartTimestamp := now in
  attrs <- get ;;
  when (isOurDevice && negb (sync attrs)) (set (set_sentSync false)) ;;
  setExpirationStart env (Some expirationStartTimestamp) (set_sent true) ;;
  commit env ;;
  perform UpdateLastMessage ;;
  perform (Trigger "done").

Definition setCalculatingPoW (env : Collaborators) : Async t unit :=
  attrs <- get ;;
  if calculatingPoW attrs then ret tt
  else
    set (set_calculatingPoW true) ;;
    commit env ;;
    ret tt.

(** [this.get('sent_at') || Date.now()] *)
Definition sentAtOr (now : Z) (m : t) : Z :=
  if truthyNum (sent_at m) then default now (sent_at m) else now.

(** The recipients [retrySend] still has to reach. *)
Definition outstanding (env : Collaborators) (conversation : ConversationAttributes.t)
    (m : t) : list string :=
  let intendedRecipients := orEmpty (recipients m) in
  let successfulRecipients := orEmpty (sent_to m) in
  let currentRecipients := getRecipients env conversation in
  let recipients := intersection intendedRecipients currentRecipients in
  filter (λ key, key ∉ successfulRecipients) recipients.

Definition retrySend (env : Collaborators)
    (conversation : ConversationAttributes.t) (now : Z) : Async t Ret :=
  if negb (messaging env) then ret RetNull
  else
    set (set_errors None) ;;
    commit env ;;
    tryCatch
      (attrs <- get ;;
       if isPublic conversation then
         uploadData env ;;
         let openGroupMessage :=
           OpenGroupMessage (id attrs) now
             (ConversationAttributes.id conversation) in
         ret (call (SendToGroup openGroupMessage)
                (sendToGroupFails env openGroupMessage) ;;
              ret RetUndefined)
       else
         let recipients := outstanding env conversation attrs in
         if Nat.eqb (length recipients) 0 then
           ret (i <- commit env ;; ret (RetId i))
         else
           uploadData env ;;
           let chatMessage :=
             ChatMessage (id attrs) (sentAtOr now attrs)
               (jsNum (expireTimer attrs)) in
           if Nat.eqb (length recipients) 1
              && isUsFromCache env (default "" (head recipients))
           then ret (sendSyncMessageOnly env now ;; ret RetUndefined)
           else if isPrivate conversation then
             let number := default "" (head recipients) in
             newPubKey env number ;;
             ret (call (SendToPubKey number chatMessage)
                    (sendToPubKeyFails env number chatMessage) ;;
                  ret RetUndefined)
           else
             let closedGroupChatMessage :=
               ClosedGroupChatMessage (id attrs) (conversationId attrs)
                 chatMessage in
             ret (promiseAll
                    (fun r =>
                       newPubKey env r ;;
                       call (SendToPubKey r closedGroupChatMessage)
                         (sendToPubKeyFails env r closedGroupChatMessage))
                    recipients ;;
                  ret (RetArray (length recipients))))
      (fun e => saveErrors env (inl e) ;; ret RetNull).

Definition resend (env : Collaborators)
    (conversation : ConversationAttributes.t) (number : string) (now : Z)
  : Async t Ret :=
  error <- removeOutgoingErrors number ;;
  match error with
  | None => ret RetNull
  | Some _ =>
      tryCatch
        (uploadData env ;;
         attrs <- get ;;
         let chatMessage :=
           ChatMessage (id attrs) (sentAtOr now attrs)
               (jsNum (expireTimer attrs)) in
         if isUsFromCache env number then
           ret (sendSyncMessageOnly env now ;; ret RetUndefined)
         else
           newPubKey env number ;;
           if isPrivate conversation then
             ret (call (SendToPubKey number chatMessage)
                    (sendToPubKeyFails env number chatMessage) ;;
                  ret RetUndefined)
           else
             let closedGroupChatMessage :=
               ClosedGroupChatMessage None (conversationId attrs)
                 chatMessage in
             ret (call (SendToPubKey number closedGroupChatMessage)
                    (sendToPubKeyFails env number closedGroupChatMessage) ;;
                  ret RetUndefined))
        (fun e => saveErrors env (inl e) ;; ret RetNull)
  end.

End MessageModel.

(** ** ConversationModel *)

Module ConversationModel.
Import ConversationAttributes.
Export ConversationQueries.

(** A conversation model: its attributes, the handle of the remote typing
    timeout (the time at which it is due) and the rows of the message
    table that [window.Signal.Data] answers queries from. *)
Record Model := {
  attributes : ConversationAttributes.t;
  typingTimer : option Z;
  table : list MessageAttributes.t;
}.

Definition setAttributes (f : t -> t) (c : Model) : Model :=
  {| attributes := f (attributes c); typingTimer := typingTimer c;
     table := table c |}.

Definition setTypingTimer (v : option Z) (c : Model) : Model :=
  {| attributes := attributes c; typingTimer := v; table := table c |}.

Definition setTable (f : list MessageAttributes.t -> list MessageAttributes.t)
    (c : Model) : Model :=
  {| attributes := attributes c; typingTimer := typingTimer c;
     table := f (table c) |}.

(** Modelled from the spec: [saveMessage] of [window.Signal.Data], which
    §6 gives as [commit(entity)], durable and atomic per entity. The row
    with the id of [attrs] is replaced; attributes without a row are
    inserted, under a generated id when they have none. *)
Fixpoint upsert (row : MessageAttributes.t) (rows : list MessageAttributes.t)
  : list MessageAttributes.t :=
  match rows with
  | [] => [row]
  | r :: rows' =>
      if bool_decide (MessageAttributes.id r = MessageAttributes.id row)
      then row :: rows'
      else r :: upsert row rows'
  end.

Definition saveMessage (env : Collaborators) (attrs : MessageAttributes.t)
    (rows : list MessageAttributes.t) : list MessageAttributes.t :=
  match MessageAttributes.id attrs with
  | Some _ => upsert attrs rows
  | None =>
      upsert (MessageAttributes.set_id (Some (generateUUID env)) attrs) rows
  end.

Definition persist (env : Collaborators) (t : list Effect)
    (rows : list MessageAttributes.t) : list MessageAttributes.t :=
  foldl (fun rows eff =>
           match eff with
           | SaveMessage attrs => saveMessage env attrs rows
           | _ => rows
           end) rows t.

(** A method of a message model called from a conversation method: it runs
    on the attributes of that model, and what it saves reaches the table.
    The call resolves with the result and the attributes the model is left
    with. A model built from a row, or the one [MessageController.register]
    hands back for it, holds the attributes of the row. *)
Definition onMessage {A} (env : Collaborators) (m : MessageAttributes.t)
    (f : Async MessageAttributes.t A)
  : Async Model (A * MessageAttributes.t) :=
  fun c =>
    let '(r, m', t) := f m in
    (match r with
     | Returned a => Returned (a, m')
     | Thrown e => Thrown e
     end,
     setTable (persist env t) c, t).

(** Modelled from the spec: [getUnreadByConversation] and
    [getUnreadCountByConversation] of [window.Signal.Data], the
    authoritative unread query of §4.3: the unread rows of the
    conversation, and how many they are. *)
Definition unreadByConversation (conversationId : string)
    (rows : list MessageAttributes.t) : list MessageAttributes.t :=
  List.filter
    (fun m =>
       MessageAttributes.unread m
       && bool_decide (MessageAttributes.conversationId m = conversationId))
    rows.

Definition getUnread : Async Model (list MessageAttributes.t) :=
  c <- get ;;
  ret (unreadByConversation (id (attributes c)) (table c)).

Definition getUnreadCount : Async Model nat :=
  c <- get ;;
  ret (length (unreadByConversation (id (attributes c)) (table c))).

Definition commit : Async Model unit :=
  c <- get ;;
  perform (UpdateConversation (attributes c)) ;;
  perform (Trigger "change").

(** [for (x of l) await f(x)] and [Promise.all(l.map(f))] collecting the
    results, when every callback goes through. *)
Fixpoint mapAsync {S A B} (f : A -> Async S B) (l : list A)
  : Async S (list B) :=
  match l with
  | [] => ret []
  | x :: l' =>
      y <- f x ;;
      ys <- mapAsync f l' ;;
      ret (y :: ys)
  end.

(** *** sendMessageJob *)

(** The [try] block of [sendMessageJob]. Every dispatch in it is awaited
    ("we need the return await so that errors are caught in the catch {}"). *)
Definition sendMessageJobTry (env : Collaborators) (this : t) (now : Z)
  : Async MessageAttributes.t (Async MessageAttributes.t Ret) :=
  MessageModel.uploadData env ;;
  message <- get ;;
  let id' := MessageAttributes.id message in
  let expireTimer := expireTimer this in
  let destination := id this in
  let chatMessage :=
    ChatMessage id' (MessageModel.sentAtOr now message) expireTimer in
  if isPublic this then
    let openGroupMessage :=
      OpenGroupMessage id' (MessageModel.sentAtOr now message) (id this) in
    call (SendToGroup openGroupMessage)
      (sendToGroupFails env openGroupMessage) ;;
    ret (ret RetUndefined)
  else
    MessageModel.newPubKey env destination ;;
    if isPrivate this then
      if MessageAttributes.groupInvitation message then
        let groupInvitMessage :=
          GroupInvitationMessage id' (MessageModel.sentAtOr now message) in
        call (SendToPubKey destination groupInvitMessage)
          (sendToPubKeyFails env destination groupInvitMessage) ;;
        ret (ret RetUndefined)
      else
        call (SendToPubKey destination chatMessage)
          (sendToPubKeyFails env destination chatMessage) ;;
        ret (ret RetUndefined)
    else if isMediumGroup this then
      let closedGroupChatMessage :=
        ClosedGroupChatMessage None destination chatMessage in
      call (SendToGroup closedGroupChatMessage)
        (sendToGroupFails env closedGroupChatMessage) ;;
      ret (ret RetUndefined)
    else if isClosedGroup this then
      throw (newError
        "Legacy group are not supported anymore. You need to recreate this group.")
    else
      throw (newTypeError
        ("Invalid conversation type: '" +:+ type this +:+ "'")).

Definition sendMessageJob (env : Collaborators) (this : t) (now : Z)
  : Async MessageAttributes.t Ret :=
  tryCatch (sendMessageJobTry env this now)
    (fun e => MessageModel.saveErrors env (inl e) ;; ret RetNull).

(** The job [sendMessage] queues: [async () => { await
    this.sendMessageJob(model); }]. *)
Definition sendMessageTask (env : Collaborators) (this : t) (now : Z)
  : Async MessageAttributes.t Ret :=
  sendMessageJob env this now ;;
  ret RetUndefined.

(** *** updateExpirationTimer *)

(** Modelled from the spec: [initOutgoingMessage] and [initIncomingMessage]
    of [messageType], which build the attributes of the local system
    message that §4.3 says records the change, outgoing when attributed to
    the local user and incoming otherwise. [updateExpirationTimer] gives the
    message [expireTimer: 0] and no start, so that the [setToExpire()] of
    the constructor of [MessageModel] does nothing on it. *)
Definition initMessage (direction : MessageModelType) (conversationId : string)
    (timestamp : Z) (source : string) (update : TimerUpdate)
  : MessageAttributes.t :=
  {| MessageAttributes.id := None;
     MessageAttributes.type := direction;
     MessageAttributes.conversationId := conversationId;
     MessageAttributes.source := Some source;
     MessageAttributes.body := "";
     MessageAttributes.sent_at := Some timestamp;
     MessageAttributes.received_at := timestamp;
     MessageAttributes.unread := true;
     MessageAttributes.errors := None;
     MessageAttributes.recipients := None;
     MessageAttributes.sent := false;
     MessageAttributes.sent_to := None;
     MessageAttributes.delivered := None;
     MessageAttributes.delivered_to := None;
     MessageAttributes.read_by := None;
     MessageAttributes.calculatingPoW := false;
     MessageAttributes.expireTimer := Some 0%Z;
     MessageAttributes.expirationStartTimestamp := None;
     MessageAttributes.expires_at := None;
     MessageAttributes.synced := false;
     MessageAttributes.sentSync := false;
     MessageAttributes.sync := false;
     MessageAttributes.groupInvitation := false;
     MessageAttributes.destination := None;
     MessageAttributes.expirationTimerUpdate := Some update |}.

Record TimerOptions := {
  fromSync : bool;
  fromGroupUpdate : bool;
}.

Definition updateExpirationTimer (env : Collaborators)
    (providedExpireTimer : JsVal) (providedSource : option string)
    (receivedAt : option Z) (options : TimerOptions) (now : Z)
  : Async Model Ret :=
  let expireTimer :=
    if negb (truthy providedExpireTimer) then JsNull
    else providedExpireTimer in
  this <- get ;;
  if strictEq (ConversationAttributes.expireTimer (attributes this)) expireTimer
     || (negb (truthy expireTimer)
         && negb (truthy (ConversationAttributes.expireTimer (attributes this))))
  then ret RetNull
  else
    let source :=
      if truthyOptStr providedSource then default "" providedSource
      else getOurPubKeyStrFromCache env in
    let timestamp :=
      ((if truthyNum receivedAt then default now receivedAt else now) - 1)%Z in
    set (setAttributes (set_expireTimer expireTimer)) ;;
    commit ;;
    this <- get ;;
    let update :=
      {| tu_expireTimer := expireTimer; tu_source := source;
         tu_fromSync := fromSync options;
         tu_fromGroupUpdate := fromGroupUpdate options |} in
    let message :=
      initMessage (if isUsFromCache env source then outgoing else incoming)
        (id (attributes this)) timestamp source update in
    let message :=
      MessageAttributes.set_destination (Some (id (attributes this)))
        message in
    let message :=
      if MessageModel.isOutgoing message
      then MessageAttributes.set_recipients
             (Some (getRecipients env (attributes this))) message
      else message in
    saved <- onMessage env message (MessageModel.commit env) ;;
    let id' := saved.1 in
    let message := MessageAttributes.set_id (Some id') saved.2 in
    perform (Trigger "messageAdded") ;;
    commit ;;
    if truthyNum receivedAt then ret (RetMessage id')
    else
      let expireUpdate groupId :=
        ExpirationTimerUpdateMessage (Some id') timestamp
          (if truthy expireTimer then expireTimer else JsUndefined)
          groupId in
      if isMe env (attributes this) then
        onMessage env message (MessageModel.sendSyncMessageOnly env now) ;;
        ret RetUndefined
      else if bool_decide (type (attributes this) = "private") then
        let expirationTimerMessage := expireUpdate None in
        match pubKeyFails env (id (attributes this)) with
        | Some e => throw e
        | None =>
            call (SendToPubKey (id (attributes this)) expirationTimerMessage)
              (sendToPubKeyFails env (id (attributes this))
                 expirationTimerMessage) ;;
            ret (RetMessage id')
        end
      else
        let expirationTimerMessage :=
          expireUpdate (Some (id (attributes this))) in
        let ourNumber := getOurPubKeyStrFromCache env in
        if Nat.eqb (length (members (attributes this))) 1
           && bool_decide (head (members (attributes this)) = Some ourNumber)
        then
          onMessage env message (MessageModel.sendSyncMessageOnly env now) ;;
          ret RetUndefined
        else
          call (SendToGroup expirationTimerMessage)
            (sendToGroupFails env expirationTimerMessage) ;;
          ret (RetMessage id').

(** *** markRead *)

Record MarkReadOptions := {
  sendReadReceipts : bool;
  readAt : option Z;
}.

(** What [markRead] keeps of a message it has marked. *)
Record ReadItem := {
  sender : option string;
  timestamp : option Z;
  itemHasErrors : bool;
}.

(** [text.indexOf(`@${ourNumber}`) !== -1], on a text that is set and not
    empty. *)
Definition mentions (ourNumber : string) (text : string) : bool :=
  truthyStr text
  && bool_decide (is_Some (String.index 0 ("@" +:+ ourNumber) text)).

(** [_.groupBy(read, 'sender')]: the senders in the order they first
    appear, each with the timestamps of its items that are set. *)
Definition receiptsBySender (read : list ReadItem)
  : list (string * list Z) :=
  map (fun s =>
         (s, omap (fun item =>
                     if bool_decide (sender item = Some s)
                        && truthyNum (timestamp item)
                     then timestamp item else None) read))
      (uniq (omap sender read)).

Definition markRead (env : Collaborators) (newestUnreadDate : Z)
    (options : MarkReadOptions) (now : Z) : Async Model unit :=
  this <- get ;;
  let conversationId := id (attributes this) in
  perform (RemoveNotifications conversationId) ;;
  unreadMessages <- getUnread ;;
  let oldUnread :=
    List.filter
      (fun message =>
         Z.leb (MessageAttributes.received_at message) newestUnreadDate)
      unreadMessages in
  read <-
    mapAsync
      (fun providedM =>
         marked <- onMessage env providedM
                     (MessageModel.markRead env (readAt options) now) ;;
         let m := marked.2 in
         ret {| sender := MessageAttributes.source m;
                timestamp := MessageAttributes.sent_at m;
                itemHasErrors :=
                  Nat.ltb 0 (length (orEmpty (MessageAttributes.errors m))) |})
      oldUnread ;;
  let read := List.filter (fun m => truthyOptStr (sender m)) read in
  realUnreadCount <- getUnreadCount ;;
  this <- get ;;
  if Nat.eqb (length read) 0 then
    let cachedUnreadCountOnConvo := unreadCount (attributes this) in
    if negb (Nat.eqb cachedUnreadCountOnConvo (length read)) then
      set (setAttributes (set_unreadCount 0)) ;;
      commit
    else ret tt
  else
    let unreadMessages := List.filter MessageModel.isIncoming unreadMessages in
    set (setAttributes (set_unreadCount realUnreadCount)) ;;
    let mentionRead :=
      let stillUnread :=
        List.filter
          (fun m =>
             Z.ltb newestUnreadDate (MessageAttributes.received_at m))
          unreadMessages in
      let ourNumber := getOurPubKeyStrFromCache env in
      negb (existsb
              (fun m => mentions ourNumber (MessageAttributes.body m))
              stillUnread) in
    when mentionRead (set (setAttributes (set_mentionedUs false))) ;;
    commit ;;
    let read := List.filter (fun item => negb (itemHasErrors item)) read in
    this <- get ;;
    if isPublic (attributes this) then ret tt
    else
      when (isPrivate (attributes this)
            && Nat.ltb 0 (length read) && sendReadReceipts options)
        (when (read_receipt_setting env)
           (promiseAll
              (fun receipts : string * list Z =>
                 let receiptMessage := ReadReceiptMessage now receipts.2 in
                 match pubKeyFails env receipts.1 with
                 | Some e => throw e
                 | None =>
                     call (SendToPubKey receipts.1 receiptMessage)
                       (sendToPubKeyFails env receipts.1 receiptMessage)
                 end)
              (receiptsBySender read))).

(** *** Remote typing indicator *)

Definition notifyTyping (env : Collaborators) (isTyping : bool)
    (sender : string) (now : Z) : Async Model unit :=
  if isUsFromCache env sender then ret tt
  else
    this <- get ;;
    if negb (isPrivate (attributes this)) then ret tt
    else
      let wasTyping := bool_decide (is_Some (typingTimer this)) in
      when wasTyping
        (perform ClearTimeout ;; set (setTypingTimer None)) ;;
      if isTyping then
        perform (SetTimeout (15 * 1000)) ;;
        set (setTypingTimer (Some (now + 15 * 1000)%Z)) ;;
        when (negb wasTyping) commit
      else
        set (setTypingTimer None) ;;
        when wasTyping commit.

Definition clearContactTypingTimer : Async Model unit :=
  this <- get ;;
  if bool_decide (is_Some (typingTimer this)) then
    perform ClearTimeout ;;
    set (setTypingTimer None) ;;
    commit
  else ret tt.

End ConversationModel.

(** ** The job chain of a conversation

    [queueJob] chains every task on the promise of the task queued before
    it. The promises it makes are kept in a store, indexed in the order they
    were made; the event loop is a step function over that store. What a
    task does while it runs is left to the models above: here a task is
    started, and later the promise that [createTaskWithTimeout] wraps around
    it settles. *)

Module JobQueue.

(** Modelled from the spec: [window.textsecure.createTaskWithTimeout],
    which §4.1 gives as a wrapper whose promise is fulfilled when the task
    succeeds and rejected when it fails or exceeds the timeout. *)
Inductive Outcome := Succeeded | Failed | TimedOut.

Inductive PromiseState :=
| Pending
| Settled (o : Outcome).

Definition settled (s : PromiseState) : bool :=
  match s with
  | Settled _ => true
  | Pending => false
  end.

Definition fulfilled (s : PromiseState) : bool :=
  match s with
  | Settled Succeeded => true
  | _ => false
  end.

(** The promise [current = previous.then(taskWithTimeout, taskWithTimeout)]
    of one call to [queueJob]. *)
Record Job := {
  previous : option nat;  (* [this.pending] at the call; [None] is [Promise.resolve()] *)
  started : bool;         (* [taskWithTimeout] has been called *)
  state : PromiseState;   (* the state of [current] *)
  cleaned : bool;         (* the reaction [current.then(() => ...)] has run *)
}.

Record Queue := {
  jobs : list Job;
  pending : option nat;   (* [this.pending] *)
  startLog : list nat;    (* the tasks called so far, oldest first *)
}.

Definition empty : Queue := {| jobs := []; pending := None; startLog := [] |}.

Definition queueJob (q : Queue) : Queue :=
  let previous := pending q in
  let current := length (jobs q) in
  {| jobs := jobs q ++ [{| previous := previous; started := false;
                           state := Pending; cleaned := false |}];
     pending := Some current;
     startLog := startLog q |}.

(** [previous] has settled, so that its reactions may run; both reactions
    of [previous.then(task, task)] call the task. *)
Definition previousSettled (q : Queue) (job : Job) : bool :=
  match previous job with
  | None => true
  | Some p =>
      match jobs q !! p with
      | Some pj => settled (state pj)
      | None => false
      end
  end.

Inductive Event :=
| QueueJob                        (* a call to [queueJob] *)
| Start (i : nat)                 (* the reaction on [previous] calls task [i] *)
| Settle (i : nat) (o : Outcome)  (* the promise of task [i] settles *)
| Cleanup (i : nat).              (* the reaction on the fulfilment of [current] *)

Definition step (q : Queue) (ev : Event) : option Queue :=
  match ev with
  | QueueJob => Some (queueJob q)
  | Start i =>
      match jobs q !! i with
      | Some job =>
          if negb (started job) && previousSettled q job then
            Some {| jobs := <[i := {| previous := previous job;
                                      started := true;
                                      state := state job;
                                      cleaned := cleaned job |}]> (jobs q);
                    pending := pending q;
                    startLog := startLog q ++ [i] |}
          else None
      | None => None
      end
  | Settle i o =>
      match jobs q !! i with
      | Some job =>
          if started job && negb (settled (state job)) then
            Some {| jobs := <[i := {| previous := previous job;
                                      started := started job;
                                      state := Settled o;
                                      cleaned := cleaned job |}]> (jobs q);
                    pending := pending q;
                    startLog := startLog q |}
          else None
      | None => None
      end
  | Cleanup i =>
      match jobs q !! i with
      | Some job =>
          if fulfilled (state job) && negb (cleaned job) then
            Some {| jobs := <[i := {| previous := previous job;
                                      started := started job;
                                      state := state job;
                                      cleaned := true |}]> (jobs q);
                    pending :=
                      if bool_decide (pending q = Some i) then None
                      else pending q;
                    startLog := startLog q |}
          else None
      | None => None
      end
  end.

Fixpoint run (q : Queue) (evs : list Event) : option Queue :=
  match evs with
  | [] => Some q
  | ev :: evs' =>
      match step q ev with
      | Some q' => run q' evs'
      | None => None
      end
  end.

(** The states the chain of a conversation can be in. *)
Definition reachable (q : Queue) : Prop :=
  exists evs, run empty evs = Some q.

Definition isRunning (job : Job) : bool :=
  started job && negb (settled (state job)).

(** The schedule that submits [length os] tasks and then lets each run to
    the outcome given for it. *)
Fixpoint inOrder (i : nat) (os : list Outcome) : list Event :=
  match os with
  | [] => []
  | o :: os' => Start i :: Settle i o :: inOrder (S i) os'
  end.

Definition schedule (os : list Outcome) : list Event :=
  replicate (length os) QueueJob ++ inOrder 0 os.

(** Every promise made before the [j]-th has settled. *)
Definition settledBefore (q : Queue) (j : nat) : Prop :=
  forall i job, i < j -> jobs q !! i = Some job -> settled (state job) = true.

(** What every step of the event loop keeps true of the chain. *)
Record chained (q : Queue) : Prop := {
  chained_pending :
    match pending q with
    | Some p => S p = length (jobs q)
    | None => settledBefore q (length (jobs q))
    end;
  chained_previous :
    forall j job, jobs q !! j = Some job ->
      match previous job with
      | Some p => S p = j
      | None => settledBefore q j
      end;
  chained_started :
    forall j job, jobs q !! j = Some job -> started job = true ->
      settledBefore q j;
  chained_settled :
    forall j job, jobs q !! j = Some job -> settled (state job) = true ->
      started job = true;
  chained_log : startLog q = seq 0 (length (startLog q));
  chained_log_bound : length (startLog q) <= length (jobs q);
  chained_log_started :
    forall j job, jobs q !! j = Some job ->
      (started job = true <-> j < length (startLog q));
}.

(** The promise of the [k]-th task of a chain whose first tasks have run,
    one after the other, to the outcomes [done]. *)
Definition jobAfter (done : list Outcome) (k : nat) : Job :=
  {| previous := match k with 0 => None | S p => Some p end;
     started := bool_decide (k < length done);
     state := match done !! k with Some o => Settled o | None => Pending end;
     cleaned := false |}.

(** The chain of [n] queued tasks once the first of them have run to the
    outcomes [done], before any cleanup reaction. *)
Definition chainAfter (done : list Outcome) (n : nat) : Queue :=
  {| jobs := map (jobAfter done) (seq 0 n);
     pending := match n with 0 => None | S p => Some p end;
     startLog := seq 0 (length done) |}.

End JobQueue.

(** ** The recipients of a message in the detail view *)

Module MessageDetail.
Import MessageAttributes.

Definition getStatus (pubkey : string) (m : t) : option string :=
  let readBy := orEmpty (read_by m) in
  if bool_decide (pubkey ∈ readBy) then Some "read"
  else
    let deliveredTo := orEmpty (delivered_to m) in
    if bool_decide (pubkey ∈ deliveredTo) then Some "delivered"
    else
      let sentTo := orEmpty (sent_to m) in
      if bool_decide (pubkey ∈ sentTo) then Some "sent"
      else None.

(** The [phoneNumbers] of [getPropsForMessageDetail] for an outgoing
    message: [_.union(sent_to || [], recipients ||
    this.getConversation().getRecipients())]. *)
Definition phoneNumbers (env : Collaborators)
    (conversation : ConversationAttributes.t) (m : t) : list string :=
  union (orEmpty (sent_to m))
    (match recipients m with
     | Some l => l
     | None => ConversationQueries.getRecipients env conversation
     end).

(** The [status] it gives a contact: [this.getStatus(id) ||
    this.getMessagePropStatus()]. *)
Definition contactStatus (env : Collaborators) (id : string) (m : t)
  : option string :=
  match getStatus id m with
  | Some status => Some status
  | None => MessageModel.getMessagePropStatus env m
  end.

End MessageDetail.

(** ** The local typing indicator

    [bumpTyping] and the two timers behind it. A timer handle is the time at
    which the timeout is due; the conversation the methods run on does not
    change, and is an argument. *)

Module LocalTyping.
Import ConversationAttributes ConversationQueries.

(** The settings and the block lists these methods read. *)
Record Settings := {
  typing_indicators_setting : bool;
      (* window.storage.get('typing-indicators-setting') *)
  primaryDevicePubKey : option string;
      (* window.storage.get('primaryDevicePubKey') *)
  numberBlocked : string -> bool;
      (* BlockedNumberController.isBlocked *)
  groupBlocked : string -> bool;
      (* BlockedNumberController.isGroupBlocked *)
}.

Record Timers := {
  typingRefreshTimer : option Z;
  typingPauseTimer : option Z;
}.

Definition setRefresh (v : option Z) (s : Timers) : Timers :=
  {| typingRefreshTimer := v; typingPauseTimer := typingPauseTimer s |}.

Definition setPause (v : option Z) (s : Timers) : Timers :=
  {| typingRefreshTimer := typingRefreshTimer s; typingPauseTimer := v |}.

Definition isBlocked (env : Collaborators) (settings : Settings) (this : t)
  : bool :=
  if negb (truthyStr (id this)) || isMe env this then false
  else if isClosedGroup this then groupBlocked settings (id this)
  else if isPrivate this then numberBlocked settings (id this)
  else false.

(** The rejection of [sendToPubKey] goes to [window.log.error]. *)
Definition sendTypingMessage (env : Collaborators) (settings : Settings)
    (this : t) (isTyping : bool) (now : Z) : Async Timers unit :=
  if negb (isPrivate this) then ret tt
  else
    let recipientId := id this in
    if negb (truthyStr recipientId)
    then throw (newError "Need to provide either recipientId")
    else if truthyStr recipientId
            && bool_decide (primaryDevicePubKey settings = Some recipientId)
    then ret tt
    else
      let typingMessage := TypingMessage isTyping now in
      match pubKeyFails env recipientId with
      | Some e => throw e
      | None => perform (SendToPubKey recipientId typingMessage)
      end.

Definition clearTypingTimers : Async Timers unit :=
  this <- get ;;
  when (bool_decide (is_Some (typingPauseTimer this)))
    (perform ClearTimeout ;; set (setPause None)) ;;
  this <- get ;;
  when (bool_decide (is_Some (typingRefreshTimer this)))
    (perform ClearTimeout ;; set (setRefresh None)).

Definition setTypingRefreshTimer (now : Z) : Async Timers unit :=
  this <- get ;;
  when (bool_decide (is_Some (typingRefreshTimer this)))
    (perform ClearTimeout) ;;
  perform (SetTimeout (10 * 1000)) ;;
  set (setRefresh (Some (now + 10 * 1000)%Z)).

Definition setTypingPauseTimer (now : Z) : Async Timers unit :=
  this <- get ;;
  when (bool_decide (is_Some (typingPauseTimer this)))
    (perform ClearTimeout) ;;
  perform (SetTimeout (10 * 1000)) ;;
  set (setPause (Some (now + 10 * 1000)%Z)).

Definition onTypingRefreshTimeout (env : Collaborators) (settings : Settings)
    (this : t) (now : Z) : Async Timers unit :=
  let isTyping := true in
  sendTypingMessage env settings this isTyping now ;;
  setTypingRefreshTimer now.

Definition onTypingPauseTimeout (env : Collaborators) (settings : Settings)
    (this : t) (now : Z) : Async Timers unit :=
  let isTyping := false in
  sendTypingMessage env settings this isTyping now ;;
  clearTypingTimers.

Definition bumpTyping (env : Collaborators) (settings : Settings) (this : t)
    (now : Z) : Async Timers unit :=
  if isPublic this || isMediumGroup this then ret tt
  else if negb (typing_indicators_setting settings)
          || isBlocked env settings this
  then ret tt
  else
    timers <- get ;;
    when (negb (bool_decide (is_Some (typingRefreshTimer timers))))
      (let isTyping := true in
       setTypingRefreshTimer now ;;
       sendTypingMessage env settings this isTyping now) ;;
    setTypingPauseTimer now.

(** What happens to the timers of a conversation: a keystroke (the
    throttled [bumpTyping]), one of the two timeouts coming due, and a
    message being sent ([sendMessage] starts with [clearTypingTimers]). *)
Inductive Event :=
| Keystroke (now : Z)
| RefreshTimeout (now : Z)
| PauseTimeout (now : Z)
| MessageSent.

Definition due (timer : option Z) (now : Z) : bool :=
  match timer with
  | Some at_ => Z.leb at_ now
  | None => false
  end.

(** One event; [None] when a timeout is not due. The timers and the
    effects are those the method leaves, also when it throws. *)
Definition step (env : Collaborators) (settings : Settings) (this : t)
    (timers : Timers) (ev : Event) : option (Timers * list Effect) :=
  match ev with
  | Keystroke now =>
      let r := bumpTyping env settings this now timers in
      Some (final r, trace r)
  | RefreshTimeout now =>
      if due (typingRefreshTimer timers) now then
        let r := onTypingRefreshTimeout env settings this now timers in
        Some (final r, trace r)
      else None
  | PauseTimeout now =>
      if due (typingPauseTimer timers) now then
        let r := onTypingPauseTimeout env settings this now timers in
        Some (final r, trace r)
      else None
  | MessageSent =>
      let r := clearTypingTimers timers in
      Some (final r, trace r)
  end.

Fixpoint run (env : Collaborators) (settings : Settings) (this : t)
    (timers : Timers) (evs : list Event) : option (Timers * list Effect) :=
  match evs with
  | [] => Some (timers, [])
  | ev :: evs' =>
      match step env settings this timers ev with
      | Some (timers', t) =>
          match run env settings this timers' evs' with
          | Some (timers'', t') => Some (timers'', t ++ t')
          | None => None
          end
      | None => None
      end
  end.

Definition idle : Timers :=
  {| typingRefreshTimer := None; typingPauseTimer := None |}.

(** The typing flags a trace sends out, in order. *)
Fixpoint signals (t : list Effect) : list bool :=
  match t with
  | [] => []
  | SendToPubKey _ (TypingMessage isTyping _) :: t' => isTyping :: signals t'
  | _ :: t' => signals t'
  end.

End LocalTyping.

(** ** Orders on statuses *)

(** How far a delivery has got: ['sent'] below ['delivered'] below ['read'];
    anything else is below all three. *)
Definition statusRank (status : option string) : nat :=
  match status with
  | Some s =>
      if bool_decide (s = "read") then 3
      else if bool_decide (s = "delivered") then 2
      else if bool_decide (s = "sent") then 1
      else 0
  | None => 0
  end.

(** ** Observations on read marking *)

(** The job that [onReadMessage] queues for a read sync of [message]. *)
Definition onReadMessageTask (env : Collaborators)
    (message : MessageAttributes.t) (readAt : option Z) (now : Z)
  : Async ConversationModel.Model unit :=
  ConversationModel.markRead env (MessageAttributes.received_at message)
    {| ConversationModel.sendReadReceipts := false;
       ConversationModel.readAt := readAt |} now.

(** The rows that [markRead(newestUnreadDate)] of a conversation marks: its
    unread rows received no later than that date. *)
Definition toMark (conversationId : string) (newestUnreadDate : Z)
    (row : MessageAttributes.t) : bool :=
  MessageAttributes.unread row
  && bool_decide (MessageAttributes.conversationId row = conversationId)
  && Z.leb (MessageAttributes.received_at row) newestUnreadDate.

(** The row that [markRead] of the message leaves. *)
Definition markedRead (env : Collaborators)
    (options : ConversationModel.MarkReadOptions) (now : Z)
    (row : MessageAttributes.t) : MessageAttributes.t :=
  final (MessageModel.markRead env (ConversationModel.readAt options) now row).

(** The unread rows of the conversation received after the date. *)
Definition newerUnread (conversationId : string) (newestUnreadDate : Z)
    (rows : list MessageAttributes.t) : list MessageAttributes.t :=
  List.filter
    (fun row =>
       MessageAttributes.unread row
       && bool_decide (MessageAttributes.conversationId row = conversationId)
       && Z.ltb newestUnreadDate (MessageAttributes.received_at row))
    rows.

(** A read receipt of a run at [now], for a message that was to be marked
    and carries no error. *)
Definition isReadReceipt (now : Z) (marked : list MessageAttributes.t)
    (eff : Effect) : Prop :=
  exists sender timestamps,
    eff = SendToPubKey sender (ReadReceiptMessage now timestamps)
    /\ (exists row, row ∈ marked
                    /\ MessageAttributes.source row = Some sender
                    /\ orEmpty (MessageAttributes.errors row) = [])
    /\ (forall ts, ts ∈ timestamps ->
          exists row, row ∈ marked
                      /\ MessageAttributes.source row = Some sender
                      /\ MessageAttributes.sent_at row = Some ts
                      /\ orEmpty (MessageAttributes.errors row) = []).

(** What a run of [markRead] on the conversation [c] leaves: the rows it
    was to mark have been saved as read, one after the other, the counter
    is the count of the unread query when a marked row has a sender and 0
    when none has, and every dispatch is a read receipt, sent only from a
    private conversation with receipts asked for and the setting on. *)
Definition markReadRun (env : Collaborators) (newestUnreadDate : Z)
    (options : ConversationModel.MarkReadOptions) (now : Z)
    (c : ConversationModel.Model)
    (r : Completion unit * ConversationModel.Model * list Effect) : Prop :=
  let conversationId :=
    ConversationAttributes.id (ConversationModel.attributes c) in
  let rows := ConversationModel.table c in
  let marked := List.filter (toMark conversationId newestUnreadDate) rows in
  ConversationModel.table (final r)
  = foldl (fun tbl row =>
             ConversationModel.saveMessage env
               (markedRead env options now row) tbl) rows marked
  /\ ConversationAttributes.unreadCount (ConversationModel.attributes (final r))
     = (if existsb (fun row => truthyOptStr (MessageAttributes.source row))
             marked
        then length (ConversationModel.unreadByConversation conversationId
                       (ConversationModel.table (final r)))
        else 0)
  /\ ConversationAttributes.id (ConversationModel.attributes (final r))
     = conversationId
  /\ (forall eff, eff ∈ dispatches (trace r) ->
        ConversationQueries.isPrivate (ConversationModel.attributes c) = true
        /\ ConversationQueries.isPublic (ConversationModel.attributes c)
           = false
        /\ ConversationModel.sendReadReceipts options = true
        /\ read_receipt_setting env = true
        /\ isReadReceipt now marked eff).

(** ** Observations on dispatch *)

(** What a run of [updateExpirationTimer] with the value [x] hands to the
    delivery gateway: nothing for a change that was received, nothing in
    the conversation with ourselves, and otherwise at most one timer update,
    to the peer of a private conversation or to the group. *)
Definition timerPropagation (env : Collaborators) (x : JsVal)
    (receivedAt : option Z) (now : Z) (c : ConversationModel.Model)
    (r : Completion Ret * ConversationModel.Model * list Effect) : Prop :=
  let attrs := ConversationModel.attributes c in
  let conversationId := ConversationAttributes.id attrs in
  let expireTimer := if truthy x then x else JsUndefined in
  (truthyNum receivedAt = true -> dispatches (trace r) = [])
  /\ (ConversationQueries.isMe env attrs = true -> dispatches (trace r) = [])
  /\ length (dispatches (trace r)) <= 1
  /\ (forall eff, eff ∈ dispatches (trace r) ->
        exists identifier,
          (ConversationAttributes.type attrs = "private"
           /\ eff = SendToPubKey conversationId
                      (ExpirationTimerUpdateMessage identifier (now - 1)%Z
                         expireTimer None))
          \/ (ConversationAttributes.type attrs <> "private"
              /\ eff = SendToGroup
                         (ExpirationTimerUpdateMessage identifier (now - 1)%Z
                            expireTimer (Some conversationId)))).

(** What [sendMessageJob] hands to the delivery gateway for the message [m]
    of the conversation [this]. *)
Definition jobPayload (this : ConversationAttributes.t) (now : Z)
    (m : MessageAttributes.t) : option Effect :=
  let identifier := MessageAttributes.id m in
  let timestamp := MessageModel.sentAtOr now m in
  let chatMessage :=
    ChatMessage identifier timestamp (ConversationAttributes.expireTimer this) in
  let conversationId := ConversationAttributes.id this in
  if ConversationQueries.isPublic this then
    Some (SendToGroup (OpenGroupMessage identifier timestamp conversationId))
  else if ConversationQueries.isPrivate this then
    Some (SendToPubKey conversationId
            (if MessageAttributes.groupInvitation m
             then GroupInvitationMessage identifier timestamp
             else chatMessage))
  else if ConversationQueries.isMediumGroup this then
    Some (SendToGroup (ClosedGroupChatMessage None conversationId chatMessage))
  else None.

(** A run of [sendMessageJob]: the upload comes first, at most one dispatch
    follows, with the payload of the kind of conversation, and it is made
    when the upload and the key of the destination go through. A
    conversation of no such kind gets no dispatch and an error. *)
Definition jobDispatch (env : Collaborators) (this : ConversationAttributes.t)
    (now : Z) (m : MessageAttributes.t)
    (r : Completion Ret * MessageAttributes.t * list Effect) : Prop :=
  head (trace r) = Some (UploadData (MessageAttributes.id m))
  /\ (forall eff, eff ∈ dispatches (trace r) ->
        jobPayload this now m = Some eff)
  /\ length (dispatches (trace r)) <= 1
  /\ (uploadFails env m = None ->
      ConversationQueries.isPublic this = true
      \/ pubKeyFails env (ConversationAttributes.id this) = None ->
      dispatches (trace r) = option_list (jobPayload this now m))
  /\ (uploadFails env m = None ->
      pubKeyFails env (ConversationAttributes.id this) = None ->
      jobPayload this now m = None ->
      result r = Returned RetNull
      /\ MessageModel.getMessagePropStatus env (final r) = Some "error").

(** ** Observations on typing signals *)

(** A log of typing flags in which a [false] comes only straight after a
    [true]; [typing] tells whether the flag before the log was [true]. *)
Fixpoint alternates (typing : bool) (log : list bool) : Prop :=
  match log with
  | [] => True
  | flag :: log' => (flag = false -> typing = true) /\ alternates flag log'
  end.

(** The last flag of a log, or the one before it. *)
Definition lastFlag (typing : bool) (log : list bool) : bool :=
  default typing (last log).

(** Whether [sendTypingMessage] of the conversation hands a message to the
    queue: a private conversation, not with our primary device, whose id
    makes a key. *)
Definition typingGoesOut (env : Collaborators)
    (settings : LocalTyping.Settings) (this : ConversationAttributes.t)
  : bool :=
  ConversationQueries.isPrivate this
  && truthyStr (ConversationAttributes.id this)
  && negb (bool_decide (LocalTyping.primaryDevicePubKey settings
                        = Some (ConversationAttributes.id this)))
  && match pubKeyFails env (ConversationAttributes.id this) with
     | None => true
     | Some _ => false
     end.

(** What the timers tell: a pause timer is set only beside a refresh
    timer, and while a refresh timer is set the last flag sent was [true]. *)
Definition typingInvariant (env : Collaborators)
    (settings : LocalTyping.Settings) (this : ConversationAttributes.t)
    (timers : LocalTyping.Timers) (typing : bool) : Prop :=
  (is_Some (LocalTyping.typingPauseTimer timers) ->
   is_Some (LocalTyping.typingRefreshTimer timers))
  /\ (is_Some (LocalTyping.typingRefreshTimer timers) ->
      typingGoesOut env settings this = true -> typing = true).

(** ** The left pane

    The selectors [_getConversationComparator], [_getLeftPaneLists] and
    [_getSessionConversationInfo] over the props of the conversations.
    [Array.prototype.sort] is left to the caller: the two functions that
    sort are given [sorted], the array [Object.values(lookup).sort(comparator)]
    gives them. *)

Module Selectors.

Record LastMessage := {
  status : string;
  text : string;
}.

(** The fields of [ConversationType] that the selectors read or write. *)
Record ConversationType := {
  id : string;
  name : option string;
  type : string;
  isPublic : bool;
  timestamp : option Z;
  activeAt : option Z;
  unreadCount : Z;
  isSelected : bool;
  isBlocked : bool;
  index : option nat;
  lastMessage : option LastMessage;
}.

(** [{ ...conversation, isSelected: true }] *)
Definition set_isSelected (v : bool) (c : ConversationType)
  : ConversationType :=
  {| id := id c; name := name c; type := type c; isPublic := isPublic c;
     timestamp := timestamp c; activeAt := activeAt c;
     unreadCount := unreadCount c; isSelected := v; isBlocked := isBlocked c;
     index := index c; lastMessage := lastMessage c |}.

Definition set_isBlocked (v : bool) (c : ConversationType)
  : ConversationType :=
  {| id := id c; name := name c; type := type c; isPublic := isPublic c;
     timestamp := timestamp c; activeAt := activeAt c;
     unreadCount := unreadCount c; isSelected := isSelected c; isBlocked := v;
     index := index c; lastMessage := lastMessage c |}.

Definition set_index (v : option nat) (c : ConversationType)
  : ConversationType :=
  {| id := id c; name := name c; type := type c; isPublic := isPublic c;
     timestamp := timestamp c; activeAt := activeAt c;
     unreadCount := unreadCount c; isSelected := isSelected c;
     isBlocked := isBlocked c; index := v; lastMessage := lastMessage c |}.

Definition set_lastMessage (v : option LastMessage) (c : ConversationType)
  : ConversationType :=
  {| id := id c; name := name c; type := type c; isPublic := isPublic c;
     timestamp := timestamp c; activeAt := activeAt c;
     unreadCount := unreadCount c; isSelected := isSelected c;
     isBlocked := isBlocked c; index := index c; lastMessage := v |}.

(** What the selectors call outside this file: [window.i18n], the
    collator ([toLowerCase] and [Intl.Collator.compare]) and the block
    lists. *)
Record Locale := {
  i18n : string -> string;
  toLowerCase : string -> string;
  compare : string -> string -> Z;
  numberBlocked : string -> bool;   (* BlockedNumberController.isBlocked *)
  groupBlocked : string -> bool;    (* BlockedNumberController.isGroupBlocked *)
}.

Definition getConversationTitle (locale : Locale)
    (conversation : ConversationType) : string :=
  if truthyOptStr (name conversation) then default "" (name conversation)
  else if bool_decide (type conversation = "group") then i18n locale "unknown"
  else id conversation.

Definition _getConversationComparator (locale : Locale)
    (left right : ConversationType) : Z :=
  let leftTimestamp := timestamp left in
  let rightTimestamp := timestamp right in
  if truthyNum leftTimestamp && negb (truthyNum rightTimestamp) then (-1)%Z
  else if truthyNum rightTimestamp && negb (truthyNum leftTimestamp) then 1%Z
  else if truthyNum leftTimestamp && truthyNum rightTimestamp
          && negb (bool_decide (leftTimestamp = rightTimestamp))
  then (default 0 rightTimestamp - default 0 leftTimestamp)%Z
  else
    let leftTitle := toLowerCase locale (getConversationTitle locale left) in
    let rightTitle := toLowerCase locale (getConversationTitle locale right) in
    compare locale leftTitle rightTitle.

Module LeftPaneLists.
Record t := {
  conversations : list ConversationType;
  contacts : list ConversationType;
  unreadCount : Z;
}.
End LeftPaneLists.

(** The loop of [_getLeftPaneLists] over what is left of [sorted], with
    its four variables. *)
Fixpoint leftPaneLoop (locale : Locale) (selectedConversation : option string)
    (sorted conversations allContacts : list ConversationType) (index : nat)
    (unreadCount : Z) : LeftPaneLists.t :=
  match sorted with
  | [] =>
      {| LeftPaneLists.conversations := conversations;
         LeftPaneLists.contacts := allContacts;
         LeftPaneLists.unreadCount := unreadCount |}
  | conversation :: rest =>
      let conversation :=
        if bool_decide (selectedConversation = Some (id conversation))
        then set_isSelected true conversation
        else conversation in
      let isBlocked :=
        numberBlocked locale (id conversation)
        || groupBlocked locale (id conversation) in
      let conversation :=
        if isBlocked then set_isBlocked true conversation else conversation in
      let conversation := set_index (Some index) conversation in
      if isPublic conversation
         && (negb (truthyOptStr (name conversation))
             || bool_decide (name conversation = Some "Unknown group"))
      then
        leftPaneLoop locale selectedConversation rest conversations allContacts
          index unreadCount
      else
        let conversation :=
          if isPublic conversation && negb (truthyNum (timestamp conversation))
          then set_lastMessage (Some {| status := "sending"; text := "" |})
                 conversation
          else conversation in
        if negb (isPublic conversation)
           && negb (truthyNum (activeAt conversation))
        then
          leftPaneLoop locale selectedConversation rest conversations
            allContacts index unreadCount
        else
          let allContacts :=
            if bool_decide (activeAt conversation <> None)
            then allContacts ++ [conversation]
            else allContacts in
          let unreadCount' :=
            if Z.ltb unreadCount 9
               && Z.ltb 0 (Selectors.unreadCount conversation)
            then (unreadCount + Selectors.unreadCount conversation)%Z
            else unreadCount in
          leftPaneLoop locale selectedConversation rest
            (conversations ++ [conversation]) allContacts (S index)
            unreadCount'
  end.

Definition _getLeftPaneLists (locale : Locale)
    (sorted : list ConversationType) (selectedConversation : option string)
  : LeftPaneLists.t :=
  leftPaneLoop locale selectedConversation sorted [] [] 0 0.

(** The [conversation] of [_getSessionConversationInfo]: the loop stops at
    the first conversation with the selected id. *)
Fixpoint _getSessionConversationInfo (sorted : list ConversationType)
    (selectedConversation : option string) : option ConversationType :=
  match sorted with
  | [] => None
  | conv :: rest =>
      if bool_decide (Some (id conv) = selectedConversation) then Some conv
      else _getSessionConversationInfo rest selectedConversation
  end.

End Selectors.

(** ** Observations on the left pane *)

(** The conversations the left pane keeps: an open group once it has a
    name other than ['Unknown group'], any other conversation once it is
    active. *)
Definition listed (c : Selectors.ConversationType) : bool :=
  if Selectors.isPublic c
  then truthyOptStr (Selectors.name c)
       && negb (bool_decide (Selectors.name c = Some "Unknown group"))
  else truthyNum (Selectors.activeAt c).

(** A conversation as the left pane shows it at position [index]. *)
Definition decorated (locale : Selectors.Locale)
    (selectedConversation : option string) (index : nat)
    (c : Selectors.ConversationType) : Selectors.ConversationType :=
  {| Selectors.id := Selectors.id c;
     Selectors.name := Selectors.name c;
     Selectors.type := Selectors.type c;
     Selectors.isPublic := Selectors.isPublic c;
     Selectors.timestamp := Selectors.timestamp c;
     Selectors.activeAt := Selectors.activeAt c;
     Selectors.unreadCount := Selectors.unreadCount c;
     Selectors.isSelected :=
       bool_decide (selectedConversation = Some (Selectors.id c))
       || Selectors.isSelected c;
     Selectors.isBlocked :=
       Selectors.numberBlocked locale (Selectors.id c)
       || Selectors.groupBlocked locale (Selectors.id c)
       || Selectors.isBlocked c;
     Selectors.index := Some index;
     Selectors.lastMessage :=
       if Selectors.isPublic c && negb (truthyNum (Selectors.timestamp c))
       then Some {| Selectors.status := "sending"; Selectors.text := "" |}
       else Selectors.lastMessage c |}.

(** The unread messages of the conversations, counted as the badge counts
    them: a count that is not positive adds nothing. *)
Definition unreadTotal (l : list Selectors.ConversationType) : Z :=
  foldr (fun c total => (Z.max 0 (Selectors.unreadCount c) + total)%Z) 0%Z l.

(** ** Emptying a conversation *)

Module ConversationMessages.
Import ConversationAttributes.
Import ConversationModel.

(** Modelled from the spec: [removeAllMessagesInConversation] of
    [window.Signal.Data], which §6 gives as [removeAll(conversationId)]:
    the rows of the conversation leave the table. *)
Definition removeAllMessagesInConversation (conversationId : string)
    (rows : list MessageAttributes.t) : list MessageAttributes.t :=
  List.filter
    (fun row =>
       negb (bool_decide (MessageAttributes.conversationId row
                          = conversationId))) rows.

(** [lastMessage: null] is set on an attribute outside the record. *)
Definition destroyMessages : Async Model unit :=
  this <- get ;;
  set (setTable (removeAllMessagesInConversation (id (attributes this)))) ;;
  perform (Trigger "conversationReset") ;;
  set (setAttributes
         (fun attrs => set_mentionedUs false (set_unreadCount 0 attrs))) ;;
  commit.

(** [confirmed] tells whether the confirmation dialog calls [resolve]. *)
Definition deleteMessages (confirmed : bool) : Async Model unit :=
  this <- get ;;
  if isPublic (attributes this) then
    throw (newError
      "Called deleteMessages() on an open group. Only leave group is supported.")
  else if confirmed then destroyMessages
  else ret tt.

End ConversationMessages.

(** ** Sending while offline *)

(** The error that [sendMessage] saves on the message when
    [window.textsecure.messaging] is not set. *)
Definition networkUnavailable (this : ConversationAttributes.t) : JsError :=
  {| e_ctor := CError;
     e_name := "SendMessageNetworkError";
     e_message := "Network is not available";
     e_code := None;
     e_number := Some (ConversationAttributes.id this);
     e_reason := None;
     e_stack := Some "stack" |}.

(** ** The expiration a message shows *)

Module MessageProps.
Import MessageAttributes.

(** [this.get('expireTimer') * 1000]; [None] is [NaN]. *)
Definition expirationLength (m : t) : option Z :=
  match expireTimer m with
  | Some timer => Some (timer * 1000)%Z
  | None => None
  end.

(** The [expirationTimestamp] of [getPropsForMessage]; [None] is [null]. *)
Definition expirationTimestamp (m : t) : option Z :=
  let expirationLength := expirationLength m in
  let expireTimerStart := expirationStartTimestamp m in
  if truthyNum expirationLength && truthyNum expireTimerStart
  then Some (default 0 expireTimerStart + default 0 expirationLength)%Z
  else None.

End MessageProps.

(** ** Validation of a conversation id

    A character is a code unit below 256. *)

Module Validation.
Import ConversationAttributes ConversationQueries.

(** [\s] *)
Definition isSpace (ch : Ascii.ascii) : bool :=
  let n := Ascii.nat_of_ascii ch in
  (Nat.leb 9 n && Nat.leb n 13) || Nat.eqb n 32 || Nat.eqb n 160.

(** [[0-9a-fA-F]] *)
Definition isHexDigit (ch : Ascii.ascii) : bool :=
  let n := Ascii.nat_of_ascii ch in
  (Nat.leb 48 n && Nat.leb n 57)
  || (Nat.leb 97 n && Nat.leb n 102)
  || (Nat.leb 65 n && Nat.leb n 70).

(** [id.replace(/[\s]*/g, '').match(/^[0-9a-fA-F]+$/)] *)
Definition isHex (id : string) : bool :=
  let stripped :=
    List.filter (fun ch => negb (isSpace ch)) (String.list_ascii_of_string id) in
  Nat.ltb 0 (length stripped) && forallb isHexDigit stripped.

(** The error message, or [None] for [null]. *)
Definition validateNumber (this : t) : option string :=
  if negb (truthyStr (id this)) then Some "Invalid ID"
  else if negb (isPrivate this) then None
  else if negb (isHex (id this)) then Some "Invalid Hex ID"
  else
    let len := String.length (id this) in
    if (negb (Nat.eqb len (33 * 2)) || negb (String.prefix "05" (id this)))
       && negb (Nat.eqb len (32 * 2))
    then Some "Invalid Pubkey Format"
    else None.

(** [attributes] is what is to be set on the model [this]. *)
Definition validate (attributes this : t) : option string :=
  let missing :=
    (if negb (truthyStr (id attributes)) then ["id"] else [])
    ++ (if negb (truthyStr (type attributes)) then ["type"] else []) in
  if Nat.ltb 0 (length missing)
  then Some ("Conversation must have " +:+ String.concat "," missing)
  else if negb (bool_decide (type attributes = "private"))
          && negb (bool_decide (type attributes = "group"))
  then Some ("Invalid conversation type: " +:+ type attributes)
  else
    match validateNumber this with
    | Some error => Some error
    | None => None
    end.

End Validation.

(** ** Observations on the sync bookkeeping *)

(** How many times a run saves a message. *)
Definition saves (t : list Effect) : nat :=
  length (List.filter
            (fun eff =>
               match eff with
               | SaveMessage _ => true
               | _ => false
               end) t).

(** Whether a delivery success reported as [sentMessage] makes
    [handleMessageSentSuccess] call [sendSyncMessage] on the message. *)
Definition triggersSync (env : Collaborators) (sentMessage : SentMessage)
    (m : MessageAttributes.t) : bool :=
  negb (openGroup sentMessage)
  && negb (truthyStr (device sentMessage)
           && isUsFromCache env (device sentMessage))
  && negb (closedGroupEncryption sentMessage)
  && negb (MessageAttributes.synced m)
  && negb (MessageAttributes.sentSync m)
  && hasDataMessage sentMessage.

(** Whether a delivery callback at the time [now] restarts the expiration
    of the message [m], so that the listener on the start records the
    deadline again: the start is not [now] already, and the message has a
    timer. *)
Definition restartsAt (now : Z) (m : MessageAttributes.t) : bool :=
  negb (bool_decide (MessageAttributes.expirationStartTimestamp m = Some now))
  && truthyNum (MessageAttributes.expireTimer m)
  && negb (Z.eqb now 0).

(** What a delivery success at the time [now] does to the sync flags and
    to the deadline of the message [m], and how many times it saves it: once
    for [sendSyncMessage], once for the listener on the start of a message
    that has an id, and once at the end. *)
Definition syncBookkeeping (env : Collaborators) (sentMessage : SentMessage)
    (now : Z) (m : MessageAttributes.t)
    (r : Completion unit * MessageAttributes.t * list Effect) : Prop :=
  let ours :=
    truthyStr (device sentMessage)
    && isUsFromCache env (device sentMessage) in
  MessageAttributes.sentSync (final r)
  = (MessageAttributes.sentSync m || triggersSync env sentMessage m)
  /\ MessageAttributes.synced (final r)
     = (MessageAttributes.synced m
        || (negb (openGroup sentMessage) && ours
            && MessageAttributes.sentSync m))
  /\ MessageAttributes.expires_at (final r)
     = (if restartsAt now m
        then Some (now + default 0 (MessageAttributes.expireTimer m) * 1000)%Z
        else MessageAttributes.expires_at m)
  /\ saves (trace r)
     = (if triggersSync env sentMessage m then 1 else 0)
       + (if restartsAt now m && truthyOptStr (MessageAttributes.id m)
          then 1 else 0)
       + 1.

(** ** Deleting messages of an open group *)

Module PublicMessages.
Import ConversationAttributes.
Import ConversationModel.

(** A message model as [deletePublicMessages] is given it: [cid] is the
    client id that Backbone gives each model object, so that two models are
    the same object exactly when they have the same [cid]. *)
Record Message := {
  cid : string;
  id : option string;
  serverId : option Z;
}.

(** [_.union] of two arrays of models: each object once, in order. *)
Fixpoint unionFrom (seen : list string) (l : list Message) : list Message :=
  match l with
  | [] => []
  | m :: l' =>
      if bool_decide (cid m ∈ seen) then unionFrom seen l'
      else m :: unionFrom (cid m :: seen) l'
  end.

Definition unionModels (a b : list Message) : list Message :=
  unionFrom [] (a ++ b).

(** What [channelAPI.deleteMessages] answers for the server ids it is
    given. *)
Record Deletion := {
  deletedIds : list Z;
  ignoredIds : list Z;
}.

(** Modelled from the spec: [removeMessage] of [window.Signal.Data], which
    §6 gives as [removeOne(id)]. *)
Definition removeOne (messageId : option string)
    (rows : list MessageAttributes.t) : list MessageAttributes.t :=
  List.filter
    (fun row => negb (bool_decide (MessageAttributes.id row = messageId)))
    rows.

Definition removeMessage (messageId : option string) : Async Model unit :=
  set (setTable (removeOne messageId)) ;;
  perform (Trigger "messageDeleted").

(** [_.union] of two arrays of server ids. *)
Fixpoint unionIdsFrom (seen l : list Z) : list Z :=
  match l with
  | [] => []
  | n :: l' =>
      if bool_decide (n ∈ seen) then unionIdsFrom seen l'
      else n :: unionIdsFrom (n :: seen) l'
  end.

Definition unionIds (a b : list Z) : list Z := unionIdsFrom [] (a ++ b).

(** [channelAPI] is what [getPublicSendData] resolves with: [None] when
    there is no channel, else what its [deleteMessages] answers, or rejects
    with. *)
Definition deletePublicMessages
    (channelAPI : option (list Z -> Completion Deletion))
    (messages : list Message) : Async Model (list Message) :=
  match channelAPI with
  | None => throw (newError "Unable to get public channel API")
  | Some deleteMessages =>
      let invalidMessages :=
        List.filter (fun m => negb (truthyNum (serverId m))) messages in
      let pendingMessages :=
        List.filter (fun m => truthyNum (serverId m)) messages in
      result <-
        (if Nat.ltb 0 (length pendingMessages)
         then
           match deleteMessages (omap serverId pendingMessages) with
           | Returned result => ret result
           | Thrown e => throw e
           end
         else ret {| deletedIds := []; ignoredIds := [] |}) ;;
      let deletedServerIds := deletedIds result in
      let ignoredServerIds := ignoredIds result in
      let toDeleteLocallyServerIds :=
        unionIds deletedServerIds ignoredServerIds in
      let toDeleteLocally :=
        List.filter
          (fun m =>
             match serverId m with
             | Some n => bool_decide (n ∈ toDeleteLocallyServerIds)
             | None => false
             end) messages in
      let toDeleteLocally := unionModels toDeleteLocally invalidMessages in
      promiseAll (fun m => removeMessage (id m)) toDeleteLocally ;;
      ret toDeleteLocally
  end.

End PublicMessages.

(** ** Observations on deletion *)

(** What a run of [deletePublicMessages] that goes through leaves, when the
    server answered [answer]: the messages it hands back are those given
    that have no server id or whose server id the server deleted or
    ignored, each object once, and their rows, no others, have left the
    table. *)
Definition deletedLocally (answer : PublicMessages.Deletion)
    (messages : list PublicMessages.Message) (c : ConversationModel.Model)
    (r : Completion (list PublicMessages.Message) * ConversationModel.Model
         * list Effect) : Prop :=
  exists removed,
    result r = Returned removed
    /\ (forall m,
          m ∈ removed
          <-> m ∈ messages
              /\ (truthyNum (PublicMessages.serverId m) = false
                  \/ exists n,
                       PublicMessages.serverId m = Some n
                       /\ (n ∈ PublicMessages.deletedIds answer
                           \/ n ∈ PublicMessages.ignoredIds answer)))
    /\ NoDup (map PublicMessages.cid removed)
    /\ ConversationModel.attributes (final r) = ConversationModel.attributes c
    /\ (forall row,
          row ∈ ConversationModel.table (final r)
          <-> row ∈ ConversationModel.table c
              /\ ~ (exists m, m ∈ removed
                              /\ PublicMessages.id m
                                 = MessageAttributes.id row)).

(** ** Observations on expiration *)

(** The deadline of a message: [start + expireTimer * 1000]. *)
Definition deadline (m : MessageAttributes.t) : Z :=
  (default 0 (MessageAttributes.expirationStartTimestamp m)
   + default 0 (MessageAttributes.expireTimer m) * 1000)%Z.

(** The message with its deadline recorded. *)
Definition withDeadline (m : MessageAttributes.t) : MessageAttributes.t :=
  MessageAttributes.set_expires_at (Some (deadline m)) m.

(** Whether writing the attributes [m] over a start that was [before] makes
    the listener on the start record the deadline: the start has changed and
    the message is expiring. *)
Definition restarts (before : option Z) (m : MessageAttributes.t) : bool :=
  negb (bool_decide (before = MessageAttributes.expirationStartTimestamp m))
  && MessageModel.isExpiring m.

(** What the listener leaves of the attributes [m] written over a start
    that was [before]. *)
Definition afterStart (before : option Z) (m : MessageAttributes.t)
  : MessageAttributes.t :=
  if restarts before m then withDeadline m else m.

(** What the listener does then: it saves a message that has an id. *)
Definition listenerTrace (before : option Z) (m : MessageAttributes.t)
  : list Effect :=
  if restarts before m && truthyOptStr (MessageAttributes.id m)
  then [SaveMessage (withDeadline m); Trigger "change"]
  else [].

(** ** Observations on runs *)

(** The errors [saveErrors] is given, as the array it works on. *)
Definition providedList (providedErrors : JsError + list JsError)
  : list JsError :=
  match providedErrors with
  | inl e => [e]
  | inr l => l
  end.

(** An error as [saveErrors] stores it. *)
Definition stored (e : JsError) : JsError :=
  if MessageModel.isPlainError e then pick e else e.

(** The [expireTimer] values a run writes to the conversation table, in
    order. *)
Definition persistedTimers (t : list Effect) : list JsVal :=
  omap (fun eff =>
          match eff with
          | UpdateConversation attrs =>
              Some (ConversationAttributes.expireTimer attrs)
          | _ => None
          end) t.

(** How many messages a run announces with a [messageAdded] event. *)
Definition messagesAdded (t : list Effect) : nat :=
  length (List.filter
            (fun eff =>
               match eff with
               | Trigger event => bool_decide (event = "messageAdded")
               | _ => false
               end) t).

(** The value [updateExpirationTimer] works with: a falsy argument is
    [null]. *)
Definition normalized (providedExpireTimer : JsVal) : JsVal :=
  if negb (truthy providedExpireTimer) then JsNull else providedExpireTimer.

(** The test on which [updateExpirationTimer] returns at once. *)
Definition unchangedTimer (current providedExpireTimer : JsVal) : bool :=
  strictEq current (normalized providedExpireTimer)
  || (negb (truthy (normalized providedExpireTimer))
      && negb (truthy current)).

(** A run that changed the timer: it left and persisted the new value and
    nothing but the new value, and added one message. *)
Definition timerChanged (x : JsVal)
    (r : Completion Ret * ConversationModel.Model * list Effect) : Prop :=
  ConversationAttributes.expireTimer
    (ConversationModel.attributes (final r)) = normalized x
  /\ persistedTimers (trace r) <> []
  /\ Forall (eq (normalized x)) (persistedTimers (trace r))
  /\ messagesAdded (trace r) = 1.

(** What the delivery gateway answers to a dispatch. *)
Definition dispatchFails (env : Collaborators) (eff : Effect)
  : option JsError :=
  match eff with
  | SendToPubKey pubkey payload => sendToPubKeyFails env pubkey payload
  | SendToGroup payload => sendToGroupFails env payload
  | _ => None
  end.

(** A run of the [try] block of [sendMessageJob] on the message [m]: it
    leaves the message as it was, hands back [undefined] when it goes
    through, and throws what the upload or a dispatch failed with. *)
Definition tryBlockRun (env : Collaborators) (m : MessageAttributes.t)
    (x : Completion (Async MessageAttributes.t Ret)
         * MessageAttributes.t * list Effect) : Prop :=
  final x = m
  /\ (forall p, result x = Returned p -> p = ret RetUndefined)
  /\ (forall e, uploadFails env m = Some e -> result x = Thrown e)
  /\ (forall eff e, eff ∈ trace x -> dispatchFails env eff = Some e ->
                    result x = Thrown e).

(** The writes of a run to the conversation table. *)
Definition commits (t : list Effect) : list Effect :=
  List.filter
    (fun eff =>
       match eff with
       | UpdateConversation _ => true
       | _ => false
       end) t.

(** What a delivery success leaves of the attributes the status reads. *)
Definition markedSent (m : MessageAttributes.t)
    (x : Completion unit * MessageAttributes.t * list Effect) : Prop :=
  MessageAttributes.errors (final x) = MessageAttributes.errors m
  /\ MessageAttributes.type (final x) = MessageAttributes.type m
  /\ MessageAttributes.read_by (final x) = MessageAttributes.read_by m
  /\ MessageAttributes.delivered (final x) = MessageAttributes.delivered m
  /\ MessageAttributes.delivered_to (final x)
     = MessageAttributes.delivered_to m
  /\ MessageAttributes.sent (final x) = true.

(** ** Sample data *)

Definition sampleEnv : Collaborators :=
  {| messaging := true;
     read_receipt_setting := true;
     getOurPubKeyStrFromCache := "05me";
     isUsFromCache := fun key => bool_decide (key = "05me");
     generateUUID := "uuid-1";
     uploadFails := fun _ => None;
     pubKeyFails := fun _ => None;
     sendToPubKeyFails := fun _ _ => None;
     sendToGroupFails := fun _ => None |}.

(** An outgoing message to [conversationId], not yet sent. *)
Definition sampleOutgoing (id conversationId : string)
    (recipients : list string) : MessageAttributes.t :=
  {| MessageAttributes.id := Some id;
     MessageAttributes.type := outgoing;
     MessageAttributes.conversationId := conversationId;
     MessageAttributes.source := None;
     MessageAttributes.body := "hello";
     MessageAttributes.sent_at := Some 100%Z;
     MessageAttributes.received_at := 100%Z;
     MessageAttributes.unread := false;
     MessageAttributes.errors := None;
     MessageAttributes.recipients := Some recipients;
     MessageAttributes.sent := false;
     MessageAttributes.sent_to := None;
     MessageAttributes.delivered := None;
     MessageAttributes.delivered_to := None;
     MessageAttributes.read_by := None;
     MessageAttributes.calculatingPoW := false;
     MessageAttributes.expireTimer := Some 5%Z;
     MessageAttributes.expirationStartTimestamp := None;
     MessageAttributes.expires_at := None;
     MessageAttributes.synced := false;
     MessageAttributes.sentSync := false;
     MessageAttributes.sync := false;
     MessageAttributes.groupInvitation := false;
     MessageAttributes.destination := Some conversationId;
     MessageAttributes.expirationTimerUpdate := None |}.

(** An unread incoming message from [source]. *)
Definition sampleIncoming (id conversationId source : string)
    (received_at : Z) : MessageAttributes.t :=
  {| MessageAttributes.id := Some id;
     MessageAttributes.type := incoming;
     MessageAttributes.conversationId := conversationId;
     MessageAttributes.source := Some source;
     MessageAttributes.body := "hello";
     MessageAttributes.sent_at := Some received_at;
     MessageAttributes.received_at := received_at;
     MessageAttributes.unread := true;
     MessageAttributes.errors := None;
     MessageAttributes.recipients := None;
     MessageAttributes.sent := false;
     MessageAttributes.sent_to := None;
     MessageAttributes.delivered := None;
     MessageAttributes.delivered_to := None;
     MessageAttributes.read_by := None;
     MessageAttributes.calculatingPoW := false;
     MessageAttributes.expireTimer := None;
     MessageAttributes.expirationStartTimestamp := None;
     MessageAttributes.expires_at := None;
     MessageAttributes.synced := false;
     MessageAttributes.sentSync := false;
     MessageAttributes.sync := false;
     MessageAttributes.groupInvitation := false;
     MessageAttributes.destination := None;
     MessageAttributes.expirationTimerUpdate := None |}.

Definition sampleConversation (id type : string) (members : list string)
  : ConversationAttributes.t :=
  {| ConversationAttributes.id := id;
     ConversationAttributes.type := type;
     ConversationAttributes.members := members;
     ConversationAttributes.expireTimer := JsNum 0;
     ConversationAttributes.profileSharing := false;
     ConversationAttributes.mentionedUs := false;
     ConversationAttributes.unreadCount := 0;
     ConversationAttributes.is_medium_group := false |}.

(** A message of a group of two, sent to and read by one of them. *)
Definition sampleRead : MessageAttributes.t :=
  MessageAttributes.set_read_by (Some ["05alice"])
    (MessageAttributes.set_sent true
       (MessageAttributes.set_sent_to (Some ["05alice"])
          (sampleOutgoing "m1" "group-1" ["05alice"; "05bob"]))).

(** An open group and a message sent to it: nobody was intended, nobody is
    outstanding. *)
Definition samplePublic : ConversationAttributes.t :=
  sampleConversation "publicChat:1@chat.example.org" "group" [].

Definition samplePublicMessage : MessageAttributes.t :=
  sampleOutgoing "m1" "publicChat:1@chat.example.org" [].

(** A closed group of three with the local user. *)
Definition sampleGroup : ConversationAttributes.t :=
  sampleConversation "group-1" "group" ["05me"; "05alice"; "05bob"].

(** A message to the group that reached one of its members; a third
    intended recipient has left the group since. *)
Definition samplePartial : MessageAttributes.t :=
  MessageAttributes.set_sent_to (Some ["05alice"])
    (sampleOutgoing "m1" "group-1" ["05alice"; "05bob"; "05carol"]).

(** A delivery failure reported for [number]. *)
Definition sampleNetworkError (number : string) : JsError :=
  {| e_ctor := CCustom; e_name := "SendMessageNetworkError";
     e_message := "Network is not available"; e_code := None;
     e_number := Some number; e_reason := None; e_stack := Some "stack" |}.

(** An error of another kind recorded for [number]. *)
Definition sampleOtherError (number : string) : JsError :=
  {| e_ctor := CCustom; e_name := "UnregisteredUserError";
     e_message := "unregistered"; e_code := None; e_number := Some number;
     e_reason := None; e_stack := Some "stack" |}.

Definition sampleSentMessage (device : string) : SentMessage :=
  {| device := device; closedGroupEncryption := false; openGroup := false;
     hasDataMessage := true; hasBodyOrAttachments := true |}.

(** A private conversation with [peer], nobody typing, over the given rows
    of the message table. *)
Definition samplePrivate (peer : string) (unreadCount : nat)
    (rows : list MessageAttributes.t) : ConversationModel.Model :=
  {| ConversationModel.attributes :=
       ConversationAttributes.set_unreadCount unreadCount
         (sampleConversation peer "private" []);
     ConversationModel.typingTimer := None;
     ConversationModel.table := rows |}.

(** Two unread messages from the peer, received at times 1 and 5. *)
Definition sampleUnread : ConversationModel.Model :=
  samplePrivate "05bob" 2
    [sampleIncoming "m1" "05bob" "05bob" 1;
     sampleIncoming "m2" "05bob" "05bob" 5].

Definition sampleMarkReadOptions : ConversationModel.MarkReadOptions :=
  {| ConversationModel.sendReadReceipts := true;
     ConversationModel.readAt := None |}.

(** Three tasks are queued; the first fails, the second is running when the
    third is queued, and times out. *)
Definition sampleEvents : list JobQueue.Event :=
  [JobQueue.QueueJob; JobQueue.QueueJob; JobQueue.Start 0;
   JobQueue.Settle 0 JobQueue.Failed; JobQueue.Start 1; JobQueue.QueueJob;
   JobQueue.Settle 1 JobQueue.TimedOut; JobQueue.Start 2].

Definition sampleQueue : JobQueue.Queue :=
  default JobQueue.empty (JobQueue.run JobQueue.empty sampleEvents).

(** ** More sample data *)

Definition sampleSettings : LocalTyping.Settings :=
  {| LocalTyping.typing_indicators_setting := true;
     LocalTyping.primaryDevicePubKey := Some "05me";
     LocalTyping.numberBlocked := fun _ => false;
     LocalTyping.groupBlocked := fun _ => false |}.

(** Three keystrokes within two seconds, the refresh timeout of the first
    and the pause timeout of the last. *)
Definition sampleKeystrokes : list LocalTyping.Event :=
  [LocalTyping.Keystroke 0; LocalTyping.Keystroke 1000;
   LocalTyping.Keystroke 2000; LocalTyping.RefreshTimeout 10000;
   LocalTyping.PauseTimeout 12000].

(** An unread incoming message with a five-second timer that has not
    started. *)
Definition sampleTimed : MessageAttributes.t :=
  {| MessageAttributes.id := Some "m1";
     MessageAttributes.type := incoming;
     MessageAttributes.conversationId := "05bob";
     MessageAttributes.source := Some "05bob";
     MessageAttributes.body := "hello";
     MessageAttributes.sent_at := Some 100%Z;
     MessageAttributes.received_at := 100%Z;
     MessageAttributes.unread := true;
     MessageAttributes.errors := None;
     MessageAttributes.recipients := None;
     MessageAttributes.sent := false;
     MessageAttributes.sent_to := None;
     MessageAttributes.delivered := None;
     MessageAttributes.delivered_to := None;
     MessageAttributes.read_by := None;
     MessageAttributes.calculatingPoW := false;
     MessageAttributes.expireTimer := Some 5%Z;
     MessageAttributes.expirationStartTimestamp := None;
     MessageAttributes.expires_at := None;
     MessageAttributes.synced := false;
     MessageAttributes.sentSync := false;
     MessageAttributes.sync := false;
     MessageAttributes.groupInvitation := false;
     MessageAttributes.destination := None;
     MessageAttributes.expirationTimerUpdate := None |}.

(** A locale that tells no two titles apart and blocks nobody. *)
Definition sampleLocale : Selectors.Locale :=
  {| Selectors.i18n := fun key => key;
     Selectors.toLowerCase := fun s => s;
     Selectors.compare := fun _ _ => 0%Z;
     Selectors.numberBlocked := fun _ => false;
     Selectors.groupBlocked := fun _ => false |}.

(** The props of an active private conversation. *)
Definition sampleProps (id : string) (timestamp : option Z) (unreadCount : Z)
  : Selectors.ConversationType :=
  {| Selectors.id := id;
     Selectors.name := None;
     Selectors.type := "private";
     Selectors.isPublic := false;
     Selectors.timestamp := timestamp;
     Selectors.activeAt := Some 1%Z;
     Selectors.unreadCount := unreadCount;
     Selectors.isSelected := false;
     Selectors.isBlocked := false;
     Selectors.index := None;
     Selectors.lastMessage := None |}.

(** An open group holding two messages; the first has reached the server
    as message 7, the second has no server id. *)
Definition samplePublicModel : ConversationModel.Model :=
  {| ConversationModel.attributes := samplePublic;
     ConversationModel.typingTimer := None;
     ConversationModel.table :=
       [sampleOutgoing "m1" "publicChat:1@chat.example.org" [];
        sampleOutgoing "m2" "publicChat:1@chat.example.org" []] |}.

Definition sampleToDelete : list PublicMessages.Message :=
  [{| PublicMessages.cid := "c1"; PublicMessages.id := Some "m1";
      PublicMessages.serverId := Some 7%Z |};
   {| PublicMessages.cid := "c2"; PublicMessages.id := Some "m2";
      PublicMessages.serverId := None |}].

(** A server that deletes what it is asked to. *)
Definition sampleChannel (serverIds : list Z)
  : Completion PublicMessages.Deletion :=
  Returned {| PublicMessages.deletedIds := serverIds;
              PublicMessages.ignoredIds := [] |}.

(** * Properties *)

(** Runs a method on a symbolic model: unfolds the monad and the methods,
    evaluates as far as the code is determined and splits on the conditions
    it tests, in program order. *)
Create HintDb async.
#[export] Hint Unfold bind ret get set perform throw call when tryCatch
  final result trace : async.
#[export] Hint Unfold MessageModel.commit MessageModel.uploadData
  MessageModel.newPubKey MessageModel.saveErrors MessageModel.markRead
  MessageModel.removeOutgoingErrors MessageModel.sendSyncMessage
  MessageModel.sendSyncMessageOnly MessageModel.handleMessageSentSuccess
  MessageModel.handleMessageSentFailure MessageModel.setCalculatingPoW
  MessageModel.setToExpire MessageModel.setExpirationStart
  : async.
#[export] Hint Unfold ConversationModel.commit ConversationModel.getUnread
  ConversationModel.getUnreadCount ConversationModel.onMessage
  ConversationModel.notifyTyping ConversationModel.clearContactTypingTimer
  : async.

Ltac run_async :=
  repeat first
    [ progress autounfold with async
    | progress cbv beta iota zeta
    | match goal with
      | |- context [if ?b then _ else _] =>
          let E := fresh "Hcond" in destruct b eqn:E
      end ].

(** The same, splitting also on what each collaborator call answers. *)
Ltac split_calls :=
  repeat first
    [ progress autounfold with async
    | progress cbv beta iota zeta
    | match goal with
      | |- context [if ?b then _ else _] =>
          let E := fresh "Hcond" in destruct b eqn:E
      | |- context [match ?x with Some _ => _ | None => _ end] =>
          let E := fresh "Hcall" in destruct x eqn:E
      end ].

(** ** The listener on the expiration start *)

Lemma setToExpire_run (env : Collaborators) (force : bool)
    (m : MessageAttributes.t) :
  MessageModel.setToExpire env force m
  = if MessageModel.isExpiring m
       && (force || negb (truthyNum (MessageAttributes.expires_at m)))
    then (Returned tt, withDeadline m,
          if truthyOptStr (MessageAttributes.id m)
          then [SaveMessage (withDeadline m); Trigger "change"]
          else [])
    else (Returned tt, m, []).
Proof.
  unfold MessageModel.setToExpire, bind, get. cbv beta iota zeta.
  destruct (MessageModel.isExpiring m
            && (force || negb (truthyNum (MessageAttributes.expires_at m))))
    eqn:Hcond; [| reflexivity].
  apply andb_true_iff in Hcond as [Hexp _].
  unfold MessageModel.isExpiring in Hexp.
  apply andb_true_iff in Hexp as [_ ->]. cbn [negb].
  destruct (truthyOptStr (MessageAttributes.id m)); reflexivity.
Qed.

Lemma setExpirationStart_run (env : Collaborators) (v : option Z)
    (others : MessageAttributes.t -> MessageAttributes.t)
    (m : MessageAttributes.t) :
  let before := MessageAttributes.expirationStartTimestamp m in
  let written := MessageAttributes.set_expirationStartTimestamp v (others m) in
  MessageModel.setExpirationStart env v others m
  = (Returned tt, afterStart before written, listenerTrace before written).
Proof.
  cbv zeta.
  unfold MessageModel.setExpirationStart, bind, get, set, when.
  cbv beta iota zeta.
  unfold afterStart, listenerTrace, restarts.
  cbn [MessageAttributes.expirationStartTimestamp
         MessageAttributes.set_expirationStartTimestamp].
  destruct (bool_decide (MessageAttributes.expirationStartTimestamp m = v));
    cbn [negb andb]; [reflexivity |].
  rewrite setToExpire_run. cbn [orb andb]. rewrite andb_true_r.
  destruct (MessageModel.isExpiring
              (MessageAttributes.set_expirationStartTimestamp v (others m)));
    cbn [andb]; [| reflexivity].
  cbn [MessageAttributes.id MessageAttributes.set_expires_at].
  destruct (truthyOptStr
              (MessageAttributes.id
                 (MessageAttributes.set_expirationStartTimestamp v
                    (others m)))); reflexivity.
Qed.

(** The listener writes [expires_at] and nothing else. *)
Lemma afterStart_cases (before : option Z) (m : MessageAttributes.t) :
  afterStart before m = m \/ afterStart before m = withDeadline m.
Proof. unfold afterStart. destruct (restarts before m); auto. Qed.

(** ** The derived status *)

Lemma nonempty_ltb {A} (l : list A) : Nat.ltb 0 (length l) = true <-> l <> [].
Proof.
  destruct l; simpl; split; intros H; try congruence; try reflexivity.
  discriminate.
Qed.

Lemma empty_ltb {A} (l : list A) : Nat.ltb 0 (length l) = false <-> l = [].
Proof.
  destruct l; simpl; split; intros H; try congruence; try reflexivity.
  discriminate.
Qed.

Lemma hasErrors_true (m : MessageAttributes.t) :
  MessageModel.hasErrors m = true <-> orEmpty (MessageAttributes.errors m) <> [].
Proof. apply nonempty_ltb. Qed.

Lemma hasErrors_false (m : MessageAttributes.t) :
  MessageModel.hasErrors m = false <-> orEmpty (MessageAttributes.errors m) = [].
Proof. apply empty_ltb. Qed.

Lemma isOutgoing_true (m : MessageAttributes.t) :
  MessageModel.isOutgoing m = true <-> MessageAttributes.type m = outgoing.
Proof.
  unfold MessageModel.isOutgoing.
  destruct (MessageAttributes.type m); split; congruence.
Qed.

Lemma isOutgoing_false (m : MessageAttributes.t) :
  MessageModel.isOutgoing m = false <-> MessageAttributes.type m = incoming.
Proof.
  unfold MessageModel.isOutgoing.
  destruct (MessageAttributes.type m); split; congruence.
Qed.

(** Splits on the conditions of [getMessagePropStatus] in the order the code
    tests them, and turns each into a statement about the attributes. *)
Ltac status_cases m :=
  unfold MessageModel.getMessagePropStatus;
  destruct (MessageModel.hasErrors m) eqn:Herrors;
  [ apply hasErrors_true in Herrors
  | apply hasErrors_false in Herrors;
    destruct (MessageModel.isOutgoing m) eqn:Hout;
    [ apply isOutgoing_true in Hout | apply isOutgoing_false in Hout ] ];
  simpl;
  repeat match goal with
    | |- context [if ?b then _ else _] =>
        let E := fresh "Hcond" in destruct b eqn:E
    end;
  repeat match goal with
    | H : _ = true |- _ =>
        progress rewrite ?andb_true_iff, ?orb_true_iff, ?nonempty_ltb in H
    | H : _ = false |- _ =>
        progress rewrite ?andb_false_iff, ?orb_false_iff, ?empty_ltb in H
    | H : _ /\ _ |- _ =>
        progress rewrite ?nonempty_ltb, ?empty_ltb in H
    | H : _ \/ _ |- _ =>
        progress rewrite ?nonempty_ltb, ?empty_ltb in H
    end.

(** C5. The derived status follows a fixed priority. It is ['error'] exactly
    when the errors list is not empty, whatever else is recorded. Without
    errors an incoming message has no status ([null]) and an outgoing one is
    ['read'] when the read-receipt setting is on and [read_by] is not empty,
    else ['delivered'] when the delivered flag or a [delivered_to] recipient
    is recorded, else ['sent'] when the sent flag or a [sent_to] recipient is
    recorded, else ['pow'] while [calculatingPoW], else ['sending']. An
    incoming message never has one of the outbound statuses. *)
Theorem getMessagePropStatus_priority (env : Collaborators)
    (m : MessageAttributes.t) :
  let status := MessageModel.getMessagePropStatus env m in
  let noErrors := orEmpty (MessageAttributes.errors m) = [] in
  let isOut := MessageAttributes.type m = outgoing in
  let isRead :=
    read_receipt_setting env = true
    /\ orEmpty (MessageAttributes.read_by m) <> [] in
  let isDelivered :=
    truthyNum (MessageAttributes.delivered m) = true
    \/ orEmpty (MessageAttributes.delivered_to m) <> [] in
  let isSent :=
    MessageAttributes.sent m = true
    \/ orEmpty (MessageAttributes.sent_to m) <> [] in
  (status = Some "error" <-> ~ noErrors)
  /\ (status = None <-> noErrors /\ MessageAttributes.type m = incoming)
  /\ (status = Some "read" <-> noErrors /\ isOut /\ isRead)
  /\ (status = Some "delivered" <->
        noErrors /\ isOut /\ ~ isRead /\ isDelivered)
  /\ (status = Some "sent" <->
        noErrors /\ isOut /\ ~ isRead /\ ~ isDelivered /\ isSent)
  /\ (status = Some "pow" <->
        noErrors /\ isOut /\ ~ isRead /\ ~ isDelivered /\ ~ isSent
        /\ MessageAttributes.calculatingPoW m = true)
  /\ (status = Some "sending" <->
        noErrors /\ isOut /\ ~ isRead /\ ~ isDelivered /\ ~ isSent
        /\ MessageAttributes.calculatingPoW m = false)
  /\ (MessageAttributes.type m = incoming ->
        status = Some "error" \/ status = None).
Proof.
  cbv zeta.
  status_cases m; intuition (congruence || discriminate).
Qed.

Lemma status_error_iff (env : Collaborators) (m : MessageAttributes.t) :
  MessageModel.getMessagePropStatus env m = Some "error"
  <-> orEmpty (MessageAttributes.errors m) <> [].
Proof. status_cases m; intuition (congruence || discriminate). Qed.

Lemma status_read_iff (env : Collaborators) (m : MessageAttributes.t) :
  MessageModel.getMessagePropStatus env m = Some "read"
  <-> orEmpty (MessageAttributes.errors m) = []
      /\ MessageAttributes.type m = outgoing
      /\ read_receipt_setting env = true
      /\ orEmpty (MessageAttributes.read_by m) <> [].
Proof. status_cases m; intuition (congruence || discriminate). Qed.

(** ** Recording errors *)

Lemma saveErrors_final (env : Collaborators)
    (providedErrors : JsError + list JsError) (m : MessageAttributes.t) :
  final (MessageModel.saveErrors env providedErrors m)
  = MessageAttributes.set_errors
      (Some (map stored (providedList providedErrors)
             ++ orEmpty (MessageAttributes.errors m))) m.
Proof. destruct providedErrors; reflexivity. Qed.

Lemma saveErrors_result (env : Collaborators)
    (providedErrors : JsError + list JsError) (m : MessageAttributes.t) :
  result (MessageModel.saveErrors env providedErrors m) = Returned tt.
Proof. destruct providedErrors; reflexivity. Qed.

Lemma saveErrors_trace (env : Collaborators)
    (providedErrors : JsError + list JsError) (m : MessageAttributes.t) :
  trace (MessageModel.saveErrors env providedErrors m)
  = [SaveMessage (final (MessageModel.saveErrors env providedErrors m));
     Trigger "change"].
Proof. destruct providedErrors; reflexivity. Qed.

(** What [handleMessageSentFailure] leaves of the message when it is given
    an [Error]. *)
Lemma handleMessageSentFailure_final (env : Collaborators)
    (sentMessage : SentMessage) (e : JsError) (now : Z)
    (m : MessageAttributes.t) :
  let isOurDevice :=
    truthyStr (device sentMessage)
    && isUsFromCache env (device sentMessage) in
  let saved := final (MessageModel.saveErrors env (inl e) m) in
  final (MessageModel.handleMessageSentFailure env sentMessage (Some e) now m)
  = afterStart (MessageAttributes.expirationStartTimestamp m)
      (MessageAttributes.set_expirationStartTimestamp (Some now)
         (MessageAttributes.set_sent true
            (if isOurDevice && negb (MessageAttributes.sync m)
             then MessageAttributes.set_sentSync false saved
             else saved))).
Proof.
  cbv zeta. unfold MessageModel.handleMessageSentFailure.
  destruct (bool_decide (e_name e = "OutgoingIdentityKeyError"));
    destruct (truthyStr (device sentMessage)
              && isUsFromCache env (device sentMessage));
    destruct (MessageAttributes.sync m) eqn:Hsync;
    cbn -[MessageModel.setExpirationStart]; rewrite ?Hsync;
    cbn -[MessageModel.setExpirationStart];
    unfold bind; rewrite setExpirationStart_run; reflexivity.
Qed.

(** C2, as the code has it. Recording a delivery failure on a message whose
    derived status is ['read'] moves the status to ['error']: [saveErrors]
    with at least one error, and so [handleMessageSentFailure] with an
    [Error], leave the errors list non-empty, and a non-empty errors list
    overrides the watermark. The failure leaves [read_by], [delivered],
    [delivered_to] and [sent_to] as they were, so the status is ['read']
    again once the errors are cleared (as [retrySend] does with
    [errors: null]). *)
Theorem failure_overrides_read_status (env : Collaborators)
    (m : MessageAttributes.t) (providedErrors : JsError + list JsError)
    (sentMessage : SentMessage) (e : JsError) (now : Z) :
  MessageModel.getMessagePropStatus env m = Some "read" ->
  providedList providedErrors <> [] ->
  let saved := final (MessageModel.saveErrors env providedErrors m) in
  let failed :=
    final (MessageModel.handleMessageSentFailure env sentMessage (Some e)
             now m) in
  (MessageModel.getMessagePropStatus env saved = Some "error"
   /\ MessageAttributes.read_by saved = MessageAttributes.read_by m
   /\ MessageAttributes.delivered saved = MessageAttributes.delivered m
   /\ MessageAttributes.delivered_to saved = MessageAttributes.delivered_to m
   /\ MessageAttributes.sent_to saved = MessageAttributes.sent_to m
   /\ MessageModel.getMessagePropStatus env
        (MessageAttributes.set_errors None saved) = Some "read")
  /\ (MessageModel.getMessagePropStatus env failed = Some "error"
      /\ MessageAttributes.read_by failed = MessageAttributes.read_by m
      /\ MessageAttributes.delivered failed = MessageAttributes.delivered m
      /\ MessageAttributes.delivered_to failed
         = MessageAttributes.delivered_to m
      /\ MessageAttributes.sent_to failed = MessageAttributes.sent_to m
      /\ MessageModel.getMessagePropStatus env
           (MessageAttributes.set_errors None failed) = Some "read").
Proof.
  intros Hread Hprovided. cbv zeta.
  apply status_read_iff in Hread. destruct Hread as (Herr & Hout & Hset & Hby).
  split.
  - rewrite saveErrors_final.
    split.
    { apply status_error_iff. simpl.
      destruct (providedList providedErrors); [congruence | discriminate]. }
    repeat (split; [reflexivity |]).
    apply status_read_iff. simpl. auto.
  - rewrite handleMessageSentFailure_final. cbv zeta. rewrite saveErrors_final.
    destruct (truthyStr (device sentMessage)
              && isUsFromCache env (device sentMessage)
              && negb (MessageAttributes.sync m));
      match goal with
      | |- context [afterStart ?b ?x] =>
          destruct (afterStart_cases b x) as [-> | ->]
      end;
      (split; [apply status_error_iff; simpl; discriminate |]);
      (repeat (split; [reflexivity |]));
      apply status_read_iff; simpl; auto.
Qed.

(** The claim of C2 fails on a message read by its recipient: a delivery
    failure recorded for another recipient turns ['read'] into ['error']. *)
Lemma failure_after_read_is_error :
  MessageModel.getMessagePropStatus sampleEnv sampleRead = Some "read"
  /\ MessageModel.getMessagePropStatus sampleEnv
       (final (MessageModel.handleMessageSentFailure sampleEnv
                 (sampleSentMessage "05bob")
                 (Some (sampleNetworkError "05bob")) 2000 sampleRead))
     = Some "error".
Proof. split; reflexivity. Qed.

(** The theorem on the message read by one recipient of two. *)
Lemma failure_overrides_read_status_witness :
  MessageModel.getMessagePropStatus sampleEnv sampleRead = Some "read"
  /\ MessageModel.getMessagePropStatus sampleEnv
       (final (MessageModel.saveErrors sampleEnv
                 (inl (sampleNetworkError "05bob")) sampleRead))
     = Some "error"
  /\ MessageModel.getMessagePropStatus sampleEnv
       (MessageAttributes.set_errors None
          (final (MessageModel.saveErrors sampleEnv
                    (inl (sampleNetworkError "05bob")) sampleRead)))
     = Some "read".
Proof.
  split; [reflexivity |].
  destruct (failure_overrides_read_status sampleEnv sampleRead
              (inl (sampleNetworkError "05bob")) (sampleSentMessage "05bob")
              (sampleNetworkError "05bob") 2000)
    as [(Herror & _ & _ & _ & _ & Hread) _];
    [reflexivity | discriminate |].
  split; [exact Herror | exact Hread].
Defined.

(** ** Delivery success *)

Lemma handleMessageSentSuccess_marks_sent (env : Collaborators)
    (sentMessage : SentMessage) (wrappedEnvelope : bool) (now : Z)
    (m : MessageAttributes.t) :
  markedSent m
    (MessageModel.handleMessageSentSuccess env sentMessage wrappedEnvelope
       now m).
Proof. run_async; unfold markedSent; simpl; repeat split; reflexivity. Qed.

(** X2. A delivery success never lowers the derived status: after
    [handleMessageSentSuccess] a message that was ['error'], without status,
    ['read'] or ['delivered'] is what it was, and a message that was
    ['sent'], ['pow'] or ['sending'] is ['sent']. *)
Theorem handleMessageSentSuccess_keeps_watermark (env : Collaborators)
    (sentMessage : SentMessage) (wrappedEnvelope : bool) (now : Z)
    (m : MessageAttributes.t) :
  let m' :=
    final (MessageModel.handleMessageSentSuccess env sentMessage
             wrappedEnvelope now m) in
  let before := MessageModel.getMessagePropStatus env m in
  MessageModel.getMessagePropStatus env m'
  = if bool_decide (before = Some "error") then Some "error"
    else if bool_decide (before = None) then None
    else if bool_decide (before = Some "read") then Some "read"
    else if bool_decide (before = Some "delivered") then Some "delivered"
    else Some "sent".
Proof.
  cbv zeta.
  destruct (handleMessageSentSuccess_marks_sent env sentMessage
              wrappedEnvelope now m) as (He & Ht & Hr & Hd & Hdt & Hs).
  remember (final (MessageModel.handleMessageSentSuccess env sentMessage
                     wrappedEnvelope now m)) as m'.
  clear Heqm'.
  unfold MessageModel.getMessagePropStatus, MessageModel.hasErrors,
    MessageModel.isOutgoing.
  rewrite He, Ht, Hr, Hd, Hdt, Hs. cbn [orb].
  repeat match goal with
    | |- context [if ?b then _ else _] =>
        lazymatch b with
        | bool_decide _ => fail
        | _ => destruct b
        end
    | |- context [match ?x with incoming => _ | outgoing => _ end] =>
        destruct x
    end; reflexivity.
Qed.

(** ** Expiration start *)

Lemma handleMessageSentSuccess_start (env : Collaborators)
    (sentMessage : SentMessage) (wrappedEnvelope : bool) (now : Z)
    (m : MessageAttributes.t) :
  MessageAttributes.expirationStartTimestamp
    (final (MessageModel.handleMessageSentSuccess env sentMessage
              wrappedEnvelope now m))
  = Some now.
Proof. run_async; reflexivity. Qed.

(** X3. [markRead] of a message starts the expiration only for a message
    with a timer whose expiration has not started, at the earlier of the
    current time and [readAt]; otherwise it leaves the start as it is. *)
Lemma markRead_start (env : Collaborators) (readAt : option Z) (now : Z)
    (m : MessageAttributes.t) :
  MessageAttributes.expirationStartTimestamp
    (final (MessageModel.markRead env readAt now m))
  = if truthyNum (MessageAttributes.expireTimer m)
       && negb (truthyNum (MessageAttributes.expirationStartTimestamp m))
    then Some (Z.min now (if truthyNum readAt then default now readAt else now))
    else MessageAttributes.expirationStartTimestamp m.
Proof.
  unfold MessageModel.markRead, final, bind, get, set, perform, ret, when,
    MessageModel.commit.
  simpl.
  destruct (truthyNum (MessageAttributes.expireTimer m)
            && negb (truthyNum (MessageAttributes.expirationStartTimestamp m)));
    [| reflexivity].
  rewrite setExpirationStart_run. cbv zeta.
  match goal with
  | |- context [afterStart ?b ?x] =>
      destruct (afterStart_cases b x) as [-> | ->]
  end; reflexivity.
Qed.

(** C3, at the failing input. A message with a five-second timer is sent to
    a group of two. The delivery callback runs once per device:
    [handleMessageSentSuccess] at time 1000 for the first sets
    [expirationStartTimestamp] to 1000, and the same callback at time 2000
    for the second overwrites it with 2000; [handleMessageSentFailure] does
    the same. [markRead] on the incoming side keeps a start that is set. *)
Lemma handleMessageSentSuccess_restarts_expiration :
  let m := sampleOutgoing "m1" "group-1" ["05alice"; "05bob"] in
  let m1 :=
    final (MessageModel.handleMessageSentSuccess sampleEnv
             (sampleSentMessage "05alice") true 1000 m) in
  let m2 :=
    final (MessageModel.handleMessageSentSuccess sampleEnv
             (sampleSentMessage "05bob") true 2000 m1) in
  let m3 :=
    final (MessageModel.handleMessageSentFailure sampleEnv
             (sampleSentMessage "05bob")
             (Some (sampleNetworkError "05bob")) 3000 m1) in
  MessageAttributes.expireTimer m = Some 5%Z
  /\ MessageAttributes.expirationStartTimestamp m1 = Some 1000%Z
  /\ MessageAttributes.expirationStartTimestamp m2 = Some 2000%Z
  /\ MessageAttributes.expirationStartTimestamp m3 = Some 3000%Z
  /\ MessageAttributes.expirationStartTimestamp
       (final (MessageModel.markRead sampleEnv None 4000 m1))
     = Some 1000%Z.
Proof. repeat split; reflexivity. Qed.

(** ** resend *)

Lemma removeOutgoingErrors_run (number : string) (m : MessageAttributes.t) :
  MessageModel.removeOutgoingErrors number m
  = (Returned
       (head (List.filter (MessageModel.isOutgoingError number)
                (orEmpty (MessageAttributes.errors m)))),
     MessageAttributes.set_errors
       (Some (List.filter
                (fun e => negb (MessageModel.isOutgoingError number e))
                (orEmpty (MessageAttributes.errors m)))) m,
     []).
Proof. run_async. rewrite List.partition_as_filter. reflexivity. Qed.

Lemma filter_none_keeps_all {A} (f : A -> bool) (l : list A) :
  List.filter f l = [] -> List.filter (fun x => negb (f x)) l = l.
Proof.
  induction l as [|x l IH]; simpl; [reflexivity |].
  destruct (f x); simpl; [discriminate |].
  intros H. f_equal. auto.
Qed.

Lemma isOutgoingError_iff (number : string) (e : JsError) :
  MessageModel.isOutgoingError number e = true
  <-> e_number e = Some number
      /\ (e_name e = "MessageError"
          \/ e_name e = "SendMessageNetworkError"
          \/ e_name e = "OutgoingIdentityKeyError").
Proof.
  unfold MessageModel.isOutgoingError.
  rewrite andb_true_iff, !orb_true_iff, !bool_decide_eq_true. tauto.
Qed.

(** What [sendSyncMessageOnly] leaves: the message is sent to us at [now],
    and nothing is handed to the delivery gateway. *)
Lemma sendSyncMessageOnly_run (env : Collaborators) (now : Z)
    (m : MessageAttributes.t) :
  let r := MessageModel.sendSyncMessageOnly env now m in
  result r = Returned tt
  /\ dispatches (trace r) = []
  /\ MessageAttributes.sent_to (final r)
     = Some [getOurPubKeyStrFromCache env]
  /\ MessageAttributes.sent (final r) = true
  /\ MessageAttributes.expirationStartTimestamp (final r) = Some now
  /\ MessageAttributes.errors (final r) = MessageAttributes.errors m.
Proof. cbv zeta. run_async; repeat split; reflexivity. Qed.

(** C10. [removeOutgoingErrors] takes out of the errors list exactly the
    errors whose [number] is the recipient and whose [name] is
    ['MessageError'], ['SendMessageNetworkError'] or
    ['OutgoingIdentityKeyError'], and hands back the first of them. When
    there is none, whatever else is recorded for that recipient, [resend]
    resolves with [null], has no effect at all (no upload, no dispatch), and
    the errors list holds what it held. In every run [resend] dispatches to
    that recipient only, and only when such an error was recorded; the
    errors it did not take out stay in place, in order, below an error the
    retry itself may record. When such an error was recorded [resend]
    retries: it uploads the message first; when the upload or the key of
    the recipient fails it resolves with [null] and records that failure;
    for our own device it dispatches nothing and marks the message as sent
    to us; to anybody else it dispatches once, the chat message in a private
    conversation and the same wrapped for the group otherwise, and settles
    as that dispatch does. *)
Theorem resend_only_outgoing_errors (env : Collaborators)
    (conversation : ConversationAttributes.t) (number : string) (now : Z)
    (m : MessageAttributes.t) :
  let old := orEmpty (MessageAttributes.errors m) in
  let isMatch := MessageModel.isOutgoingError number in
  let kept := List.filter (fun e => negb (isMatch e)) old in
  let removal := MessageModel.removeOutgoingErrors number m in
  let r := MessageModel.resend env conversation number now m in
  let retried := MessageAttributes.set_errors (Some kept) m in
  let chatMessage :=
    ChatMessage (MessageAttributes.id m) (MessageModel.sentAtOr now m)
      (jsNum (MessageAttributes.expireTimer m)) in
  let payload :=
    if ConversationQueries.isPrivate conversation then chatMessage
    else ClosedGroupChatMessage None (MessageAttributes.conversationId m)
           chatMessage in
  (forall e, isMatch e = true
             <-> e_number e = Some number
                 /\ (e_name e = "MessageError"
                     \/ e_name e = "SendMessageNetworkError"
                     \/ e_name e = "OutgoingIdentityKeyError"))
  /\ MessageAttributes.errors (final removal) = Some kept
  /\ result removal = Returned (head (List.filter isMatch old))
  /\ (List.filter isMatch old = [] ->
      result r = Returned RetNull /\ trace r = []
      /\ MessageAttributes.errors (final r) = Some old)
  /\ (forall eff, eff ∈ dispatches (trace r) ->
      List.filter isMatch old <> []
      /\ exists payload, eff = SendToPubKey number payload)
  /\ (exists added, MessageAttributes.errors (final r) = Some (added ++ kept))
  /\ (List.filter isMatch old <> [] ->
      (exists t, trace r = UploadData (MessageAttributes.id m) :: t)
      /\ (forall e, uploadFails env retried = Some e ->
            result r = Returned RetNull
            /\ dispatches (trace r) = []
            /\ MessageAttributes.errors (final r) = Some (stored e :: kept))
      /\ (uploadFails env retried = None ->
          if isUsFromCache env number
          then result r = Returned RetUndefined
               /\ dispatches (trace r) = []
               /\ MessageAttributes.sent_to (final r)
                  = Some [getOurPubKeyStrFromCache env]
               /\ MessageAttributes.sent (final r) = true
               /\ MessageAttributes.expirationStartTimestamp (final r)
                  = Some now
               /\ MessageAttributes.errors (final r) = Some kept
          else
            match pubKeyFails env number with
            | Some e =>
                result r = Returned RetNull
                /\ dispatches (trace r) = []
                /\ MessageAttributes.errors (final r)
                   = Some (stored e :: kept)
            | None =>
                dispatches (trace r) = [SendToPubKey number payload]
                /\ MessageAttributes.errors (final r) = Some kept
                /\ result r
                   = match sendToPubKeyFails env number payload with
                     | Some e => Thrown e
                     | None => Returned RetUndefined
                     end
            end)).
Proof.
  cbv zeta.
  split; [intros e; apply isOutgoingError_iff |].
  split; [rewrite removeOutgoingErrors_run; reflexivity |].
  split; [rewrite removeOutgoingErrors_run; reflexivity |].
  remember (MessageModel.resend env conversation number now m) as r eqn:Hr.
  unfold MessageModel.resend in Hr. unfold bind at 1 in Hr.
  rewrite removeOutgoingErrors_run in Hr.
  destruct (List.filter (MessageModel.isOutgoingError number)
              (orEmpty (MessageAttributes.errors m))) as [| e0 rest] eqn:Hmatch.
  { cbn in Hr. subst r. cbn.
    rewrite (filter_none_keeps_all _ _ Hmatch).
    split; [auto |].
    split; [intros eff Hin; apply elem_of_nil in Hin; contradiction |].
    split; [exists []; reflexivity | intros H; congruence]. }
  cbn [head] in Hr. cbv beta iota zeta in Hr.
  unfold tryCatch, MessageModel.uploadData, call in Hr.
  unfold bind at 1 in Hr. unfold bind at 1 in Hr. unfold get at 1 in Hr.
  cbv beta iota zeta in Hr. unfold bind at 1 in Hr. unfold perform at 1 in Hr.
  cbv beta iota zeta in Hr.
  cbn [MessageAttributes.id MessageAttributes.set_errors] in Hr.
  split; [discriminate |].
  destruct (uploadFails env
              (MessageAttributes.set_errors
                 (Some (List.filter
                          (fun e => negb (MessageModel.isOutgoingError number e))
                          (orEmpty (MessageAttributes.errors m)))) m))
    as [eu |] eqn:Hup.
  { cbn in Hr. subst r. cbn.
    split; [intros eff Hin; apply elem_of_nil in Hin; contradiction |].
    split; [eexists [_]; reflexivity |].
    intros _. split; [eexists; reflexivity |].
    split; [| discriminate].
    intros e [= <-]. repeat split; reflexivity. }
  unfold ret at 1 in Hr. cbv beta iota zeta in Hr.
  unfold bind at 1 in Hr. unfold get at 1 in Hr. cbv beta iota zeta in Hr.
  destruct (isUsFromCache env number) eqn:Hus.
  { unfold ret at 1 in Hr. cbv beta iota zeta in Hr.
    unfold bind at 1 in Hr.
    destruct (sendSyncMessageOnly_run env now
                (MessageAttributes.set_errors
                   (Some (List.filter
                            (fun e =>
                               negb (MessageModel.isOutgoingError number e))
                            (orEmpty (MessageAttributes.errors m)))) m))
      as (Hres & Hdisp & Hto & Hsent & Hstart & Herrors).
    unfold result, final, trace in Hres, Hdisp, Hto, Hsent, Hstart, Herrors.
    destruct (MessageModel.sendSyncMessageOnly env now _) as [[r0 s0] t0].
    cbn [fst snd] in *. subst r0. cbn in Hr. subst r.
    unfold result, final, trace. cbn [fst snd app].
    rewrite app_nil_r.
    split.
    { intros eff Hin.
      change (dispatches (_ :: t0)) with (dispatches t0) in Hin.
      rewrite Hdisp in Hin. apply elem_of_nil in Hin. contradiction. }
    split; [exists []; rewrite Herrors; reflexivity |].
    intros _. split; [eexists; reflexivity |].
    split; [discriminate |].
    intros _. change (dispatches (_ :: t0)) with (dispatches t0).
    rewrite Hdisp, Herrors. repeat split; assumption. }
  unfold MessageModel.newPubKey in Hr. unfold bind at 1 in Hr.
  destruct (pubKeyFails env number) as [ek |] eqn:Hkey.
  { cbn in Hr. subst r. cbn.
    split; [intros eff Hin; apply elem_of_nil in Hin; contradiction |].
    split; [eexists [_]; reflexivity |].
    intros _. split; [eexists; reflexivity |].
    split; [discriminate |].
    intros _. repeat split; reflexivity. }
  unfold ret at 1 in Hr. cbv beta iota zeta in Hr.
  destruct (ConversationQueries.isPrivate conversation) eqn:Hprivate;
    unfold ret at 1 in Hr; cbv beta iota zeta in Hr;
    unfold call, bind, perform in Hr; cbv beta iota zeta in Hr;
    cbn [MessageAttributes.id MessageAttributes.set_errors
           MessageAttributes.expireTimer MessageAttributes.conversationId]
      in Hr;
    change (MessageModel.sentAtOr now
              (MessageAttributes.set_errors
                 (Some (List.filter
                          (fun e => negb (MessageModel.isOutgoingError number e))
                          (orEmpty (MessageAttributes.errors m)))) m))
      with (MessageModel.sentAtOr now m) in Hr;
    match type of Hr with
    | context [sendToPubKeyFails ?e ?a ?b] =>
        destruct (sendToPubKeyFails e a b) eqn:Hsend
    end;
    cbn in Hr; subst r; cbn;
    (split;
     [ intros eff Hin; apply list_elem_of_singleton in Hin; subst eff;
       split; [discriminate | eauto] |]);
    (split; [exists []; reflexivity |]);
    intros _; (split; [eexists; reflexivity |]);
    (split; [discriminate |]);
    intros _; repeat split; reflexivity.
Qed.

(** A message of a private conversation with a network error and an error
    of another kind recorded for the peer: [resend] retries once, to the
    peer, and leaves the other error. With only the other error recorded
    [resend] does nothing. *)
Example resend_retries_the_outgoing_error :
  let conversation := sampleConversation "05bob" "private" [] in
  let m :=
    MessageAttributes.set_errors
      (Some [sampleNetworkError "05bob"; sampleOtherError "05bob"])
      (sampleOutgoing "m1" "05bob" ["05bob"]) in
  let r := MessageModel.resend sampleEnv conversation "05bob" 2000 m in
  dispatchedTo (trace r) = ["05bob"]
  /\ MessageAttributes.errors (final r) = Some [sampleOtherError "05bob"].
Proof. split; reflexivity. Qed.

Example resend_ignores_other_errors :
  let conversation := sampleConversation "05bob" "private" [] in
  let m :=
    MessageAttributes.set_errors (Some [sampleOtherError "05bob"])
      (sampleOutgoing "m1" "05bob" ["05bob"]) in
  let r := MessageModel.resend sampleEnv conversation "05bob" 2000 m in
  result r = Returned RetNull /\ trace r = []
  /\ MessageAttributes.errors (final r) = Some [sampleOtherError "05bob"].
Proof. repeat split; reflexivity. Qed.

(** ** retrySend *)

Lemma elem_of_uniqFrom (seen l : list string) (x : string) :
  x ∈ uniqFrom seen l <-> x ∈ l /\ x ∉ seen.
Proof.
  revert seen. induction l as [|y l IH]; intros seen; simpl.
  - split; [intros H; inversion H | intros [H _]; inversion H].
  - case_bool_decide as Hy.
    + rewrite IH, elem_of_cons. split.
      * intros [? ?]. auto.
      * intros [[-> | ?] ?]; [contradiction | auto].
    + rewrite !elem_of_cons, IH, elem_of_cons. split.
      * intros [-> | [? ?]]; [auto | ]. split; [auto | tauto].
      * intros [[-> | ?] ?]; [auto |].
        destruct (decide (x = y)); [auto | right; tauto].
Qed.

Lemma elem_of_uniq (l : list string) (x : string) : x ∈ uniq l <-> x ∈ l.
Proof.
  unfold uniq. rewrite elem_of_uniqFrom. split; [tauto |].
  intros H. split; [exact H | apply not_elem_of_nil].
Qed.

Lemma NoDup_uniqFrom (seen l : list string) : NoDup (uniqFrom seen l).
Proof.
  revert seen. induction l as [|y l IH]; intros seen; simpl.
  - constructor.
  - case_bool_decide; [apply IH |].
    constructor; [| apply IH].
    rewrite elem_of_uniqFrom, elem_of_cons. tauto.
Qed.

Lemma elem_of_outstanding (env : Collaborators)
    (conversation : ConversationAttributes.t) (m : MessageAttributes.t)
    (key : string) :
  key ∈ MessageModel.outstanding env conversation m
  <-> key ∈ orEmpty (MessageAttributes.recipients m)
      /\ key ∈ ConversationQueries.getRecipients env conversation
      /\ key ∉ orEmpty (MessageAttributes.sent_to m).
Proof.
  unfold MessageModel.outstanding, intersection.
  rewrite list_elem_of_filter, elem_of_uniq, list_elem_of_filter. tauto.
Qed.

Lemma NoDup_outstanding (env : Collaborators)
    (conversation : ConversationAttributes.t) (m : MessageAttributes.t) :
  NoDup (MessageModel.outstanding env conversation m).
Proof.
  unfold MessageModel.outstanding, intersection, uniq.
  apply NoDup_filter, NoDup_uniqFrom.
Qed.

Lemma promiseAll_cons_trace {S A} (f : A -> Async S unit) (x : A)
    (l : list A) (s : S) :
  trace (promiseAll f (x :: l) s)
  = trace (f x s) ++ trace (promiseAll f l (final (f x s))).
Proof.
  simpl. unfold trace, final.
  destruct (f x s) as [[r s'] t]. simpl.
  destruct (promiseAll f l s') as [[r' s''] t']. reflexivity.
Qed.

Lemma dispatches_app (t t' : list Effect) :
  dispatches (t ++ t') = dispatches t ++ dispatches t'.
Proof. apply List.filter_app. Qed.

(** The dispatches of the partial group send of [retrySend]. *)
Lemma promiseAll_dispatches (env : Collaborators) (payload : Payload)
    (l : list string) (s : MessageAttributes.t) (eff : Effect) :
  eff ∈ dispatches
          (trace (promiseAll
                    (fun r =>
                       MessageModel.newPubKey env r ;;
                       call (SendToPubKey r payload)
                         (sendToPubKeyFails env r payload)) l s)) ->
  exists k, eff = SendToPubKey k payload /\ k ∈ l.
Proof.
  revert s. induction l as [|x l IH]; intros s.
  - intros H. inversion H.
  - rewrite promiseAll_cons_trace, dispatches_app, elem_of_app.
    intros [H | H].
    + exists x. split; [| apply elem_of_cons; auto].
      revert H. split_calls; simpl; intros H;
        first [ apply elem_of_nil in H; contradiction
              | apply list_elem_of_singleton in H; exact H ].
    + destruct (IH _ H) as (k & -> & Hk).
      exists k. split; [reflexivity | apply elem_of_cons; auto].
Qed.

Lemma head_elem_of (l : list string) :
  Nat.eqb (length l) 0 = false -> default "" (head l) ∈ l.
Proof. destruct l; simpl; [discriminate | intros _; apply elem_of_cons; auto]. Qed.

Lemma dispatchedTo_app (t t' : list Effect) :
  dispatchedTo (t ++ t') = dispatchedTo t ++ dispatchedTo t'.
Proof.
  induction t as [| eff t IH]; simpl; [reflexivity |].
  destruct eff; simpl; rewrite IH; reflexivity.
Qed.

(** When each callback dispatches to the recipient it is given, and to
    nobody else, [Promise.all] over the recipients reaches each of them, in
    order. *)
Lemma promiseAll_dispatchedTo (f : string -> Async MessageAttributes.t unit)
    (l : list string) (s : MessageAttributes.t) :
  (forall k s', k ∈ l -> dispatchedTo (trace (f k s')) = [k]) ->
  dispatchedTo (trace (promiseAll f l s)) = l.
Proof.
  revert s. induction l as [| x l IH]; intros s Hf; [reflexivity |].
  rewrite promiseAll_cons_trace, dispatchedTo_app.
  rewrite IH by (intros k s' Hk; apply Hf, elem_of_cons; auto).
  rewrite Hf by (apply elem_of_cons; auto). reflexivity.
Qed.

Lemma promiseAll_no_upload {S A} (f : A -> Async S unit) (l : list A)
    (s : S) :
  (forall x s', List.filter isUpload (trace (f x s')) = []) ->
  List.filter isUpload (trace (promiseAll f l s)) = [].
Proof.
  intros Hf. revert s. induction l as [| x l IH]; intros s; [reflexivity |].
  rewrite promiseAll_cons_trace, List.filter_app, Hf, IH. reflexivity.
Qed.

(** In a private conversation the only recipient there can be is the
    peer. *)
Lemma outstanding_private (env : Collaborators)
    (conversation : ConversationAttributes.t) (m : MessageAttributes.t) :
  ConversationQueries.isPrivate conversation = true ->
  MessageModel.outstanding env conversation m <> [] ->
  MessageModel.outstanding env conversation m
  = [ConversationAttributes.id conversation].
Proof.
  intros Hprivate Hsome.
  pose proof (NoDup_outstanding env conversation m) as Hnd.
  assert (Hall : forall k, k ∈ MessageModel.outstanding env conversation m ->
                           k = ConversationAttributes.id conversation).
  { intros k Hk. apply elem_of_outstanding in Hk as (_ & Hk & _).
    unfold ConversationQueries.getRecipients in Hk. rewrite Hprivate in Hk.
    apply list_elem_of_singleton in Hk. exact Hk. }
  destruct (MessageModel.outstanding env conversation m) as [| a [| b l]];
    [congruence | |].
  - rewrite (Hall a) by (apply elem_of_cons; auto). reflexivity.
  - exfalso. apply NoDup_cons in Hnd as [Hnotin _]. apply Hnotin.
    rewrite (Hall a) by (apply elem_of_cons; auto).
    rewrite (Hall b) by (apply elem_of_cons; right; apply elem_of_cons; auto).
    apply elem_of_cons. auto.
Qed.

(** A retry that goes through, outside an open group and not the lone
    retry to our own device, uploads the message and dispatches to every
    outstanding recipient, once each, in order. *)
Lemma retrySend_reaches (env : Collaborators)
    (conversation : ConversationAttributes.t) (now : Z)
    (m : MessageAttributes.t) :
  let recipients := MessageModel.outstanding env conversation m in
  let r := MessageModel.retrySend env conversation now m in
  messaging env = true ->
  ConversationQueries.isPublic conversation = false ->
  recipients <> [] ->
  uploadFails env (MessageAttributes.set_errors None m) = None ->
  (forall k, k ∈ recipients -> pubKeyFails env k = None) ->
  (Nat.eqb (length recipients) 1
   && isUsFromCache env (default "" (head recipients))) = false ->
  dispatchedTo (trace r) = recipients
  /\ List.filter isUpload (trace r) = [UploadData (MessageAttributes.id m)].
Proof.
  cbv zeta. intros Honline Hpublic Hsome Hupload Hkeys Hself.
  destruct (ConversationQueries.isPrivate conversation) eqn:Hprivate.
  - pose proof (outstanding_private env conversation m Hprivate Hsome) as Hone.
    rewrite Hone in Hkeys, Hself |- *.
    assert (Hkey : pubKeyFails env (ConversationAttributes.id conversation)
                   = None) by (apply Hkeys, elem_of_cons; auto).
    cbn in Hself.
    change (MessageModel.outstanding env conversation m)
      with (MessageModel.outstanding env conversation
              (MessageAttributes.set_errors None m)) in Hone.
    unfold MessageModel.retrySend.
    split_calls; rewrite ?Honline, ?Hpublic, ?Hprivate in *; simpl in *;
      try congruence.
    all: rewrite ?Hone in *; simpl in *; try congruence.
    all: split; reflexivity.
  - change (MessageModel.outstanding env conversation m)
      with (MessageModel.outstanding env conversation
              (MessageAttributes.set_errors None m)) in *.
    unfold MessageModel.retrySend.
    split_calls; rewrite ?Honline, ?Hpublic, ?Hprivate in *; simpl in *;
      try congruence.
    all: try match goal with
      | H : Nat.eqb (length ?l) 0 = true |- _ =>
          destruct l; [congruence | discriminate]
      end.
    all: match goal with
      | |- context [promiseAll ?f ?l ?s] =>
          assert (Hall : dispatchedTo (trace (promiseAll f l s)) = l
                         /\ List.filter isUpload (trace (promiseAll f l s))
                            = []);
          [ split;
            [ apply promiseAll_dispatchedTo; intros k s' Hk;
              rewrite (Hkeys k Hk);
              match goal with
              | |- context [sendToPubKeyFails ?e ?a ?b] =>
                  destruct (sendToPubKeyFails e a b)
              end; reflexivity
            | apply promiseAll_no_upload; intros k s';
              destruct (pubKeyFails env k); [reflexivity |];
              match goal with
              | |- context [sendToPubKeyFails ?e ?a ?b] =>
                  destruct (sendToPubKeyFails e a b)
              end; reflexivity ]
          | destruct (promiseAll f l s) as [[ra sa] ta] ]
      end.
    all: unfold trace in Hall; simpl in Hall; destruct Hall as [Hto Hup].
    all: destruct ra; simpl; rewrite ?app_nil_r, ?List.filter_app, ?Hup;
      split; first [exact Hto | reflexivity].
Qed.

(** The lone retry to our own device dispatches nothing: the message is
    uploaded and marked as sent to us. *)
Lemma retrySend_self (env : Collaborators)
    (conversation : ConversationAttributes.t) (now : Z)
    (m : MessageAttributes.t) :
  let recipients := MessageModel.outstanding env conversation m in
  let r := MessageModel.retrySend env conversation now m in
  messaging env = true ->
  ConversationQueries.isPublic conversation = false ->
  uploadFails env (MessageAttributes.set_errors None m) = None ->
  (Nat.eqb (length recipients) 1
   && isUsFromCache env (default "" (head recipients))) = true ->
  dispatches (trace r) = []
  /\ List.filter isUpload (trace r) = [UploadData (MessageAttributes.id m)]
  /\ MessageAttributes.sent_to (final r)
     = Some [getOurPubKeyStrFromCache env].
Proof.
  cbv zeta. intros Honline Hpublic Hupload Hself.
  change (MessageModel.outstanding env conversation m)
    with (MessageModel.outstanding env conversation
            (MessageAttributes.set_errors None m)) in *.
  unfold MessageModel.retrySend.
  split_calls; rewrite ?Honline, ?Hpublic in *; simpl in *; try congruence.
  all: try match goal with
    | H : Nat.eqb (length ?l) 0 = true, H' : Nat.eqb (length ?l) 1 && _ = true
      |- _ => destruct l; discriminate
    end.
  all: repeat split; reflexivity.
Qed.

(** In an open group a retry uploads the message, once. *)
Lemma retrySend_public_uploads (env : Collaborators)
    (conversation : ConversationAttributes.t) (now : Z)
    (m : MessageAttributes.t) :
  messaging env = true ->
  ConversationQueries.isPublic conversation = true ->
  List.filter isUpload (trace (MessageModel.retrySend env conversation now m))
  = [UploadData (MessageAttributes.id m)].
Proof.
  intros Honline Hpublic. unfold MessageModel.retrySend.
  rewrite Honline, Hpublic. cbn [negb].
  split_calls; reflexivity.
Qed.

(** C6, as the code has it. The outstanding recipients are the intended
    recipients that are still recipients of the conversation and are not in
    [sent_to]. In a conversation that is not public, [retrySend] dispatches
    to outstanding recipients only, so never to one in [sent_to]; when
    nobody is outstanding it uploads and dispatches nothing and, online,
    only clears the errors and commits. In a public conversation it uploads
    the message and hands one open-group message to the group, whoever is
    outstanding. Offline it does nothing at all. Outside a public
    conversation a retry that goes through uploads the message and reaches
    every outstanding recipient, once each, in order; the lone retry to our
    own device dispatches nothing and marks the message as sent to us. *)
Theorem retrySend_dispatches_outstanding (env : Collaborators)
    (conversation : ConversationAttributes.t) (now : Z)
    (m : MessageAttributes.t) :
  let r := MessageModel.retrySend env conversation now m in
  let recipients := MessageModel.outstanding env conversation m in
  let openGroupMessage :=
    OpenGroupMessage (MessageAttributes.id m) now
      (ConversationAttributes.id conversation) in
  (forall key,
      key ∈ recipients
      <-> key ∈ orEmpty (MessageAttributes.recipients m)
          /\ key ∈ ConversationQueries.getRecipients env conversation
          /\ key ∉ orEmpty (MessageAttributes.sent_to m))
  /\ (ConversationQueries.isPublic conversation = false ->
      (forall eff, eff ∈ dispatches (trace r) ->
         exists key payload,
           eff = SendToPubKey key payload /\ key ∈ recipients)
      /\ (recipients = [] ->
          List.filter isUpload (trace r) = []
          /\ dispatches (trace r) = []
          /\ (messaging env = true ->
              result r = Returned (RetId (default (generateUUID env)
                                            (MessageAttributes.id m)))
              /\ final r = MessageAttributes.set_errors None m
              /\ trace r = [SaveMessage (MessageAttributes.set_errors None m);
                            Trigger "change";
                            SaveMessage (MessageAttributes.set_errors None m);
                            Trigger "change"])))
  /\ (ConversationQueries.isPublic conversation = true ->
      (forall eff, eff ∈ dispatches (trace r) ->
         eff = SendToGroup openGroupMessage)
      /\ (messaging env = true ->
          uploadFails env (MessageAttributes.set_errors None m) = None ->
          dispatches (trace r) = [SendToGroup openGroupMessage]))
  /\ (messaging env = false -> result r = Returned RetNull /\ trace r = []
                               /\ final r = m)
  /\ (ConversationQueries.isPublic conversation = true ->
      messaging env = true ->
      List.filter isUpload (trace r) = [UploadData (MessageAttributes.id m)])
  /\ (ConversationQueries.isPublic conversation = false ->
      messaging env = true ->
      recipients <> [] ->
      uploadFails env (MessageAttributes.set_errors None m) = None ->
      (forall k, k ∈ recipients -> pubKeyFails env k = None) ->
      List.filter isUpload (trace r) = [UploadData (MessageAttributes.id m)]
      /\ if Nat.eqb (length recipients) 1
            && isUsFromCache env (default "" (head recipients))
         then dispatches (trace r) = []
              /\ MessageAttributes.sent_to (final r)
                 = Some [getOurPubKeyStrFromCache env]
         else dispatchedTo (trace r) = recipients).
Proof.
  cbv zeta.
  match goal with
  | |- ?A /\ ?B /\ ?C /\ ?D /\ _ =>
      enough (Hlimits : A /\ B /\ C /\ D)
  end.
  { destruct Hlimits as (HA & HB & HC & HD).
    split; [exact HA |]. split; [exact HB |]. split; [exact HC |].
    split; [exact HD |]. split.
    - intros Hpublic Honline.
      exact (retrySend_public_uploads env conversation now m Honline Hpublic).
    - intros Hpublic Honline Hsome Hupload Hkeys.
      destruct (Nat.eqb (length (MessageModel.outstanding env conversation m))
                  1
                && isUsFromCache env
                     (default ""
                        (head (MessageModel.outstanding env conversation m))))
        eqn:Hself.
      + destruct (retrySend_self env conversation now m Honline Hpublic
                    Hupload Hself) as (Hnone & Hup & Hto).
        split; [exact Hup | split; [exact Hnone | exact Hto]].
      + destruct (retrySend_reaches env conversation now m Honline Hpublic
                    Hsome Hupload Hkeys Hself) as (Hto & Hup).
        split; [exact Hup | exact Hto]. }
  split; [intros key; apply elem_of_outstanding |].
  unfold MessageModel.retrySend.
  destruct (messaging env) eqn:Honline; simpl negb; cbv iota.
  2: { repeat split; try discriminate; intros; cbn;
       try match goal with H : _ ∈ _ |- _ => inversion H end; reflexivity. }
  change (MessageModel.outstanding env conversation m)
    with (MessageModel.outstanding env conversation
            (MessageAttributes.set_errors None m)).
  split; [| split; [| discriminate]].
  - intros Hpub. rewrite Hpub. split.
    + intros eff.
      split_calls.
      all: try match goal with
        | |- context [promiseAll ?f ?l ?s] =>
            let Hall := fresh "Hall" in
            destruct (promiseAll f l s) as [[ra sa] ta] eqn:Hall;
            apply (f_equal trace) in Hall; unfold trace at 2 in Hall;
            simpl in Hall; subst ta;
            destruct ra
        end.
      all: cbv beta iota zeta; simpl; rewrite ?app_nil_r; intros Hin.
      all: try (apply elem_of_nil in Hin; contradiction).
      all: try (apply list_elem_of_singleton in Hin; subst eff;
                eexists _, _; split; [reflexivity |];
                apply head_elem_of; assumption).
      all: apply promiseAll_dispatches in Hin;
        destruct Hin as (k & -> & Hk); eauto.
    + intros Hnone.
      assert (Hlen : Nat.eqb
                (length (MessageModel.outstanding env conversation
                           (MessageAttributes.set_errors None m))) 0 = true)
        by (rewrite Hnone; reflexivity).
      split_calls; try congruence; try (simpl in *; discriminate); simpl.
      repeat split; reflexivity.
  - intros Hpub. rewrite Hpub. split.
    + intros eff. split_calls; simpl; intros Hin;
        first [ apply elem_of_nil in Hin; contradiction
              | apply list_elem_of_singleton in Hin; exact Hin ].
    + intros _ Hup. split_calls; simpl; try reflexivity;
        simpl in *; congruence.
Qed.

(** X4. A retry in a closed group that goes through (online, upload and
    keys fine, and not the lone retry to our own device) dispatches to every
    outstanding recipient, once each, in order, whatever the gateway answers
    to each dispatch. *)
Theorem retrySend_group_reaches_outstanding (env : Collaborators)
    (conversation : ConversationAttributes.t) (now : Z)
    (m : MessageAttributes.t) :
  let recipients := MessageModel.outstanding env conversation m in
  messaging env = true ->
  ConversationQueries.isPublic conversation = false ->
  ConversationQueries.isPrivate conversation = false ->
  uploadFails env (MessageAttributes.set_errors None m) = None ->
  (forall k, k ∈ recipients -> pubKeyFails env k = None) ->
  recipients <> [] ->
  (Nat.eqb (length recipients) 1
   && isUsFromCache env (default "" (head recipients))) = false ->
  dispatchedTo (trace (MessageModel.retrySend env conversation now m))
  = recipients
  /\ NoDup recipients.
Proof.
  cbv zeta. intros Honline Hpublic Hprivate Hupload Hkeys Hsome Hself.
  split; [| apply NoDup_outstanding].
  change (MessageModel.outstanding env conversation m)
    with (MessageModel.outstanding env conversation
            (MessageAttributes.set_errors None m)) in *.
  unfold MessageModel.retrySend.
  split_calls; rewrite ?Honline, ?Hpublic, ?Hprivate in *; simpl in *;
    try congruence.
  all: try match goal with
    | H : Nat.eqb (length ?l) 0 = true |- _ =>
        destruct l; [congruence | discriminate]
    end.
  all: match goal with
    | |- context [promiseAll ?f ?l ?s] =>
        assert (Hall : dispatchedTo (trace (promiseAll f l s)) = l);
        [ apply promiseAll_dispatchedTo; intros k s' Hk;
          rewrite (Hkeys k Hk);
          match goal with
          | |- context [sendToPubKeyFails ?e ?a ?b] =>
              destruct (sendToPubKeyFails e a b)
          end; reflexivity
        | destruct (promiseAll f l s) as [[ra sa] ta] ]
    end.
  all: unfold trace in Hall; simpl in Hall.
  all: destruct ra; simpl; rewrite ?app_nil_r; exact Hall.
Qed.

(** The retry of a message that reached one member of the group. *)
Lemma retrySend_group_reaches_outstanding_witness :
  dispatchedTo
    (trace (MessageModel.retrySend sampleEnv sampleGroup 2000 samplePartial))
  = ["05bob"].
Proof.
  exact (proj1 (retrySend_group_reaches_outstanding sampleEnv sampleGroup
                  2000 samplePartial eq_refl eq_refl eq_refl eq_refl
                  (fun _ _ => eq_refl)
                  ltac:(vm_compute; discriminate) eq_refl)).
Defined.

(** The claim of C6 fails in an open group: with nobody outstanding,
    [retrySend] still dispatches the message to the group. *)
Lemma retrySend_public_dispatches_anyway :
  MessageModel.outstanding sampleEnv samplePublic samplePublicMessage = []
  /\ dispatches
       (trace (MessageModel.retrySend sampleEnv samplePublic 2000
                 samplePublicMessage))
     = [SendToGroup
          (OpenGroupMessage (Some "m1") 2000 "publicChat:1@chat.example.org")].
Proof. split; reflexivity. Qed.

(** A message to a closed group that reached one member of two: the retry
    goes to the other member only; once both are in [sent_to] it dispatches
    nothing. *)
Example retrySend_group_partial :
  let m := samplePartial in
  MessageModel.outstanding sampleEnv sampleGroup m = ["05bob"]
  /\ dispatchedTo (trace (MessageModel.retrySend sampleEnv sampleGroup 2000 m))
     = ["05bob"]
  /\ dispatches
       (trace (MessageModel.retrySend sampleEnv sampleGroup 2000
                 (MessageAttributes.set_sent_to (Some ["05alice"; "05bob"]) m)))
     = [].
Proof. repeat split; reflexivity. Qed.

(** ** updateExpirationTimer *)

Lemma strictEq_refl (v : JsVal) : strictEq v v = true.
Proof. destruct v; simpl; auto using Z.eqb_refl. Qed.

Lemma unchangedTimer_iff (current x : JsVal) :
  unchangedTimer current x = true
  <-> current = x \/ (truthy x = false /\ truthy current = false).
Proof.
  unfold unchangedTimer, normalized.
  destruct current as [| |c], x as [| |n]; simpl;
    repeat match goal with
      | |- context [Z.eqb ?a ?b] => destruct (Z.eqb_spec a b); subst; simpl
      end;
    intuition (try congruence; try discriminate).
Qed.

Lemma updateExpirationTimer_unchanged (env : Collaborators) (x : JsVal)
    (source : option string) (receivedAt : option Z) (options : ConversationModel.TimerOptions)
    (now : Z) (c : ConversationModel.Model) :
  unchangedTimer (ConversationAttributes.expireTimer (ConversationModel.attributes c)) x = true ->
  ConversationModel.updateExpirationTimer env x source receivedAt options now c
  = (Returned RetNull, c, []).
Proof.
  intros H. unfold ConversationModel.updateExpirationTimer.
  unfold unchangedTimer, normalized in H.
  unfold bind at 1. unfold get at 1. cbv beta iota zeta.
  rewrite H. reflexivity.
Qed.

(** On a message without a timer the listener on the start does nothing:
    [sendSyncMessageOnly] writes the attributes, saves and syncs. *)
Lemma sendSyncMessageOnly_untimed (env : Collaborators) (now : Z)
    (m : MessageAttributes.t) :
  truthyNum (MessageAttributes.expireTimer m) = false ->
  MessageModel.sendSyncMessageOnly env now m
  = (set (fun m =>
            MessageAttributes.set_expirationStartTimestamp (Some now)
              (MessageAttributes.set_sent true
                 (MessageAttributes.set_sent_to
                    (Some [getOurPubKeyStrFromCache env]) m))) ;;
     MessageModel.commit env ;;
     MessageModel.sendSyncMessage env) m.
Proof.
  intros Htimer. unfold MessageModel.sendSyncMessageOnly.
  unfold bind at 1 3. rewrite setExpirationStart_run. cbv zeta.
  unfold afterStart, listenerTrace, restarts, MessageModel.isExpiring.
  cbn [MessageAttributes.expireTimer
         MessageAttributes.set_expirationStartTimestamp
         MessageAttributes.set_sent MessageAttributes.set_sent_to].
  rewrite Htimer. cbn [andb]. rewrite andb_false_r. reflexivity.
Qed.

Lemma updateExpirationTimer_sets (env : Collaborators) (x : JsVal)
    (source : option string) (receivedAt : option Z) (options : ConversationModel.TimerOptions)
    (now : Z) (c : ConversationModel.Model) :
  unchangedTimer (ConversationAttributes.expireTimer (ConversationModel.attributes c)) x = false ->
  timerChanged x (ConversationModel.updateExpirationTimer env x source receivedAt options now c).
Proof.
  intros H. unfold ConversationModel.updateExpirationTimer.
  unfold unchangedTimer, normalized in H.
  unfold bind at 1. unfold get at 1. cbv beta iota zeta.
  rewrite H. fold (normalized x).
  pose proof (sendSyncMessageOnly_untimed env now) as Honly.
  generalize dependent (MessageModel.sendSyncMessageOnly env now).
  intros only Honly.
  split_calls; rewrite ?Honly by reflexivity;
  split_calls; unfold timerChanged; simpl;
    (split; [reflexivity | split; [discriminate | split; [repeat constructor | reflexivity]]]).
Qed.

Lemma unchangedTimer_normalized (x : JsVal) :
  unchangedTimer (normalized x) x = true.
Proof.
  unfold unchangedTimer, normalized.
  destruct (truthy x) eqn:H; simpl; [| reflexivity].
  rewrite strictEq_refl. reflexivity.
Qed.

(** C7. [updateExpirationTimer] called with a value equal to the current
    [expireTimer], or with any falsy value while the current timer is falsy,
    returns [null] and does nothing: nothing is persisted and no message is
    added. Whatever the first call did, a second call with the same value
    does nothing. When the value differs, the first call leaves the new
    timer, every write of the two calls to the conversation table carries
    that one new value, and the one message the two calls add is added by
    the first. *)
Theorem updateExpirationTimer_same_value (env : Collaborators) (x : JsVal)
    (source source' : option string) (receivedAt receivedAt' : option Z)
    (options options' : ConversationModel.TimerOptions) (now now' : Z) (c : ConversationModel.Model) :
  let current := ConversationAttributes.expireTimer (ConversationModel.attributes c) in
  let same := current = x \/ (truthy x = false /\ truthy current = false) in
  let r1 := ConversationModel.updateExpirationTimer env x source receivedAt options now c in
  let r2 :=
    ConversationModel.updateExpirationTimer env x source' receivedAt' options' now' (final r1) in
  (same -> r1 = (Returned RetNull, c, []))
  /\ r2 = (Returned RetNull, final r1, [])
  /\ (~ same ->
      ConversationAttributes.expireTimer (ConversationModel.attributes (final r1))
      = (if truthy x then x else JsNull)
      /\ persistedTimers (trace r1 ++ trace r2) <> []
      /\ Forall (eq (if truthy x then x else JsNull))
           (persistedTimers (trace r1 ++ trace r2))
      /\ messagesAdded (trace r1) = 1)
  /\ messagesAdded (trace r2) = 0.
Proof.
  cbv zeta.
  assert (Hsecond :
    ConversationModel.updateExpirationTimer env x source' receivedAt' options' now'
      (final (ConversationModel.updateExpirationTimer env x source receivedAt options now c))
    = (Returned RetNull,
       final (ConversationModel.updateExpirationTimer env x source receivedAt options now c),
       [])).
  { apply updateExpirationTimer_unchanged.
    destruct (unchangedTimer
                (ConversationAttributes.expireTimer (ConversationModel.attributes c)) x) eqn:Hsame.
    - rewrite (updateExpirationTimer_unchanged _ _ _ _ _ _ _ Hsame). exact Hsame.
    - destruct (updateExpirationTimer_sets env x source receivedAt options
                  now c Hsame) as (-> & _).
      apply unchangedTimer_normalized. }
  split; [| split; [exact Hsecond | split]].
  - intros Hsame. apply updateExpirationTimer_unchanged.
    apply unchangedTimer_iff. exact Hsame.
  - intros Hdiff.
    assert (Hsame : unchangedTimer
              (ConversationAttributes.expireTimer (ConversationModel.attributes c)) x = false).
    { destruct (unchangedTimer _ x) eqn:E; [| reflexivity].
      apply unchangedTimer_iff in E. contradiction. }
    destruct (updateExpirationTimer_sets env x source receivedAt options
                now c Hsame) as (Hset & Hne & Hall & Hadded).
    rewrite Hsecond. unfold trace at 2 4. simpl. rewrite app_nil_r.
    unfold normalized in *.
    destruct (truthy x); simpl in *; auto.
  - rewrite Hsecond. reflexivity.
Qed.


(** A private conversation without a timer: setting one minute persists the
    change, adds the timer notification and tells the peer; [undefined] on a
    conversation without a timer does nothing. *)
Example updateExpirationTimer_sample :
  let c :=
    {| ConversationModel.attributes := sampleConversation "05bob" "private" [];
       ConversationModel.typingTimer := None;
       ConversationModel.table := [] |} in
  let options :=
    {| ConversationModel.fromSync := false;
       ConversationModel.fromGroupUpdate := false |} in
  let r1 :=
    ConversationModel.updateExpirationTimer sampleEnv (JsNum 60) None None
      options 2000 c in
  let r2 :=
    ConversationModel.updateExpirationTimer sampleEnv (JsNum 60) None None
      options 3000 (final r1) in
  persistedTimers (trace r1) = [JsNum 60; JsNum 60]
  /\ messagesAdded (trace r1) = 1
  /\ dispatchedTo (trace r1) = ["05bob"]
  /\ trace r2 = []
  /\ ConversationModel.updateExpirationTimer sampleEnv JsUndefined None None
       options 2000 c
     = (Returned RetNull, c, []).
Proof. repeat split; reflexivity. Qed.

(** ** sendMessageJob *)

Lemma sendMessageJobTry_run (env : Collaborators)
    (this : ConversationAttributes.t) (now : Z) (m : MessageAttributes.t) :
  tryBlockRun env m (ConversationModel.sendMessageJobTry env this now m).
Proof.
  unfold ConversationModel.sendMessageJobTry.
  split_calls; unfold tryBlockRun, final, result, trace; simpl;
    (split; [reflexivity |]);
    (split;
     [intros p Hp; first [discriminate | injection Hp as <-; reflexivity] |]);
    (split; [intros e He; congruence |]);
    intros eff e Hin Hfail;
    repeat match goal with
      | H : _ ∈ [] |- _ => apply elem_of_nil in H; contradiction
      | H : _ ∈ _ :: _ |- _ =>
          apply elem_of_cons in H; destruct H as [-> | H]
      end;
    simpl in Hfail; congruence.
Qed.

(** C8. [sendMessageJob] never throws: it resolves with [undefined] when
    the [try] block goes through and with [null] when it throws, so the job
    [sendMessage] queues always resolves. Whatever the [try] block throws is
    put at the head of the errors list of the message, as [saveErrors]
    stores it, and the derived status becomes ['error']; a block that goes
    through leaves the message as it was. The block throws whatever the
    upload fails with and whatever a dispatch it makes fails with. *)
Theorem sendMessageJob_records_errors (env : Collaborators)
    (this : ConversationAttributes.t) (now : Z) (m : MessageAttributes.t) :
  let tried := ConversationModel.sendMessageJobTry env this now m in
  let r := ConversationModel.sendMessageJob env this now m in
  (result r = Returned RetUndefined \/ result r = Returned RetNull)
  /\ result (ConversationModel.sendMessageTask env this now m)
     = Returned RetUndefined
  /\ (forall e, result tried = Thrown e ->
        result r = Returned RetNull
        /\ MessageAttributes.errors (final r)
           = Some (stored e :: orEmpty (MessageAttributes.errors m))
        /\ MessageModel.getMessagePropStatus env (final r) = Some "error")
  /\ (forall p, result tried = Returned p ->
        result r = Returned RetUndefined /\ final r = m)
  /\ (forall e, uploadFails env m = Some e -> result tried = Thrown e)
  /\ (forall eff e, eff ∈ trace tried -> dispatchFails env eff = Some e ->
        result tried = Thrown e).
Proof.
  cbv zeta.
  pose proof (sendMessageJobTry_run env this now m) as Hrun.
  unfold ConversationModel.sendMessageTask, ConversationModel.sendMessageJob.
  unfold bind, tryCatch.
  destruct (ConversationModel.sendMessageJobTry env this now m)
    as [[res s'] t].
  destruct Hrun as (Hfinal & Hret & Hup & Hdisp).
  unfold final, result, trace in *. simpl in *. subst s'.
  destruct res as [p | e].
  - pose proof (Hret p eq_refl) as ->. simpl.
    repeat split; auto; intros; try congruence; eauto.
  - simpl.
    repeat split; auto; intros; try congruence; eauto.
    injection H as <-. reflexivity.
Qed.

(** A send to a peer whose dispatch is rejected, and a send to a legacy
    closed group: the job resolves and the message carries the error. *)
Example sendMessageJob_rejected_dispatch :
  let env :=
    {| messaging := true; read_receipt_setting := true;
       getOurPubKeyStrFromCache := "05me";
       isUsFromCache := fun key => bool_decide (key = "05me");
       generateUUID := "uuid-1"; uploadFails := fun _ => None;
       pubKeyFails := fun _ => None;
       sendToPubKeyFails := fun key _ => Some (sampleNetworkError key);
       sendToGroupFails := fun _ => None |} in
  let r :=
    ConversationModel.sendMessageTask env
      (sampleConversation "05bob" "private" []) 2000
      (sampleOutgoing "m1" "05bob" ["05bob"]) in
  result r = Returned RetUndefined
  /\ MessageAttributes.errors (final r) = Some [sampleNetworkError "05bob"]
  /\ MessageModel.getMessagePropStatus env (final r) = Some "error".
Proof. repeat split; reflexivity. Qed.

Example sendMessageJob_legacy_group :
  let r :=
    ConversationModel.sendMessageJob sampleEnv sampleGroup 2000
      (sampleOutgoing "m1" "group-1" ["05alice"; "05bob"]) in
  result r = Returned RetNull
  /\ dispatches (trace r) = []
  /\ option_map (map e_message) (MessageAttributes.errors (final r))
     = Some ["Legacy group are not supported anymore. You need to recreate this group."].
Proof. repeat split; reflexivity. Qed.

(** ** Remote typing notifications *)

(** C9. In a private conversation, a typing notification from somebody
    else writes the conversation exactly when the typing flag flips:
    [isTyping = true] while nobody was marked typing, or [isTyping = false]
    while somebody was. A repeated [isTyping = true] only clears the pending
    timeout and sets a new one, due 15 seconds later, and writes nothing;
    [isTyping = false] clears the typing timer at once. The attributes and
    the messages are left as they were in every case. When the timeout
    fires, [clearContactTypingTimer] clears the timer and writes the
    conversation if somebody was still marked typing. *)
Theorem notifyTyping_commits_on_edges (env : Collaborators) (isTyping : bool)
    (sender : string) (now : Z) (c : ConversationModel.Model) :
  isUsFromCache env sender = false ->
  ConversationQueries.isPrivate (ConversationModel.attributes c) = true ->
  let wasTyping := bool_decide (is_Some (ConversationModel.typingTimer c)) in
  let r := ConversationModel.notifyTyping env isTyping sender now c in
  let fired := ConversationModel.clearContactTypingTimer (final r) in
  result r = Returned tt
  /\ ConversationModel.attributes (final r) = ConversationModel.attributes c
  /\ ConversationModel.table (final r) = ConversationModel.table c
  /\ ConversationModel.typingTimer (final r)
     = (if isTyping then Some (now + 15 * 1000)%Z else None)
  /\ commits (trace r)
     = (if xorb wasTyping isTyping
        then [UpdateConversation (ConversationModel.attributes c)]
        else [])
  /\ (wasTyping = true -> isTyping = true ->
      trace r = [ClearTimeout; SetTimeout (15 * 1000)])
  /\ ConversationModel.typingTimer (final fired) = None
  /\ commits (trace fired)
     = (if isTyping
        then [UpdateConversation (ConversationModel.attributes c)]
        else []).
Proof.
  intros Hus Hprivate. cbv zeta.
  unfold ConversationModel.notifyTyping,
    ConversationModel.clearContactTypingTimer.
  rewrite Hus. autounfold with async. cbv beta iota zeta. rewrite Hprivate.
  destruct c as [attrs [due |] rows], isTyping; simpl;
    repeat split; try reflexivity; intros; discriminate.
Qed.

(** The first typing notification of a peer: one write, and a timeout due
    15 seconds later. *)
Lemma notifyTyping_commits_on_edges_witness :
  let c := samplePrivate "05bob" 0 [] in
  let first := ConversationModel.notifyTyping sampleEnv true "05bob" 2000 c in
  commits (trace first)
  = [UpdateConversation (ConversationModel.attributes c)]
  /\ ConversationModel.typingTimer (final first) = Some 17000%Z.
Proof.
  destruct (notifyTyping_commits_on_edges sampleEnv true "05bob" 2000
              (samplePrivate "05bob" 0 []) eq_refl eq_refl)
    as (_ & _ & _ & Htimer & Hcommits & _).
  split; [exact Hcommits | exact Htimer].
Defined.

(** A refresh after the first notification restarts the timeout and writes
    nothing; the stop notification writes once. *)
Example notifyTyping_refresh_then_stop :
  let c := samplePrivate "05bob" 0 [] in
  let first := ConversationModel.notifyTyping sampleEnv true "05bob" 2000 c in
  let refresh :=
    ConversationModel.notifyTyping sampleEnv true "05bob" 9000 (final first) in
  let stop :=
    ConversationModel.notifyTyping sampleEnv false "05bob" 9500
      (final refresh) in
  trace refresh = [ClearTimeout; SetTimeout 15000]
  /\ ConversationModel.typingTimer (final refresh) = Some 24000%Z
  /\ length (commits (trace stop)) = 1
  /\ ConversationModel.typingTimer (final stop) = None.
Proof. repeat split; reflexivity. Qed.

(** ** markRead *)

(** C4, at the failing input. A conversation holds two unread messages,
    received at times 1 and 5. [markRead(3)] marks the first, and sets the
    unread counter to 1, the count of the unread query. A second
    [markRead(3)] finds nothing to mark and sets the counter to 0, while the
    unread query still counts 1. *)
Lemma markRead_twice_zeroes_unread_count :
  let once :=
    final (ConversationModel.markRead sampleEnv 3 sampleMarkReadOptions 2000
             sampleUnread) in
  let twice :=
    final (ConversationModel.markRead sampleEnv 3 sampleMarkReadOptions 2500
             once) in
  ConversationAttributes.unreadCount (ConversationModel.attributes once) = 1
  /\ result (ConversationModel.getUnreadCount once) = Returned 1
  /\ ConversationAttributes.unreadCount (ConversationModel.attributes twice)
     = 0
  /\ result (ConversationModel.getUnreadCount twice) = Returned 1.
Proof. repeat split; reflexivity. Qed.


(** ** Lists *)

Lemma map_ext_elem_of {A B} (f g : A -> B) (l : list A) :
  (forall x, x ∈ l -> f x = g x) -> map f l = map g l.
Proof.
  induction l as [| x l IH]; intros H; [reflexivity |]. simpl.
  rewrite H by (apply elem_of_cons; auto). f_equal.
  apply IH. intros y Hy. apply H, elem_of_cons. auto.
Qed.

Lemma NoDup_map_filter {A B} (f : A -> B) (P : A -> bool) (l : list A) :
  NoDup (map f l) -> NoDup (map f (List.filter P l)).
Proof.
  induction l as [| x l IH]; intros Hnd; [constructor |].
  simpl in Hnd. apply NoDup_cons in Hnd as [Hx Hnd]. simpl.
  destruct (P x); [| auto]. simpl. apply NoDup_cons. split; [| auto].
  intros Hin. apply Hx. apply list_elem_of_fmap in Hin as (y & -> & Hy).
  apply list_elem_of_fmap. exists y. split; [reflexivity |].
  apply list_elem_of_In. apply list_elem_of_In in Hy.
  apply List.filter_In in Hy. tauto.
Qed.

Lemma elem_of_List_filter {A} (P : A -> bool) (l : list A) (x : A) :
  x ∈ List.filter P l <-> x ∈ l /\ P x = true.
Proof. rewrite !list_elem_of_In. apply List.filter_In. Qed.

(** ** Expiration of a message *)

Section ExpirationProperties.
Local Open Scope Z_scope.

Lemma truthyNum_default (x : option Z) :
  truthyNum x = true <-> default 0 x <> 0.
Proof.
  destruct x as [n |]; simpl; [| split; [discriminate | congruence]].
  destruct (Z.eqb_spec n 0); simpl; split; congruence.
Qed.

Lemma truthyNum_false_default (x : option Z) :
  truthyNum x = false <-> default 0 x = 0.
Proof.
  destruct x as [n |]; simpl; [| split; reflexivity].
  destruct (Z.eqb_spec n 0); simpl; split; congruence.
Qed.

Lemma isExpiring_iff (m : MessageAttributes.t) :
  MessageModel.isExpiring m = true
  <-> default 0 (MessageAttributes.expireTimer m) <> 0
      /\ default 0 (MessageAttributes.expirationStartTimestamp m) <> 0.
Proof.
  unfold MessageModel.isExpiring.
  rewrite andb_true_iff, !truthyNum_default. tauto.
Qed.

Lemma msTilExpire_expiring (now : Z) (m : MessageAttributes.t) :
  MessageModel.isExpiring m = true ->
  MessageModel.msTilExpire now m
  = MessageModel.Finite
      (Z.max 0 (default 0 (MessageAttributes.expirationStartTimestamp m)
                + default 0 (MessageAttributes.expireTimer m) * 1000 - now)).
Proof.
  intros H. unfold MessageModel.msTilExpire. rewrite H. simpl.
  unfold MessageModel.isExpiring in H. apply andb_true_iff in H as [_ ->].
  simpl. f_equal.
  destruct (Z.ltb_spec
              (default 0 (MessageAttributes.expirationStartTimestamp m)
               + default 0 (MessageAttributes.expireTimer m) * 1000 - now) 0);
    lia.
Qed.

Lemma isExpired_iff (now : Z) (m : MessageAttributes.t) :
  MessageModel.isExpired now m = true
  <-> MessageModel.isExpiring m = true
      /\ (default 0 (MessageAttributes.expirationStartTimestamp m)
          + default 0 (MessageAttributes.expireTimer m) * 1000 <= now).
Proof.
  unfold MessageModel.isExpired.
  destruct (MessageModel.isExpiring m) eqn:H.
  - rewrite (msTilExpire_expiring now m H), Z.leb_le. split; [| lia].
    intros ?. split; [reflexivity | lia].
  - unfold MessageModel.msTilExpire. rewrite H. simpl.
    split; [discriminate | intros [? _]; discriminate].
Qed.

(** X5. A message is expiring when its timer and its expiration start are
    both set and not zero. A message that is not expiring never expires: its
    remaining time is [Infinity]. An expiring one has
    [max 0 (start + 1000 * expireTimer - now)] milliseconds left, never a
    negative number, and is expired exactly from [start + 1000 * expireTimer]
    on: not before, and at every later time. *)
Theorem isExpired_from_deadline (now : Z) (m : MessageAttributes.t) :
  let timer := default 0 (MessageAttributes.expireTimer m) in
  let start := default 0 (MessageAttributes.expirationStartTimestamp m) in
  let deadline := (start + timer * 1000) in
  (MessageModel.isExpiring m = true <-> timer <> 0 /\ start <> 0)
  /\ (MessageModel.isExpiring m = false ->
      MessageModel.msTilExpire now m = MessageModel.Infinity
      /\ MessageModel.isExpired now m = false)
  /\ (MessageModel.isExpiring m = true ->
      MessageModel.msTilExpire now m
      = MessageModel.Finite (Z.max 0 (deadline - now))
      /\ (MessageModel.isExpired now m = true <-> (deadline <= now)))
  /\ (forall ms, MessageModel.msTilExpire now m = MessageModel.Finite ms ->
                 (0 <= ms))
  /\ (forall later, (now <= later) ->
        MessageModel.isExpired now m = true ->
        MessageModel.isExpired later m = true).
Proof.
  cbv zeta.
  split; [apply isExpiring_iff |].
  split.
  { intros H. unfold MessageModel.isExpired, MessageModel.msTilExpire.
    rewrite H. split; reflexivity. }
  split.
  { intros H. split; [apply msTilExpire_expiring, H |].
    rewrite isExpired_iff. split; [tauto | auto]. }
  split.
  { intros ms. destruct (MessageModel.isExpiring m) eqn:H.
    - rewrite (msTilExpire_expiring now m H). intros [= <-]. lia.
    - unfold MessageModel.msTilExpire. rewrite H. discriminate. }
  intros later Hle. rewrite !isExpired_iff. intros [? ?]. split; [auto | lia].
Qed.

(** What [setToExpire] leaves when it sets the deadline. *)
Lemma setToExpire_sets (env : Collaborators) (force : bool)
    (this : MessageAttributes.t) :
  MessageModel.isExpiring this = true ->
  (force || negb (truthyNum (MessageAttributes.expires_at this))) = true ->
  MessageModel.setToExpire env force this
  = (Returned tt, withDeadline this,
     if truthyOptStr (MessageAttributes.id this)
     then [SaveMessage (withDeadline this); Trigger "change"]
     else []).
Proof. intros Hexp Hforce. rewrite setToExpire_run, Hexp, Hforce. reflexivity. Qed.

Lemma setToExpire_skips (env : Collaborators) (force : bool)
    (this : MessageAttributes.t) :
  (MessageModel.isExpiring this
   && (force || negb (truthyNum (MessageAttributes.expires_at this)))) = false ->
  MessageModel.setToExpire env force this = (Returned tt, this, []).
Proof. intros H. rewrite setToExpire_run, H. reflexivity. Qed.

(** X6. [setToExpire] writes [expires_at = start + 1000 * expireTimer], and
    saves the message if it has an id, when the message is expiring and
    either [force] is given or no deadline is recorded. In every other case
    it does nothing: without [force] a recorded deadline is kept, whatever
    the start and the timer have become. It never touches the other
    attributes, and calling it again without [force] changes nothing. *)
Theorem setToExpire_keeps_recorded_deadline (env : Collaborators)
    (force : bool) (this : MessageAttributes.t) :
  let deadline :=
    (default 0 (MessageAttributes.expirationStartTimestamp this)
     + default 0 (MessageAttributes.expireTimer this) * 1000) in
  let recorded := truthyNum (MessageAttributes.expires_at this) in
  let r := MessageModel.setToExpire env force this in
  let again := MessageModel.setToExpire env false (final r) in
  result r = Returned tt
  /\ MessageAttributes.set_expires_at (MessageAttributes.expires_at this)
       (final r) = this
  /\ (MessageModel.isExpiring this = true ->
      (force = true \/ recorded = false) ->
      MessageAttributes.expires_at (final r) = Some deadline
      /\ trace r = if truthyOptStr (MessageAttributes.id this)
                   then [SaveMessage (final r); Trigger "change"]
                   else [])
  /\ (MessageModel.isExpiring this = false
      \/ (force = false /\ recorded = true)
      -> final r = this /\ trace r = [])
  /\ final again = final r
  /\ (truthyNum (MessageAttributes.expires_at (final r)) = true ->
      trace again = []).
Proof.
  cbv zeta.
  destruct (MessageModel.isExpiring this
            && (force || negb (truthyNum (MessageAttributes.expires_at this))))
    eqn:Hcond.
  - apply andb_true_iff in Hcond as [Hexp Hforce].
    rewrite (setToExpire_sets env force this Hexp Hforce).
    unfold result, final, trace. cbn [fst snd].
    split; [reflexivity |]. split; [destruct this; reflexivity |].
    split; [intros _ _; split; reflexivity |].
    split.
    { intros [H | [-> H]]; [congruence |].
      rewrite H in Hforce. discriminate. }
    assert (Hexp' : MessageModel.isExpiring (withDeadline this) = true)
      by exact Hexp.
    destruct (truthyNum (MessageAttributes.expires_at (withDeadline this)))
      eqn:Hrec.
    + rewrite setToExpire_skips
        by (rewrite Hrec; cbn [orb negb]; apply andb_false_r).
      split; [reflexivity | intros _; reflexivity].
    + rewrite setToExpire_sets
        by (first [exact Hexp' | rewrite Hrec; reflexivity]).
      cbn [fst snd]. split; [reflexivity | discriminate].
  - rewrite (setToExpire_skips env force this Hcond).
    unfold result, final, trace. cbn [fst snd].
    split; [reflexivity |]. split; [destruct this; reflexivity |].
    split.
    { intros Hexp Hforce. rewrite Hexp in Hcond. cbn [andb] in Hcond.
      destruct Hforce as [Hf | Hf]; rewrite Hf in Hcond;
        [discriminate | destruct force; discriminate]. }
    split; [intros _; split; reflexivity |].
    assert (Hagain :
      (MessageModel.isExpiring this
       && (false || negb (truthyNum (MessageAttributes.expires_at this))))
      = false
      \/ MessageModel.setToExpire env false this
         = MessageModel.setToExpire env force this).
    { destruct force; [| right; reflexivity]. left.
      rewrite orb_true_l, andb_true_r in Hcond. rewrite Hcond. reflexivity. }
    destruct Hagain as [Hagain | Hagain].
    + rewrite (setToExpire_skips env false this Hagain).
      split; [reflexivity | intros _; reflexivity].
    + rewrite Hagain, (setToExpire_skips env force this Hcond).
      split; [reflexivity | intros _; reflexivity].
Qed.

End ExpirationProperties.

Section ReadThenExpire.
Local Open Scope Z_scope.

(** What [markRead] leaves of a message. *)
Lemma message_markRead_run (env : Collaborators) (readAt : option Z) (now : Z)
    (m : MessageAttributes.t) :
  let starts :=
    truthyNum (MessageAttributes.expireTimer m)
    && negb (truthyNum (MessageAttributes.expirationStartTimestamp m)) in
  let before := MessageAttributes.expirationStartTimestamp m in
  let written :=
    MessageAttributes.set_expirationStartTimestamp
      (Some (Z.min now (if truthyNum readAt then default now readAt
                        else now)))
      (MessageAttributes.set_unread false m) in
  let m' :=
    if starts then afterStart before written
    else MessageAttributes.set_unread false m in
  MessageModel.markRead env readAt now m
  = (Returned tt, m',
     (if starts then listenerTrace before written else [])
     ++ [RemoveNotifications (default "" (MessageAttributes.id m));
         SaveMessage m'; Trigger "change"]).
Proof.
  cbv zeta. unfold MessageModel.markRead.
  unfold bind at 1. unfold set at 1. cbv beta iota zeta.
  unfold bind at 1. unfold get at 1. cbv beta iota zeta.
  cbn [MessageAttributes.expireTimer MessageAttributes.set_unread
         MessageAttributes.expirationStartTimestamp MessageAttributes.id].
  destruct (truthyNum (MessageAttributes.expireTimer m)
            && negb (truthyNum (MessageAttributes.expirationStartTimestamp m)));
    [| reflexivity].
  unfold when, bind. rewrite setExpirationStart_run. reflexivity.
Qed.

(** X7. Reading starts the countdown. A message with a timer whose
    expiration has not started is marked read at [now]: the start becomes
    the earlier of [now] and [readAt], and the listener on the start records
    the deadline [start + 1000 * expireTimer] at once, saving a message that
    has an id a second time. A [setToExpire] that follows, forced or not,
    leaves that deadline. From then on the message is expired exactly at the
    times from that deadline on. *)
Theorem markRead_then_setToExpire (env : Collaborators) (readAt : option Z)
    (now timer : Z) (force : bool) (this : MessageAttributes.t) :
  let start :=
    Z.min now (if truthyNum readAt then default now readAt else now) in
  MessageAttributes.expireTimer this = Some timer ->
  timer <> 0 ->
  truthyNum (MessageAttributes.expirationStartTimestamp this) = false ->
  start <> 0 ->
  let read := MessageModel.markRead env readAt now this in
  let r :=
    (MessageModel.markRead env readAt now ;;
     MessageModel.setToExpire env force) this in
  MessageAttributes.unread (final r) = false
  /\ MessageAttributes.expirationStartTimestamp (final r) = Some start
  /\ MessageAttributes.expires_at (final r) = Some (start + timer * 1000)
  /\ (forall at_, MessageModel.isExpired at_ (final r) = true
                  <-> start + timer * 1000 <= at_)
  /\ MessageAttributes.expires_at (final read) = Some (start + timer * 1000)
  /\ saves (trace read)
     = (if truthyOptStr (MessageAttributes.id this) then 2 else 1)%nat.
Proof.
  intros start Htimer Hnz Hstart Hstart' read r. subst read r.
  unfold bind.
  rewrite message_markRead_run. cbv zeta.
  rewrite Htimer, Hstart.
  assert (Ht : truthyNum (Some timer) = true).
  { simpl. destruct (Z.eqb_spec timer 0); [contradiction | reflexivity]. }
  rewrite Ht. cbn [andb negb]. fold start.
  set (written := MessageAttributes.set_expirationStartTimestamp (Some start)
                    (MessageAttributes.set_unread false this)).
  assert (Hexp : MessageModel.isExpiring written = true).
  { apply isExpiring_iff. subst written. simpl. rewrite Htimer. simpl. auto. }
  assert (Hre : restarts (MessageAttributes.expirationStartTimestamp this)
                  written = true).
  { unfold restarts. rewrite Hexp, andb_true_r. apply negb_true_iff.
    apply bool_decide_eq_false_2. subst written. simpl. intros Heq.
    rewrite Heq in Hstart. simpl in Hstart.
    destruct (Z.eqb_spec start 0); [contradiction | discriminate]. }
  assert (Hdl : deadline written = start + timer * 1000).
  { unfold deadline. subst written. simpl. rewrite Htimer. reflexivity. }
  unfold afterStart, listenerTrace. rewrite Hre. cbn [andb].
  assert (Hlater : forall at_,
            MessageModel.isExpired at_ (withDeadline written) = true
            <-> start + timer * 1000 <= at_).
  { intros at_. rewrite isExpired_iff. subst written. simpl.
    rewrite Htimer. simpl. split; [tauto |]. intros ?. split; [| assumption].
    apply isExpiring_iff. simpl. rewrite Htimer. simpl. auto. }
  assert (Hsaves :
    saves ((if truthyOptStr (MessageAttributes.id written)
            then [SaveMessage (withDeadline written); Trigger "change"]
            else [])
           ++ [RemoveNotifications (default "" (MessageAttributes.id this));
               SaveMessage (withDeadline written); Trigger "change"])
    = (if truthyOptStr (MessageAttributes.id this) then 2 else 1)%nat).
  { subst written. cbn [MessageAttributes.id
                          MessageAttributes.set_expirationStartTimestamp
                          MessageAttributes.set_unread].
    destruct (truthyOptStr (MessageAttributes.id this)); reflexivity. }
  rewrite setToExpire_run.
  destruct (MessageModel.isExpiring (withDeadline written)
            && (force
                || negb (truthyNum
                           (MessageAttributes.expires_at
                              (withDeadline written)))));
    unfold final, trace; cbn [fst snd].
  - change (withDeadline (withDeadline written)) with (withDeadline written).
    split; [reflexivity |]. split; [reflexivity |].
    split; [simpl; f_equal; exact Hdl |].
    split; [exact Hlater |].
    split; [simpl; f_equal; exact Hdl | exact Hsaves].
  - split; [reflexivity |]. split; [reflexivity |].
    split; [simpl; f_equal; exact Hdl |].
    split; [exact Hlater |].
    split; [simpl; f_equal; exact Hdl | exact Hsaves].
Qed.

(** The message is read at time 2000: it expires at 7000. *)
Lemma markRead_then_setToExpire_witness :
  MessageAttributes.expires_at
    (final ((MessageModel.markRead sampleEnv None 2000 ;;
             MessageModel.setToExpire sampleEnv false) sampleTimed))
  = Some 7000.
Proof.
  exact (proj1 (proj2 (proj2
           (markRead_then_setToExpire sampleEnv None 2000 5 false sampleTimed
              eq_refl ltac:(discriminate) eq_refl ltac:(discriminate))))).
Defined.

End ReadThenExpire.

(** ** The expiration a message shows *)

Section ShownExpiration.
Local Open Scope Z_scope.

Lemma expirationTimestamp_expiring (m : MessageAttributes.t) :
  MessageProps.expirationTimestamp m
  = if MessageModel.isExpiring m
    then Some (default 0 (MessageAttributes.expirationStartTimestamp m)
               + default 0 (MessageAttributes.expireTimer m) * 1000)
    else None.
Proof.
  unfold MessageProps.expirationTimestamp, MessageProps.expirationLength,
    MessageModel.isExpiring.
  destruct (MessageAttributes.expireTimer m) as [timer |]; cbn; [| reflexivity].
  destruct (Z.eqb_spec timer 0) as [-> | Htimer]; cbn; [reflexivity |].
  destruct (Z.eqb_spec (timer * 1000) 0); [lia |]. cbn.
  destruct (truthyNum (MessageAttributes.expirationStartTimestamp m));
    reflexivity.
Qed.

(** X17. The expiration time that [getPropsForMessage] shows is the time
    at which the message expires: it is [start + 1000 * expireTimer] for an
    expiring message and [null] otherwise, [null] exactly when
    [msTilExpire] is [Infinity]; the message is expired exactly when a time
    is shown and that time has come; and it is the deadline a forced
    [setToExpire] records in [expires_at]. *)
Theorem expirationTimestamp_is_the_deadline (env : Collaborators) (now : Z)
    (m : MessageAttributes.t) :
  let shown := MessageProps.expirationTimestamp m in
  shown
  = (if MessageModel.isExpiring m
     then Some (default 0 (MessageAttributes.expirationStartTimestamp m)
                + default 0 (MessageAttributes.expireTimer m) * 1000)
     else None)
  /\ (shown = None <-> MessageModel.msTilExpire now m = MessageModel.Infinity)
  /\ (MessageModel.isExpired now m = true
      <-> exists deadline, shown = Some deadline /\ deadline <= now)
  /\ (MessageModel.isExpiring m = true ->
      MessageAttributes.expires_at (final (MessageModel.setToExpire env true m))
      = shown).
Proof.
  cbv zeta. rewrite expirationTimestamp_expiring.
  split; [reflexivity |].
  destruct (MessageModel.isExpiring m) eqn:Hexp.
  - split; [| split].
    + rewrite (msTilExpire_expiring now _ Hexp). split; discriminate.
    + rewrite isExpired_iff, Hexp. split.
      * intros [_ Hle]. eexists. split; [reflexivity | exact Hle].
      * intros (deadline & [= <-] & Hle). auto.
    + intros _. rewrite setToExpire_sets by (first [exact Hexp | reflexivity]).
      reflexivity.
  - split; [| split].
    + unfold MessageModel.msTilExpire. rewrite Hexp. split; reflexivity.
    + rewrite isExpired_iff, Hexp. split.
      * intros [? _]. discriminate.
      * intros (deadline & ? & _). discriminate.
    + discriminate.
Qed.

End ShownExpiration.

(** ** The status of one recipient *)

Lemma elem_of_nonempty_ltb (k : string) (l : list string) :
  k ∈ l -> Nat.ltb 0 (length l) = true.
Proof. destruct l; [intros H; inversion H | reflexivity]. Qed.

(** X8. [getStatus] gives one recipient the furthest delivery recorded for
    it: ['read'] when it is in [read_by], else ['delivered'] when it is in
    [delivered_to], else ['sent'] when it is in [sent_to], else [null]. It
    does not look at the read-receipt setting. For an outgoing message
    without errors the status of the message is never behind the status of
    one of its recipients, provided the read-receipt setting is on or that
    recipient is not in [read_by]. *)
Theorem getStatus_priority (env : Collaborators) (pubkey : string)
    (m : MessageAttributes.t) :
  let status := MessageDetail.getStatus pubkey m in
  let readBy := orEmpty (MessageAttributes.read_by m) in
  let deliveredTo := orEmpty (MessageAttributes.delivered_to m) in
  let sentTo := orEmpty (MessageAttributes.sent_to m) in
  (status = Some "read" <-> pubkey ∈ readBy)
  /\ (status = Some "delivered"
      <-> (pubkey ∉ readBy) /\ (pubkey ∈ deliveredTo))
  /\ (status = Some "sent"
      <-> (pubkey ∉ readBy) /\ (pubkey ∉ deliveredTo) /\ (pubkey ∈ sentTo))
  /\ (status = None
      <-> (pubkey ∉ readBy) /\ (pubkey ∉ deliveredTo) /\ (pubkey ∉ sentTo))
  /\ (MessageModel.hasErrors m = false ->
      MessageModel.isOutgoing m = true ->
      read_receipt_setting env = true \/ (pubkey ∉ readBy) ->
      statusRank status
      <= statusRank (MessageModel.getMessagePropStatus env m)).
Proof.
  cbv zeta. unfold MessageDetail.getStatus.
  repeat case_bool_decide.
  all: repeat match goal with
         | |- _ /\ _ => split
         | |- _ <-> _ => split
         end.
  all: try (intros; congruence).
  all: try (intros; tauto).
  all: try (intros (? & ?); tauto).
  all: intros Herr Hout Hread;
    unfold MessageModel.getMessagePropStatus; rewrite Herr, Hout;
    cbn [negb];
    (destruct (read_receipt_setting env);
     [| destruct Hread as [? | ?]; [discriminate |]; try contradiction]);
    repeat match goal with
      | H : ?k ∈ ?l |- _ =>
          apply elem_of_nonempty_ltb in H; try rewrite H
      end;
    rewrite ?orb_true_r; cbn [andb orb];
    repeat match goal with
      | |- context [if ?b then _ else _] => destruct b
      end;
    vm_compute; lia.
Qed.

(** ** Recipients recorded on a message *)

Lemma uniqFrom_NoDup (seen l : list string) :
  NoDup l -> (forall x, x ∈ l -> x ∉ seen) -> uniqFrom seen l = l.
Proof.
  revert seen. induction l as [| y l IH]; intros seen Hnd Hseen;
    [reflexivity |].
  inversion Hnd as [| ? ? Hy Hl]; subst. simpl.
  rewrite bool_decide_eq_false_2 by (apply Hseen, elem_of_cons; auto).
  f_equal. apply IH; [exact Hl |].
  intros x Hx. rewrite elem_of_cons. intros [-> | Hin]; [contradiction |].
  revert Hin. apply Hseen, elem_of_cons. auto.
Qed.

Lemma uniq_NoDup (l : list string) : NoDup l -> uniq l = l.
Proof.
  intros H. apply uniqFrom_NoDup; [exact H |].
  intros x _. apply not_elem_of_nil.
Qed.

Lemma uniqFrom_snoc_seen (seen l : list string) (d : string) :
  d ∈ seen \/ d ∈ l -> uniqFrom seen (l ++ [d]) = uniqFrom seen l.
Proof.
  revert seen. induction l as [| y l IH]; intros seen Hd; simpl.
  - destruct Hd as [Hd | Hd]; [| inversion Hd].
    rewrite bool_decide_eq_true_2 by exact Hd. reflexivity.
  - case_bool_decide as Hy.
    + apply IH. destruct Hd as [Hd | Hd]; [auto |].
      apply elem_of_cons in Hd as [-> | Hd]; auto.
    + f_equal. apply IH. rewrite elem_of_cons.
      destruct Hd as [Hd | Hd]; [auto |].
      apply elem_of_cons in Hd as [-> | Hd]; auto.
Qed.

(** Adding a recipient that is recorded changes nothing. *)
Lemma union_recorded (l : list string) (d : string) :
  union (union l [d]) [d] = union l [d].
Proof.
  unfold union, uniq.
  rewrite uniqFrom_snoc_seen
    by (right; apply elem_of_uniqFrom; split;
        [apply elem_of_app; right; apply elem_of_cons; auto
        | apply not_elem_of_nil]).
  apply uniqFrom_NoDup; [apply NoDup_uniqFrom |].
  intros x _. apply not_elem_of_nil.
Qed.

Lemma handleMessageSentSuccess_sent_to_run (env : Collaborators)
    (sentMessage : SentMessage) (wrappedEnvelope : bool) (now : Z)
    (m : MessageAttributes.t) :
  MessageAttributes.sent_to
    (final (MessageModel.handleMessageSentSuccess env sentMessage
              wrappedEnvelope now m))
  = Some (if openGroup sentMessage then orEmpty (MessageAttributes.sent_to m)
          else union (orEmpty (MessageAttributes.sent_to m))
                 [device sentMessage]).
Proof.
  unfold MessageModel.handleMessageSentSuccess.
  destruct (openGroup sentMessage); run_async;
    first [reflexivity | simpl in *; discriminate].
Qed.

(** X9. A delivery success to a device records the device in [sent_to]:
    outside an open group, [sent_to] afterwards holds the recipients it held
    and the device, each once, and a second success for the same device
    leaves [sent_to] as it is. A success in an open group records nobody. *)
Theorem handleMessageSentSuccess_records_device (env : Collaborators)
    (sentMessage : SentMessage) (wrappedEnvelope wrappedEnvelope' : bool)
    (now now' : Z) (m : MessageAttributes.t) :
  let once :=
    final (MessageModel.handleMessageSentSuccess env sentMessage
             wrappedEnvelope now m) in
  let twice :=
    final (MessageModel.handleMessageSentSuccess env sentMessage
             wrappedEnvelope' now' once) in
  let before := orEmpty (MessageAttributes.sent_to m) in
  let after := orEmpty (MessageAttributes.sent_to once) in
  (openGroup sentMessage = true -> after = before)
  /\ (openGroup sentMessage = false ->
      (forall key, key ∈ after <-> key ∈ before \/ key = device sentMessage)
      /\ NoDup after)
  /\ MessageAttributes.sent_to twice = MessageAttributes.sent_to once.
Proof.
  cbv zeta. rewrite !handleMessageSentSuccess_sent_to_run.
  destruct (openGroup sentMessage); simpl.
  - split; [reflexivity |]. split; [discriminate | reflexivity].
  - split; [discriminate |]. split.
    + intros _. split; [| apply NoDup_uniqFrom].
      intros key. unfold union. rewrite elem_of_uniq, elem_of_app.
      rewrite list_elem_of_singleton. reflexivity.
    + rewrite union_recorded. reflexivity.
Qed.

(** ** The contacts of the message detail *)

(** X10. The contacts that the detail view of an outgoing message lists
    are the recipients recorded in [sent_to] and the intended recipients
    (those of the conversation when the message records none), each once.
    A contact with a recorded delivery shows that delivery, also on a
    message that carries errors; a contact without one shows the status of
    the message, so every contact of an outgoing message has a status. *)
Theorem messageDetail_contacts (env : Collaborators)
    (conversation : ConversationAttributes.t) (m : MessageAttributes.t) :
  let contacts := MessageDetail.phoneNumbers env conversation m in
  let intended :=
    match MessageAttributes.recipients m with
    | Some l => l
    | None => ConversationQueries.getRecipients env conversation
    end in
  let recorded key :=
    key ∈ orEmpty (MessageAttributes.read_by m)
    \/ key ∈ orEmpty (MessageAttributes.delivered_to m)
    \/ key ∈ orEmpty (MessageAttributes.sent_to m) in
  NoDup contacts
  /\ (forall key,
        key ∈ contacts
        <-> key ∈ orEmpty (MessageAttributes.sent_to m) \/ key ∈ intended)
  /\ (forall key, recorded key ->
        MessageDetail.contactStatus env key m = MessageDetail.getStatus key m
        /\ MessageDetail.contactStatus env key m <> Some "error"
        /\ MessageDetail.contactStatus env key m <> None)
  /\ (forall key, ~ recorded key ->
        MessageDetail.contactStatus env key m
        = MessageModel.getMessagePropStatus env m)
  /\ (MessageModel.isOutgoing m = true ->
      forall key, MessageDetail.contactStatus env key m <> None).
Proof.
  cbv zeta.
  split; [apply NoDup_uniqFrom |].
  split.
  { intros key. unfold MessageDetail.phoneNumbers, union.
    rewrite elem_of_uniq, elem_of_app. reflexivity. }
  unfold MessageDetail.contactStatus, MessageDetail.getStatus.
  split; [| split].
  - intros key Hrec. repeat case_bool_decide; try tauto;
      (split; [reflexivity | split; discriminate]).
  - intros key Hrec. repeat case_bool_decide; try tauto.
  - intros Hout key. repeat case_bool_decide; try discriminate.
    unfold MessageModel.getMessagePropStatus. rewrite Hout. simpl.
    repeat match goal with
      | |- context [if ?b then _ else _] => destruct b
      end; discriminate.
Qed.

(** ** The sync bookkeeping of a delivery success *)

Lemma handleMessageSentSuccess_unchanged (env : Collaborators)
    (sentMessage : SentMessage) (wrappedEnvelope : bool) (now : Z)
    (m : MessageAttributes.t) :
  let m' :=
    final (MessageModel.handleMessageSentSuccess env sentMessage
             wrappedEnvelope now m) in
  MessageAttributes.expireTimer m' = MessageAttributes.expireTimer m
  /\ MessageAttributes.id m' = MessageAttributes.id m.
Proof. run_async; split; reflexivity. Qed.

Lemma restarts_written (now : Z) (m written : MessageAttributes.t) :
  MessageAttributes.expirationStartTimestamp written = Some now ->
  MessageAttributes.expireTimer written = MessageAttributes.expireTimer m ->
  restarts (MessageAttributes.expirationStartTimestamp m) written
  = restartsAt now m.
Proof.
  intros Hstart Htimer. unfold restarts, restartsAt, MessageModel.isExpiring.
  rewrite Hstart, Htimer. cbn [truthyNum]. rewrite andb_assoc. reflexivity.
Qed.

Lemma handleMessageSentSuccess_sync_run (env : Collaborators)
    (sentMessage : SentMessage) (wrappedEnvelope : bool) (now : Z)
    (m : MessageAttributes.t) :
  syncBookkeeping env sentMessage now m
    (MessageModel.handleMessageSentSuccess env sentMessage wrappedEnvelope
       now m).
Proof.
  unfold MessageModel.handleMessageSentSuccess, syncBookkeeping, triggersSync.
  destruct sentMessage as [dev closed open hasData hasBody].
  cbn [device closedGroupEncryption openGroup hasDataMessage
       hasBodyOrAttachments].
  destruct open, (truthyStr dev && isUsFromCache env dev), closed,
    (MessageAttributes.synced m) eqn:Hsynced,
    (MessageAttributes.sentSync m) eqn:Hsent, hasData, hasBody,
    wrappedEnvelope.
  all: unfold bind, get, set, perform, ret, when, MessageModel.sendSyncMessage,
         MessageModel.commit; cbv beta iota zeta.
  all: repeat (progress (cbn -[MessageModel.setExpirationStart];
                         rewrite ?Hsynced, ?Hsent)).
  all: rewrite setExpirationStart_run; cbv zeta.
  all: unfold afterStart, listenerTrace;
    rewrite (restarts_written now m) by reflexivity;
    cbn [MessageAttributes.id MessageAttributes.set_expirationStartTimestamp
           MessageAttributes.set_sent MessageAttributes.set_sent_to
           MessageAttributes.set_sentSync MessageAttributes.set_synced];
    destruct (restartsAt now m), (truthyOptStr (MessageAttributes.id m));
    cbn; rewrite ?Hsynced, ?Hsent; repeat split; reflexivity.
Qed.

(** X18. A delivery success never clears the sync flags of a message. It
    calls [sendSyncMessage], which sets [sentSync] with a write of its own,
    only for a success outside an open group, from a device that is not
    ours, not encrypted for a closed group, carrying a data message, while
    the message is neither synced nor marked [sentSync]; so a second success
    never calls it again. A success from our own device outside an open
    group marks a message with [sentSync] as synced. Every success sets the
    start to the current time; when that changes the start of a message with
    a timer, the listener on the start records the deadline
    [now + 1000 * expireTimer] again and saves a message that has an id once
    more. A success saves the message once at its end, whatever else it
    does. *)
Theorem handleMessageSentSuccess_syncs_once (env : Collaborators)
    (sentMessage sentMessage' : SentMessage)
    (wrappedEnvelope wrappedEnvelope' : bool) (now now' : Z)
    (m : MessageAttributes.t) :
  let ours :=
    truthyStr (device sentMessage)
    && isUsFromCache env (device sentMessage) in
  let first :=
    MessageModel.handleMessageSentSuccess env sentMessage wrappedEnvelope
      now m in
  let second :=
    MessageModel.handleMessageSentSuccess env sentMessage' wrappedEnvelope'
      now' (final first) in
  let restarted :=
    negb (bool_decide
            (MessageAttributes.expirationStartTimestamp m = Some now))
    && truthyNum (MessageAttributes.expireTimer m)
    && negb (Z.eqb now 0) in
  let restarted' :=
    negb (Z.eqb now' now)
    && truthyNum (MessageAttributes.expireTimer m)
    && negb (Z.eqb now' 0) in
  MessageAttributes.sentSync (final first)
  = (MessageAttributes.sentSync m || triggersSync env sentMessage m)
  /\ MessageAttributes.synced (final first)
     = (MessageAttributes.synced m
        || (negb (openGroup sentMessage) && ours
            && MessageAttributes.sentSync m))
  /\ MessageAttributes.expires_at (final first)
     = (if restarted
        then Some (now + default 0 (MessageAttributes.expireTimer m) * 1000)%Z
        else MessageAttributes.expires_at m)
  /\ saves (trace first)
     = (if triggersSync env sentMessage m then 1 else 0)
       + (if restarted && truthyOptStr (MessageAttributes.id m)
          then 1 else 0)
       + 1
  /\ (triggersSync env sentMessage m = true ->
      triggersSync env sentMessage' (final first) = false)
  /\ saves (trace second)
     = (if triggersSync env sentMessage' (final first) then 1 else 0)
       + (if restarted' && truthyOptStr (MessageAttributes.id m)
          then 1 else 0)
       + 1
  /\ (MessageAttributes.sentSync m = true ->
      MessageAttributes.sentSync (final second) = true)
  /\ (MessageAttributes.synced m = true ->
      MessageAttributes.synced (final second) = true).
Proof.
  cbv zeta.
  destruct (handleMessageSentSuccess_sync_run env sentMessage wrappedEnvelope
              now m) as (Hsent & Hsynced & Hexpires & Hsaves).
  destruct (handleMessageSentSuccess_sync_run env sentMessage'
              wrappedEnvelope' now'
              (final (MessageModel.handleMessageSentSuccess env sentMessage
                        wrappedEnvelope now m)))
    as (Hsent' & Hsynced' & _ & Hsaves').
  pose proof (handleMessageSentSuccess_start env sentMessage wrappedEnvelope
                now m) as Hstart.
  pose proof (handleMessageSentSuccess_unchanged env sentMessage
                wrappedEnvelope now m) as [Htimer Hid].
  split; [exact Hsent |]. split; [exact Hsynced |].
  split; [exact Hexpires |]. split; [exact Hsaves |].
  split; [| split; [| split]].
  - intros Htrigger.
    unfold triggersSync at 1. rewrite Hsent, Htrigger, orb_true_r.
    cbn [negb]. rewrite andb_false_r. reflexivity.
  - rewrite Hsaves'. unfold restartsAt. rewrite Hstart, Htimer, Hid.
    replace (bool_decide (Some now = Some now')) with (Z.eqb now' now);
      [reflexivity |].
    destruct (Z.eqb_spec now' now) as [-> | Hne].
    + symmetry. apply bool_decide_eq_true_2. reflexivity.
    + symmetry. apply bool_decide_eq_false_2. congruence.
  - intros H. rewrite Hsent', Hsent, H. reflexivity.
  - intros H. rewrite Hsynced', Hsynced, H. reflexivity.
Qed.

Section SyncWitness.
Local Open Scope Z_scope.
(** A message with a five-second timer sent to a group of two: the first
    success, at time 1000, saves it three times, the second, at time 2000,
    twice, and the deadline moves from 6000 to 7000. *)
Example handleMessageSentSuccess_saves_sample :
  let m := sampleOutgoing "m1" "group-1" ["05alice"; "05bob"] in
  let first :=
    MessageModel.handleMessageSentSuccess sampleEnv
      (sampleSentMessage "05alice") true 1000 m in
  let second :=
    MessageModel.handleMessageSentSuccess sampleEnv
      (sampleSentMessage "05bob") true 2000 (final first) in
  saves (trace first) = 3%nat /\ saves (trace second) = 2%nat
  /\ MessageAttributes.expires_at (final first) = Some 6000
  /\ MessageAttributes.expires_at (final second) = Some 7000.
Proof. repeat split; reflexivity. Qed.
End SyncWitness.

(** ** Read marking of a conversation *)

Lemma mapAsync_run {S A B} (f : A -> Async S B) (g : A -> B)
    (h : A -> S -> S) (tr : A -> list Effect) (l : list A) (s : S) :
  (forall x s', f x s' = (Returned (g x), h x s', tr x)) ->
  ConversationModel.mapAsync f l s
  = (Returned (map g l), foldl (fun s' x => h x s') s l, concat (map tr l)).
Proof.
  intros Hf. revert s. induction l as [| x l IH]; intros s; [reflexivity |].
  simpl. unfold bind. rewrite Hf, IH. unfold ret. simpl.
  rewrite app_nil_r. reflexivity.
Qed.

Lemma markedRead_fields (env : Collaborators)
    (options : ConversationModel.MarkReadOptions) (now : Z)
    (m : MessageAttributes.t) :
  let m' := markedRead env options now m in
  MessageAttributes.id m' = MessageAttributes.id m
  /\ MessageAttributes.unread m' = false
  /\ MessageAttributes.conversationId m' = MessageAttributes.conversationId m
  /\ MessageAttributes.received_at m' = MessageAttributes.received_at m.
Proof.
  cbv zeta. unfold markedRead. rewrite message_markRead_run. cbv zeta.
  unfold final. cbn [fst snd].
  destruct (truthyNum (MessageAttributes.expireTimer m)
            && negb (truthyNum (MessageAttributes.expirationStartTimestamp m)));
    [| repeat split; reflexivity].
  match goal with
  | |- context [afterStart ?b ?x] =>
      destruct (afterStart_cases b x) as [-> | ->]
  end; repeat split; reflexivity.
Qed.

(** What the read items of [markRead] keep of a message is what it held. *)
Lemma markedRead_item (env : Collaborators)
    (options : ConversationModel.MarkReadOptions) (now : Z)
    (m : MessageAttributes.t) :
  let m' := markedRead env options now m in
  MessageAttributes.source m' = MessageAttributes.source m
  /\ MessageAttributes.sent_at m' = MessageAttributes.sent_at m
  /\ MessageAttributes.errors m' = MessageAttributes.errors m.
Proof.
  cbv zeta. unfold markedRead. rewrite message_markRead_run. cbv zeta.
  unfold final. cbn [fst snd].
  destruct (truthyNum (MessageAttributes.expireTimer m)
            && negb (truthyNum (MessageAttributes.expirationStartTimestamp m)));
    [| repeat split; reflexivity].
  match goal with
  | |- context [afterStart ?b ?x] =>
      destruct (afterStart_cases b x) as [-> | ->]
  end; repeat split; reflexivity.
Qed.

(** Saving the same row twice is saving it once. *)
Lemma upsert_idempotent (row : MessageAttributes.t)
    (rows : list MessageAttributes.t) :
  ConversationModel.upsert row (ConversationModel.upsert row rows)
  = ConversationModel.upsert row rows.
Proof.
  induction rows as [| r rows IH]; simpl.
  - rewrite bool_decide_eq_true_2; reflexivity.
  - case_bool_decide as Hid; simpl.
    + rewrite bool_decide_eq_true_2; reflexivity.
    + rewrite (bool_decide_eq_false_2 _ Hid), IH. reflexivity.
Qed.

(** The save of the listener writes the row that [markRead] saves at its
    end: the table is as after one save. *)
Lemma persist_markRead (env : Collaborators) (readAt : option Z) (now : Z)
    (m : MessageAttributes.t) (rows : list MessageAttributes.t) :
  ConversationModel.persist env
    (trace (MessageModel.markRead env readAt now m)) rows
  = ConversationModel.saveMessage env
      (final (MessageModel.markRead env readAt now m)) rows.
Proof.
  rewrite message_markRead_run. cbv zeta. unfold trace, final. cbn [fst snd].
  destruct (truthyNum (MessageAttributes.expireTimer m)
            && negb (truthyNum (MessageAttributes.expirationStartTimestamp m)));
    [| reflexivity].
  unfold afterStart, listenerTrace.
  destruct (restarts _ _); cbn [andb]; [| reflexivity].
  cbn [MessageAttributes.id MessageAttributes.set_expirationStartTimestamp
         MessageAttributes.set_unread].
  destruct (MessageAttributes.id m) as [i |] eqn:Hid; [| reflexivity].
  destruct (truthyOptStr (Some i)); [| reflexivity].
  unfold ConversationModel.persist. cbn [foldl app].
  unfold ConversationModel.saveMessage.
  cbn [MessageAttributes.id withDeadline MessageAttributes.set_expires_at
         MessageAttributes.set_expirationStartTimestamp
         MessageAttributes.set_unread].
  rewrite Hid. apply upsert_idempotent.
Qed.

Lemma dispatches_markRead (env : Collaborators) (readAt : option Z) (now : Z)
    (m : MessageAttributes.t) :
  dispatches (trace (MessageModel.markRead env readAt now m)) = [].
Proof.
  rewrite message_markRead_run. cbv zeta. unfold trace. cbn [snd].
  rewrite dispatches_app.
  destruct (truthyNum (MessageAttributes.expireTimer m)
            && negb (truthyNum (MessageAttributes.expirationStartTimestamp m)));
    [| reflexivity].
  unfold listenerTrace.
  match goal with
  | |- context [if ?b then _ else _] => destruct b
  end; reflexivity.
Qed.

Lemma NoDup_id_eq (rows : list MessageAttributes.t)
    (r m : MessageAttributes.t) :
  NoDup (map MessageAttributes.id rows) -> r ∈ rows -> m ∈ rows ->
  MessageAttributes.id r = MessageAttributes.id m -> r = m.
Proof.
  induction rows as [| x rows IH]; intros Hnd Hr Hm Hid; [inversion Hr |].
  simpl in Hnd. apply NoDup_cons in Hnd as [Hx Hnd].
  apply elem_of_cons in Hr as [-> | Hr]; apply elem_of_cons in Hm as [-> | Hm].
  - reflexivity.
  - exfalso. apply Hx. rewrite Hid. apply list_elem_of_fmap. eauto.
  - exfalso. apply Hx. rewrite <- Hid. apply list_elem_of_fmap. eauto.
  - auto.
Qed.

(** Saving a row under the id of a row of the table replaces that row. *)
Lemma upsert_replaces (row : MessageAttributes.t)
    (rows : list MessageAttributes.t) :
  NoDup (map MessageAttributes.id rows) ->
  (exists r, r ∈ rows /\ MessageAttributes.id r = MessageAttributes.id row) ->
  ConversationModel.upsert row rows
  = map (fun r =>
           if bool_decide (MessageAttributes.id r = MessageAttributes.id row)
           then row else r) rows.
Proof.
  induction rows as [| x rows IH]; intros Hnd (r & Hr & Hid);
    [inversion Hr |].
  simpl in Hnd. apply NoDup_cons in Hnd as [Hx Hnd]. simpl.
  case_bool_decide as Hxid.
  - f_equal. transitivity (map (fun r => r) rows);
      [symmetry; apply List.map_id | apply map_ext_elem_of].
    intros y Hy. cbv beta. rewrite bool_decide_eq_false_2; [reflexivity |].
    intros Hyid. apply Hx. rewrite Hxid, <- Hyid.
    apply list_elem_of_fmap. eauto.
  - f_equal. apply IH; [exact Hnd |].
    apply elem_of_cons in Hr as [-> | Hr]; [congruence | eauto].
Qed.

(** The table after the rows of [l] have been marked and saved, one by
    one. *)
Lemma marked_table (env : Collaborators)
    (options : ConversationModel.MarkReadOptions) (now : Z)
    (l rows : list MessageAttributes.t) :
  NoDup (map MessageAttributes.id rows) ->
  NoDup (map MessageAttributes.id l) ->
  (forall m, m ∈ l -> m ∈ rows /\ is_Some (MessageAttributes.id m)) ->
  foldl (fun tbl m =>
           ConversationModel.saveMessage env (markedRead env options now m)
             tbl) rows l
  = map (fun r =>
           if bool_decide (MessageAttributes.id r
                           ∈ map MessageAttributes.id l)
           then markedRead env options now r else r) rows.
Proof.
  revert rows. induction l as [| m l IH]; intros rows Hrows Hl Hin.
  - cbn [foldl]. transitivity (map (fun r => r) rows);
      [symmetry; apply List.map_id | apply map_ext_elem_of].
    intros x _. cbv beta. rewrite bool_decide_eq_false_2; [reflexivity |].
    apply not_elem_of_nil.
  - simpl in Hl. apply NoDup_cons in Hl as [Hm Hl].
    destruct (Hin m) as [Hmrows [i Hi]]; [apply elem_of_cons; auto |].
    destruct (markedRead_fields env options now m) as (Hid & _).
    cbn [foldl]. unfold ConversationModel.saveMessage at 2.
    rewrite Hid, Hi.
    rewrite upsert_replaces
      by (first [exact Hrows | exists m; split; [exact Hmrows | congruence]]).
    rewrite IH.
    + rewrite List.map_map. apply map_ext_elem_of. intros r Hr.
      cbv beta. rewrite Hid.
      destruct (decide (MessageAttributes.id r = MessageAttributes.id m))
        as [Hrm | Hrm].
      * assert (r = m) as ->
          by exact (NoDup_id_eq rows r m Hrows Hr Hmrows Hrm).
        rewrite (bool_decide_eq_true_2 _ Hrm), Hid.
        rewrite (bool_decide_eq_false_2 _ Hm).
        rewrite bool_decide_eq_true_2; [reflexivity |].
        simpl. apply elem_of_cons. auto.
      * rewrite (bool_decide_eq_false_2 _ Hrm).
        case_bool_decide as Hrl.
        -- rewrite bool_decide_eq_true_2; [reflexivity |].
           simpl. apply elem_of_cons. auto.
        -- rewrite bool_decide_eq_false_2; [reflexivity |].
           simpl. rewrite elem_of_cons. tauto.
    + rewrite List.map_map.
      erewrite map_ext_elem_of; [exact Hrows |].
      intros r _. cbv beta. case_bool_decide; [congruence | reflexivity].
    + exact Hl.
    + intros m' Hm'. destruct (Hin m') as [Hm'rows Hsome];
        [apply elem_of_cons; auto |].
      split; [| exact Hsome].
      apply list_elem_of_fmap. exists m'. split; [| exact Hm'rows].
      rewrite bool_decide_eq_false_2; [reflexivity |].
      intros Heq. apply Hm. rewrite Hid in Heq. rewrite <- Heq.
      apply list_elem_of_fmap. eauto.
Qed.

Lemma marked_state (env : Collaborators)
    (options : ConversationModel.MarkReadOptions) (now : Z)
    (l : list MessageAttributes.t) (c : ConversationModel.Model) :
  foldl (fun s' x =>
           ConversationModel.setTable
             (ConversationModel.saveMessage env (markedRead env options now x))
             s') c l
  = {| ConversationModel.attributes := ConversationModel.attributes c;
       ConversationModel.typingTimer := ConversationModel.typingTimer c;
       ConversationModel.table :=
         foldl (fun tbl m =>
                  ConversationModel.saveMessage env
                    (markedRead env options now m) tbl)
           (ConversationModel.table c) l |}.
Proof.
  revert c. induction l as [| x l IH]; intros c; [destruct c; reflexivity |].
  cbn [foldl]. rewrite IH. reflexivity.
Qed.

Lemma oldUnread_toMark (conversationId : string) (newestUnreadDate : Z)
    (rows : list MessageAttributes.t) :
  List.filter
    (fun message =>
       Z.leb (MessageAttributes.received_at message) newestUnreadDate)
    (ConversationModel.unreadByConversation conversationId rows)
  = List.filter (toMark conversationId newestUnreadDate) rows.
Proof.
  unfold ConversationModel.unreadByConversation, toMark.
  induction rows as [| x rows IH]; [reflexivity |]. simpl.
  destruct (MessageAttributes.unread x
            && bool_decide (MessageAttributes.conversationId x
                            = conversationId)); simpl; rewrite IH;
    reflexivity.
Qed.

Lemma marked_rows (env : Collaborators)
    (options : ConversationModel.MarkReadOptions) (now : Z)
    (conversationId : string) (newestUnreadDate : Z)
    (rows : list MessageAttributes.t) :
  NoDup (map MessageAttributes.id rows) ->
  (forall row, row ∈ rows -> is_Some (MessageAttributes.id row)) ->
  foldl (fun tbl m =>
           ConversationModel.saveMessage env (markedRead env options now m)
             tbl) rows
    (List.filter (toMark conversationId newestUnreadDate) rows)
  = map (fun row =>
           if toMark conversationId newestUnreadDate row
           then markedRead env options now row else row) rows.
Proof.
  intros Hnd Hsome.
  rewrite marked_table.
  - apply map_ext_elem_of. intros r Hr. cbv beta.
    destruct (toMark conversationId newestUnreadDate r) eqn:Hmark.
    + rewrite bool_decide_eq_true_2; [reflexivity |].
      apply list_elem_of_fmap. exists r. split; [reflexivity |].
      apply elem_of_List_filter. auto.
    + rewrite bool_decide_eq_false_2; [reflexivity |].
      intros Hin. apply list_elem_of_fmap in Hin as (m & Hid & Hm).
      apply elem_of_List_filter in Hm as [Hm HmMark].
      assert (r = m) by exact (NoDup_id_eq rows r m Hnd Hr Hm Hid).
      congruence.
  - exact Hnd.
  - apply NoDup_map_filter, Hnd.
  - intros m Hm. apply elem_of_List_filter in Hm as [Hm _]. auto.
Qed.

(** The unread rows left are those received after the date. *)
Lemma unread_after_marking (env : Collaborators)
    (options : ConversationModel.MarkReadOptions) (now : Z)
    (conversationId : string) (newestUnreadDate : Z)
    (rows : list MessageAttributes.t) :
  ConversationModel.unreadByConversation conversationId
    (map (fun row =>
            if toMark conversationId newestUnreadDate row
            then markedRead env options now row else row) rows)
  = newerUnread conversationId newestUnreadDate rows.
Proof.
  unfold ConversationModel.unreadByConversation, newerUnread.
  induction rows as [| x rows IH]; [reflexivity |].
  cbn [map List.filter]. rewrite IH.
  destruct (toMark conversationId newestUnreadDate x) eqn:Hmark.
  - destruct (markedRead_fields env options now x) as (_ & -> & _).
    unfold toMark in Hmark.
    apply andb_true_iff in Hmark as [Hmark Hle].
    rewrite Hmark. apply Z.leb_le in Hle.
    destruct (Z.ltb_spec newestUnreadDate (MessageAttributes.received_at x));
      [lia | reflexivity].
  - unfold toMark in Hmark.
    destruct (MessageAttributes.unread x
              && bool_decide (MessageAttributes.conversationId x
                              = conversationId)); [| reflexivity].
    cbn [andb] in *.
    rewrite Z.ltb_antisym, Hmark. reflexivity.
Qed.

Lemma promiseAll_final {S A} (f : A -> Async S unit) (l : list A) (s : S) :
  (forall x s', final (f x s') = s') -> final (promiseAll f l s) = s.
Proof.
  intros Hf. revert s. induction l as [| x l IH]; intros s; [reflexivity |].
  simpl. specialize (Hf x s). specialize (IH s). unfold final in *.
  destruct (f x s) as [[r s'] t]. simpl in Hf. subst s'.
  destruct (promiseAll f l s) as [[r' s''] t']. simpl in *. exact IH.
Qed.

Lemma promiseAll_dispatch_elem {S A} (f : A -> Async S unit) (l : list A)
    (s : S) (eff : Effect) :
  eff ∈ dispatches (trace (promiseAll f l s)) ->
  exists x s', x ∈ l /\ eff ∈ dispatches (trace (f x s')).
Proof.
  revert s. induction l as [| x l IH]; intros s.
  - intros H. inversion H.
  - rewrite promiseAll_cons_trace, dispatches_app, elem_of_app.
    intros [H | H].
    + exists x, s. split; [apply elem_of_cons; auto | exact H].
    + destruct (IH _ H) as (y & s' & Hy & Heff).
      exists y, s'. split; [apply elem_of_cons; auto | exact Heff].
Qed.

Lemma read_none (l : list MessageAttributes.t) :
  Nat.eqb
    (length
       (List.filter
          (fun m => truthyOptStr (ConversationModel.sender m))
          (map (fun m =>
                  {| ConversationModel.sender := MessageAttributes.source m;
                     ConversationModel.timestamp := MessageAttributes.sent_at m;
                     ConversationModel.itemHasErrors :=
                       Nat.ltb 0
                         (length (orEmpty (MessageAttributes.errors m))) |})
             l))) 0
  = negb (existsb (fun row => truthyOptStr (MessageAttributes.source row)) l).
Proof.
  induction l as [| x l IH]; [reflexivity |]. simpl.
  destruct (truthyOptStr (MessageAttributes.source x)); simpl;
    [reflexivity | exact IH].
Qed.

Lemma dispatches_marking (env : Collaborators)
    (options : ConversationModel.MarkReadOptions) (now : Z)
    (l : list MessageAttributes.t) :
  dispatches
    (concat
       (map (fun m =>
               trace (MessageModel.markRead env
                        (ConversationModel.readAt options) now m)) l)) = [].
Proof.
  induction l as [| x l IH]; [reflexivity |]. cbn [map concat].
  rewrite dispatches_app, dispatches_markRead, IH. reflexivity.
Qed.

(** The receipts are for rows that were marked, have a sender and carry no
    error. *)
Lemma receipts_from_marked (l : list MessageAttributes.t)
    (receipts : string * list Z) :
  receipts
  ∈ ConversationModel.receiptsBySender
      (List.filter
         (fun item => negb (ConversationModel.itemHasErrors item))
         (List.filter
            (fun m => truthyOptStr (ConversationModel.sender m))
            (map (fun m =>
                    {| ConversationModel.sender := MessageAttributes.source m;
                       ConversationModel.timestamp :=
                         MessageAttributes.sent_at m;
                       ConversationModel.itemHasErrors :=
                         Nat.ltb 0
                           (length (orEmpty (MessageAttributes.errors m))) |})
               l))) ->
  (exists row, row ∈ l
               /\ MessageAttributes.source row = Some receipts.1
               /\ orEmpty (MessageAttributes.errors row) = [])
  /\ (forall ts, ts ∈ receipts.2 ->
        exists row, row ∈ l
                    /\ MessageAttributes.source row = Some receipts.1
                    /\ MessageAttributes.sent_at row = Some ts
                    /\ orEmpty (MessageAttributes.errors row) = []).
Proof.
  unfold ConversationModel.receiptsBySender.
  intros H. apply list_elem_of_fmap in H as (s & -> & Hs). cbn [fst snd].
  assert (Hitem : forall item,
    item ∈ List.filter
             (fun item => negb (ConversationModel.itemHasErrors item))
             (List.filter
                (fun m => truthyOptStr (ConversationModel.sender m))
                (map (fun m =>
                        {| ConversationModel.sender :=
                             MessageAttributes.source m;
                           ConversationModel.timestamp :=
                             MessageAttributes.sent_at m;
                           ConversationModel.itemHasErrors :=
                             Nat.ltb 0
                               (length (orEmpty (MessageAttributes.errors m)))
                        |}) l)) ->
    exists row, row ∈ l
                /\ ConversationModel.sender item = MessageAttributes.source row
                /\ ConversationModel.timestamp item
                   = MessageAttributes.sent_at row
                /\ orEmpty (MessageAttributes.errors row) = []).
  { intros item Hin.
    apply elem_of_List_filter in Hin as [Hin Herr].
    apply elem_of_List_filter in Hin as [Hin _].
    apply list_elem_of_fmap in Hin as (row & -> & Hrow).
    exists row. cbn in *. repeat split; try assumption.
    apply empty_ltb. apply negb_true_iff in Herr. exact Herr. }
  split.
  - apply elem_of_uniq, list_elem_of_omap in Hs as (item & Hin & Hsender).
    destruct (Hitem item Hin) as (row & Hrow & Hsrc & _ & Herr).
    exists row. repeat split; try assumption. congruence.
  - intros ts Hts. apply list_elem_of_omap in Hts as (item & Hin & Hts).
    destruct (Hitem item Hin) as (row & Hrow & Hsrc & Hsent & Herr).
    exists row.
    destruct (bool_decide (ConversationModel.sender item = Some s)) eqn:Hs';
      [| discriminate].
    apply bool_decide_eq_true in Hs'.
    destruct (truthyNum (ConversationModel.timestamp item)); [| discriminate].
    cbn [andb] in Hts.
    repeat split; try assumption; congruence.
Qed.

Lemma markRead_run (env : Collaborators) (newestUnreadDate : Z)
    (options : ConversationModel.MarkReadOptions) (now : Z)
    (c : ConversationModel.Model)  :
  markReadRun env newestUnreadDate options now c
    (ConversationModel.markRead env newestUnreadDate options now c).
Proof.
  unfold ConversationModel.markRead.
  repeat (progress (unfold bind, get, ret, perform,
                      ConversationModel.getUnread,
                      ConversationModel.onMessage;
                    cbv beta iota zeta)).
  match goal with
  | |- context [ConversationModel.mapAsync ?f ?l ?s] =>
      rewrite (mapAsync_run f
                 (fun m =>
                    {| ConversationModel.sender := MessageAttributes.source m;
                       ConversationModel.timestamp := MessageAttributes.sent_at m;
                       ConversationModel.itemHasErrors :=
                         Nat.ltb 0 (length (orEmpty (MessageAttributes.errors m))) |})
                 (fun m s' =>
                    ConversationModel.setTable
                      (ConversationModel.saveMessage env
                         (markedRead env options now m)) s')
                 (fun m =>
                    trace (MessageModel.markRead env
                             (ConversationModel.readAt options) now m)) l s)
  end.
  2: { intros x s'.
       destruct (markedRead_item env options now x) as (Hsrc & Hsent & Herr).
       pose proof (persist_markRead env (ConversationModel.readAt options)
                     now x) as Hsave.
       assert (Hres : result (MessageModel.markRead env
                                (ConversationModel.readAt options) now x)
                      = Returned tt)
         by (rewrite message_markRead_run; reflexivity).
       unfold markedRead, final, result, trace in *.
       destruct (MessageModel.markRead env
                   (ConversationModel.readAt options) now x)
         as [[res m'] t].
       cbn [fst snd] in *. subst res. cbv beta iota zeta. cbn [fst snd].
       rewrite app_nil_r, Hsrc, Hsent, Herr.
       unfold ConversationModel.setTable. rewrite Hsave. reflexivity. }
  rewrite oldUnread_toMark, marked_state.
  rewrite read_none.
  pose proof (dispatches_marking env options now
                (List.filter
                   (toMark
                      (ConversationAttributes.id (ConversationModel.attributes c))
                      newestUnreadDate) (ConversationModel.table c)))
    as Hloop.
  match type of Hloop with
  | dispatches ?t = [] => generalize dependent t; intros marking Hloop
  end.
  destruct (existsb
              (fun row => truthyOptStr (MessageAttributes.source row))
              (List.filter
                 (toMark
                    (ConversationAttributes.id (ConversationModel.attributes c))
                    newestUnreadDate) (ConversationModel.table c)))
    eqn:Hsender; cbn [negb]; cbv beta iota zeta.
  - run_async.
    all: try match goal with
      | |- context [promiseAll ?f ?l ?s] =>
          let Hfin := fresh "Hfin" in
          let Hdisp := fresh "Hdisp" in
          assert (Hfin : final (promiseAll f l s) = s)
            by (apply promiseAll_final; intros x s';
                destruct (pubKeyFails env x.1); [reflexivity |];
                cbv beta iota zeta;
                match goal with
                | |- context [sendToPubKeyFails ?e ?a ?b] =>
                    destruct (sendToPubKeyFails e a b)
                end; reflexivity);
          pose proof (fun eff => promiseAll_dispatch_elem f l s eff) as Hdisp;
          destruct (promiseAll f l s) as [[ra sa] ta];
          unfold final in Hfin; cbn [fst snd] in Hfin; subst sa;
          unfold trace at 1 in Hdisp; cbn [snd] in Hdisp
      end.
    all: unfold markReadRun, final, trace; cbn [fst snd];
      rewrite ?Hsender.
    all: (split; [reflexivity |]); (split; [reflexivity |]);
      (split; [reflexivity |]).
    all: intros eff; rewrite ?dispatches_app, Hloop; cbn; rewrite ?app_nil_r.
    all: intros Hin; try (apply elem_of_nil in Hin; contradiction).
    all: destruct (Hdisp eff Hin) as (x & s' & Hx & Heff);
      apply receipts_from_marked in Hx as [Hrow Hts];
      apply andb_true_iff in Hcond1 as [Hcond1 Hreceipts];
      apply andb_true_iff in Hcond1 as [Hprivate _];
      (split; [exact Hprivate |]); (split; [exact Hcond0 |]);
      (split; [exact Hreceipts |]); (split; [assumption |]);
      exists x.1, x.2; (split; [| split; assumption]);
      revert Heff; destruct (pubKeyFails env x.1);
      [ intros Heff; apply elem_of_nil in Heff; contradiction |];
      cbv beta iota zeta;
      match goal with
      | |- context [sendToPubKeyFails ?e ?a ?b] =>
          destruct (sendToPubKeyFails e a b)
      end;
      cbn; intros Heff; apply list_elem_of_singleton in Heff; exact Heff.
  - autounfold with async. cbv beta iota zeta.
    pose proof (read_none
                  (List.filter
                     (toMark
                        (ConversationAttributes.id
                           (ConversationModel.attributes c))
                        newestUnreadDate) (ConversationModel.table c)))
      as Hnone.
    rewrite Hsender in Hnone. apply Nat.eqb_eq in Hnone. rewrite Hnone.
    cbn [ConversationModel.attributes].
    destruct (Nat.eqb
                (ConversationAttributes.unreadCount
                   (ConversationModel.attributes c)) 0) eqn:Hcached;
      cbn [negb]; cbv beta iota zeta;
      unfold markReadRun, final, trace; cbn [fst snd]; rewrite ?Hsender;
      (split; [reflexivity |]);
      (split; [first [reflexivity | apply Nat.eqb_eq; exact Hcached] |]);
      (split; [reflexivity |]);
      intros eff; rewrite ?dispatches_app, Hloop; cbn;
      intros Hin; apply elem_of_nil in Hin; contradiction.
Qed.

(** X11. On a table whose rows have distinct ids, [markRead] of a
    conversation up to a date marks as read every unread row of the
    conversation received no later than that date, each as [markRead] of the
    message leaves it, and leaves every other row as it is. The unread query
    then gives the unread rows received after the date. When one of the
    marked rows has a sender the counter is set to the number of those rows;
    when none has it is left at, or set to, 0. *)
Theorem markRead_marks_older (env : Collaborators) (newestUnreadDate : Z)
    (options : ConversationModel.MarkReadOptions) (now : Z)
    (c : ConversationModel.Model) :
  let conversationId :=
    ConversationAttributes.id (ConversationModel.attributes c) in
  let rows := ConversationModel.table c in
  let marked := List.filter (toMark conversationId newestUnreadDate) rows in
  let r := ConversationModel.markRead env newestUnreadDate options now c in
  NoDup (map MessageAttributes.id rows) ->
  (forall row, row ∈ rows -> is_Some (MessageAttributes.id row)) ->
  ConversationModel.table (final r)
  = map (fun row =>
           if toMark conversationId newestUnreadDate row
           then final (MessageModel.markRead env
                         (ConversationModel.readAt options) now row)
           else row) rows
  /\ result (ConversationModel.getUnread (final r))
     = Returned (newerUnread conversationId newestUnreadDate rows)
  /\ (forall row, row ∈ ConversationModel.table (final r) ->
        MessageAttributes.conversationId row = conversationId ->
        MessageAttributes.unread row = true ->
        (newestUnreadDate < MessageAttributes.received_at row)%Z)
  /\ ConversationAttributes.unreadCount
       (ConversationModel.attributes (final r))
     = (if existsb (fun row => truthyOptStr (MessageAttributes.source row))
             marked
        then length (newerUnread conversationId newestUnreadDate rows)
        else 0).
Proof.
  intros conversationId rows marked r Hnd Hsome.
  destruct (markRead_run env newestUnreadDate options now c)
    as (Htable & Hcount & Hid & _).
  fold r conversationId rows in Htable, Hcount, Hid.
  rewrite (marked_rows env options now conversationId newestUnreadDate rows
             Hnd Hsome) in Htable.
  assert (Hunread :
    ConversationModel.unreadByConversation conversationId
      (ConversationModel.table (final r))
    = newerUnread conversationId newestUnreadDate rows)
    by (rewrite Htable; apply unread_after_marking).
  split; [exact Htable |].
  split.
  { unfold ConversationModel.getUnread, bind, get, ret, result. cbn [fst snd].
    rewrite Hid, Hunread. reflexivity. }
  split.
  { intros row Hrow Hconv Hun.
    assert (Hin : row ∈ ConversationModel.unreadByConversation conversationId
                          (ConversationModel.table (final r))).
    { apply elem_of_List_filter. split; [exact Hrow |].
      rewrite Hun. apply bool_decide_eq_true. exact Hconv. }
    rewrite Hunread in Hin. apply elem_of_List_filter in Hin as [_ Hin].
    apply andb_true_iff in Hin as [_ Hin]. apply Z.ltb_lt. exact Hin. }
  rewrite Hcount. fold marked. rewrite Hunread. reflexivity.
Qed.

(** The two unread messages of the sample conversation, marked up to
    time 3. *)
Lemma markRead_marks_older_witness :
  ConversationAttributes.unreadCount
    (ConversationModel.attributes
       (final (ConversationModel.markRead sampleEnv 3 sampleMarkReadOptions
                 2000 sampleUnread))) = 1.
Proof.
  exact (proj2 (proj2 (proj2
           (markRead_marks_older sampleEnv 3 sampleMarkReadOptions 2000
              sampleUnread ltac:(apply (bool_decide_unpack _); vm_compute; exact I)
              ltac:(intros row Hrow; vm_compute in Hrow;
                    repeat (apply elem_of_cons in Hrow as [-> | Hrow];
                            [eexists; reflexivity |]);
                    inversion Hrow))))).
Defined.

(** X12. The only dispatches of [markRead] are read receipts. They are
    sent only from a private conversation, when the caller asks for receipts
    and the read-receipt setting is on; each goes to the sender of a row
    that was marked and carries no error, with sent times of such rows of
    that sender. The job that [onReadMessage] queues for a read sync marks
    with [sendReadReceipts: false], and so dispatches nothing. *)
Theorem markRead_read_receipts (env : Collaborators) (newestUnreadDate : Z)
    (options : ConversationModel.MarkReadOptions) (now : Z)
    (message : MessageAttributes.t) (readAt : option Z)
    (c : ConversationModel.Model) :
  let conversationId :=
    ConversationAttributes.id (ConversationModel.attributes c) in
  let marked :=
    List.filter (toMark conversationId newestUnreadDate)
      (ConversationModel.table c) in
  let r := ConversationModel.markRead env newestUnreadDate options now c in
  (forall eff, eff ∈ dispatches (trace r) ->
     ConversationQueries.isPrivate (ConversationModel.attributes c) = true
     /\ ConversationQueries.isPublic (ConversationModel.attributes c) = false
     /\ ConversationModel.sendReadReceipts options = true
     /\ read_receipt_setting env = true
     /\ isReadReceipt now marked eff)
  /\ dispatches (trace (onReadMessageTask env message readAt now c)) = [].
Proof.
  cbv zeta. split.
  - destruct (markRead_run env newestUnreadDate options now c)
      as (_ & _ & _ & Hdisp). exact Hdisp.
  - unfold onReadMessageTask.
    destruct (markRead_run env (MessageAttributes.received_at message)
                {| ConversationModel.sendReadReceipts := false;
                   ConversationModel.readAt := readAt |} now c)
      as (_ & _ & _ & Hdisp).
    destruct (dispatches _) as [| eff t] eqn:Ht; [reflexivity |].
    destruct (Hdisp eff) as (_ & _ & Hfalse & _);
      [rewrite ?Ht; apply elem_of_cons; auto | discriminate].
Qed.

(** ** Emptying a conversation *)

Lemma unread_none_left (conversationId : string)
    (rows : list MessageAttributes.t) :
  ConversationModel.unreadByConversation conversationId
    (ConversationMessages.removeAllMessagesInConversation conversationId rows)
  = [].
Proof.
  unfold ConversationModel.unreadByConversation,
    ConversationMessages.removeAllMessagesInConversation.
  induction rows as [| row rows IH]; [reflexivity |]. simpl.
  case_bool_decide as Hrow; simpl; [exact IH |].
  rewrite bool_decide_eq_false_2 by exact Hrow.
  rewrite andb_false_r. exact IH.
Qed.

(** X19. [destroyMessages] removes the rows of the conversation from the
    message table and no other row, sets [unreadCount] to 0 and
    [mentionedUs] to false, and writes the conversation once; afterwards
    the unread query counts 0 as well, and a [markRead] up to any date only
    clears the notifications: it changes nothing and writes nothing.
    [deleteMessages] destroys the messages when the dialog is confirmed and
    does nothing when it is not; on an open group it throws at once and
    destroys nothing. *)
Theorem destroyMessages_empties (env : Collaborators)
    (newestUnreadDate : Z) (options : ConversationModel.MarkReadOptions)
    (now : Z) (confirmed : bool) (c : ConversationModel.Model) :
  let attrs := ConversationModel.attributes c in
  let conversationId := ConversationAttributes.id attrs in
  let r := ConversationMessages.destroyMessages c in
  let emptied := final r in
  result r = Returned tt
  /\ (forall row,
        row ∈ ConversationModel.table emptied
        <-> row ∈ ConversationModel.table c
            /\ MessageAttributes.conversationId row <> conversationId)
  /\ ConversationModel.attributes emptied
     = ConversationAttributes.set_mentionedUs false
         (ConversationAttributes.set_unreadCount 0 attrs)
  /\ result (ConversationModel.getUnreadCount emptied) = Returned 0
  /\ commits (trace r)
     = [UpdateConversation (ConversationModel.attributes emptied)]
  /\ ConversationModel.markRead env newestUnreadDate options now emptied
     = (Returned tt, emptied, [RemoveNotifications conversationId])
  /\ ConversationMessages.deleteMessages confirmed c
     = (if ConversationQueries.isPublic attrs
        then (Thrown (newError
                "Called deleteMessages() on an open group. Only leave group is supported."),
              c, [])
        else if confirmed then r else (Returned tt, c, [])).
Proof.
  cbv zeta.
  assert (Hrun :
    ConversationMessages.destroyMessages c
    = (Returned tt,
       {| ConversationModel.attributes :=
            ConversationAttributes.set_mentionedUs false
              (ConversationAttributes.set_unreadCount 0
                 (ConversationModel.attributes c));
          ConversationModel.typingTimer := ConversationModel.typingTimer c;
          ConversationModel.table :=
            ConversationMessages.removeAllMessagesInConversation
              (ConversationAttributes.id (ConversationModel.attributes c))
              (ConversationModel.table c) |},
       [Trigger "conversationReset";
        UpdateConversation
          (ConversationAttributes.set_mentionedUs false
             (ConversationAttributes.set_unreadCount 0
                (ConversationModel.attributes c)));
        Trigger "change"])) by reflexivity.
  rewrite Hrun. unfold result, final, trace. cbn [fst snd].
  split; [reflexivity |]. split.
  { intros row. cbn [ConversationModel.table].
    unfold ConversationMessages.removeAllMessagesInConversation.
    rewrite elem_of_List_filter, negb_true_iff, bool_decide_eq_false.
    reflexivity. }
  split; [reflexivity |]. split.
  { unfold ConversationModel.getUnreadCount, bind, get, ret.
    cbn [fst snd ConversationModel.attributes ConversationModel.table
         ConversationAttributes.id ConversationAttributes.set_mentionedUs
         ConversationAttributes.set_unreadCount].
    rewrite unread_none_left. reflexivity. }
  split; [reflexivity |]. split.
  { unfold ConversationModel.markRead.
    autounfold with async. cbv beta iota zeta.
    cbn [ConversationModel.attributes ConversationModel.table
         ConversationAttributes.id ConversationAttributes.set_mentionedUs
         ConversationAttributes.set_unreadCount].
    rewrite unread_none_left. reflexivity. }
  unfold ConversationMessages.deleteMessages.
  unfold bind at 1. unfold get at 1. cbv beta iota zeta.
  destruct (ConversationQueries.isPublic (ConversationModel.attributes c));
    [reflexivity |].
  destruct confirmed; [rewrite Hrun |]; reflexivity.
Qed.

(** ** What reaches the delivery gateway *)

Lemma updateExpirationTimer_run (env : Collaborators) (x : JsVal)
    (source : option string) (receivedAt : option Z)
    (options : ConversationModel.TimerOptions) (now : Z)
    (c : ConversationModel.Model) :
  timerPropagation env x receivedAt now c
    (ConversationModel.updateExpirationTimer env x source receivedAt options
       now c).
Proof.
  destruct (unchangedTimer
              (ConversationAttributes.expireTimer
                 (ConversationModel.attributes c)) x) eqn:Hsame.
  - rewrite (updateExpirationTimer_unchanged _ _ _ _ _ _ _ Hsame).
    unfold timerPropagation, trace. cbn.
    repeat split; auto. intros eff H. inversion H.
  - unfold ConversationModel.updateExpirationTimer.
    unfold unchangedTimer, normalized in Hsame.
    unfold bind at 1. unfold get at 1. cbv beta iota zeta.
    rewrite Hsame. unfold timerPropagation.
    pose proof (sendSyncMessageOnly_untimed env now) as Honly.
    generalize dependent (MessageModel.sendSyncMessageOnly env now).
    intros only Honly.
    destruct (truthy x) eqn:Hx; cbn [negb]; cbv iota; rewrite ?Hx.
    all: split_calls; rewrite ?Honly by reflexivity;
      split_calls; unfold trace; cbn [fst snd];
      unfold ConversationQueries.isMe in *; cbn in *.
    all: repeat split; intros; try congruence; try lia.
    all: try match goal with
           | H : _ ∈ [] |- _ => inversion H
           end.
    all: match goal with
         | H : _ ∈ [_] |- _ => apply list_elem_of_singleton in H; subst
         end.
    all: eexists;
      first [ left; split; [eapply bool_decide_eq_true_1; eassumption |];
              reflexivity
            | right; split; [eapply bool_decide_eq_false_1; eassumption |];
              reflexivity ].
Qed.

(** X13. A change of the timer that was received from somebody else
    ([receivedAt] set) is never sent on, and neither is a change in the
    conversation with ourselves. A change made here goes out at most once:
    to the peer of a private conversation, or to the group, as a timer
    update dated one millisecond before now that carries the new timer, or
    no timer when it was switched off. *)
Theorem updateExpirationTimer_propagation (env : Collaborators) (x : JsVal)
    (source : option string) (receivedAt : option Z)
    (options : ConversationModel.TimerOptions) (now : Z)
    (c : ConversationModel.Model) :
  let attrs := ConversationModel.attributes c in
  let conversationId := ConversationAttributes.id attrs in
  let expireTimer := if truthy x then x else JsUndefined in
  let r :=
    ConversationModel.updateExpirationTimer env x source receivedAt options
      now c in
  (truthyNum receivedAt = true -> dispatches (trace r) = [])
  /\ (ConversationQueries.isMe env attrs = true -> dispatches (trace r) = [])
  /\ length (dispatches (trace r)) <= 1
  /\ (forall eff, eff ∈ dispatches (trace r) ->
        exists identifier,
          (ConversationAttributes.type attrs = "private"
           /\ eff = SendToPubKey conversationId
                      (ExpirationTimerUpdateMessage identifier (now - 1)%Z
                         expireTimer None))
          \/ (ConversationAttributes.type attrs <> "private"
              /\ eff = SendToGroup
                         (ExpirationTimerUpdateMessage identifier (now - 1)%Z
                            expireTimer (Some conversationId)))).
Proof.
  exact (updateExpirationTimer_run env x source receivedAt options now c).
Qed.

Lemma sendMessageJob_run (env : Collaborators)
    (this : ConversationAttributes.t) (now : Z) (m : MessageAttributes.t) :
  jobDispatch env this now m (ConversationModel.sendMessageJob env this now m).
Proof.
  unfold ConversationModel.sendMessageJob, ConversationModel.sendMessageJobTry.
  unfold jobDispatch, jobPayload.
  split_calls; unfold trace, result, final; cbn [fst snd]; cbn.
  all: repeat split; intros; try congruence; try lia; try reflexivity.
  all: try match goal with
         | H : _ ∈ [] |- _ => inversion H
         | H : _ ∈ [_] |- _ =>
             apply list_elem_of_singleton in H; subst; reflexivity
         end.
  all: try match goal with
         | H : _ \/ _ |- _ => destruct H; congruence
         end.
Qed.

(** X14. [sendMessageJob] starts with the upload and hands the message to
    the delivery gateway at most once, in the form of the kind of
    conversation: an open-group message to an open group, a chat message (or
    a group invitation) to the peer of a private conversation, a closed-group
    message to a medium group. It does so whenever the upload and the key of
    the destination go through. A conversation of none of these kinds (a
    legacy closed group) gets no dispatch: the job resolves with [null] and
    the message is left in error. *)
Theorem sendMessageJob_dispatches_once (env : Collaborators)
    (this : ConversationAttributes.t) (now : Z) (m : MessageAttributes.t) :
  let r := ConversationModel.sendMessageJob env this now m in
  let payload := jobPayload this now m in
  head (trace r) = Some (UploadData (MessageAttributes.id m))
  /\ (forall eff, eff ∈ dispatches (trace r) -> payload = Some eff)
  /\ length (dispatches (trace r)) <= 1
  /\ (uploadFails env m = None ->
      ConversationQueries.isPublic this = true
      \/ pubKeyFails env (ConversationAttributes.id this) = None ->
      dispatches (trace r) = option_list payload)
  /\ (uploadFails env m = None ->
      pubKeyFails env (ConversationAttributes.id this) = None ->
      payload = None ->
      result r = Returned RetNull
      /\ MessageModel.getMessagePropStatus env (final r) = Some "error")
  /\ (payload = None
      <-> ConversationQueries.isPublic this = false
          /\ ConversationQueries.isPrivate this = false
          /\ ConversationQueries.isMediumGroup this = false).
Proof.
  cbv zeta.
  destruct (sendMessageJob_run env this now m) as (H1 & H2 & H3 & H4 & H5).
  repeat (split; [assumption |]).
  unfold jobPayload.
  destruct (ConversationQueries.isPublic this),
    (ConversationQueries.isPrivate this),
    (ConversationQueries.isMediumGroup this);
    split; try discriminate; try tauto; intros (? & ? & ?); discriminate.
Qed.

(** ** Sending while offline *)

(** X20. The error that [sendMessage] saves on a message while offline is
    an outgoing error of the conversation: it is stored with the name
    ['SendMessageNetworkError'] and the id of the conversation as number, it
    puts the message in error, and [resend] for that number finds it.
    In a private conversation with somebody else, a [resend] whose upload,
    key and dispatch go through hands the message to that peer once, and
    leaves the errors the message had before the send, less the outgoing
    errors for that number. *)
Theorem offline_send_can_be_resent (env : Collaborators)
    (this : ConversationAttributes.t) (now : Z) (m : MessageAttributes.t) :
  let number := ConversationAttributes.id this in
  let error := networkUnavailable this in
  let saved := final (MessageModel.saveErrors env (inr [error]) m) in
  let r := MessageModel.resend env this number now saved in
  MessageAttributes.errors saved
  = Some (pick error :: orEmpty (MessageAttributes.errors m))
  /\ MessageModel.isOutgoingError number (pick error) = true
  /\ MessageModel.getMessagePropStatus env saved = Some "error"
  /\ result (MessageModel.removeOutgoingErrors number saved)
     = Returned (Some (pick error))
  /\ (ConversationQueries.isPrivate this = true ->
      isUsFromCache env number = false ->
      (forall attrs, uploadFails env attrs = None) ->
      pubKeyFails env number = None ->
      (forall payload, sendToPubKeyFails env number payload = None) ->
      result r = Returned RetUndefined
      /\ dispatchedTo (trace r) = [number]
      /\ MessageAttributes.errors (final r)
         = Some (List.filter
                   (fun e => negb (MessageModel.isOutgoingError number e))
                   (orEmpty (MessageAttributes.errors m)))).
Proof.
  cbv zeta. rewrite saveErrors_final. cbn [providedList map app].
  change (stored (networkUnavailable this))
    with (pick (networkUnavailable this)).
  assert (Hmatch : MessageModel.isOutgoingError (ConversationAttributes.id this)
                     (pick (networkUnavailable this)) = true).
  { apply isOutgoingError_iff. cbn. auto. }
  split; [reflexivity |]. split; [exact Hmatch |].
  split; [apply status_error_iff; discriminate |].
  split.
  { rewrite removeOutgoingErrors_run. unfold result. cbn [fst].
    cbn [MessageAttributes.errors MessageAttributes.set_errors orEmpty
         default from_option id List.filter].
    rewrite Hmatch. reflexivity. }
  intros Hprivate Hus Hupload Hkey Hsend.
  match goal with
  | |- context [MessageModel.resend ?e ?c ?n ?t ?s] =>
      remember (MessageModel.resend e c n t s) as run eqn:Hrun
  end.
  unfold MessageModel.resend in Hrun. unfold bind at 1 in Hrun.
  rewrite removeOutgoingErrors_run in Hrun.
  cbn [MessageAttributes.errors MessageAttributes.set_errors orEmpty
       default from_option id List.filter] in Hrun.
  rewrite Hmatch in Hrun. cbn [negb head] in Hrun.
  repeat (autounfold with async in Hrun; cbv beta iota zeta in Hrun).
  rewrite Hupload in Hrun.
  cbv beta iota zeta in Hrun. rewrite Hus in Hrun.
  cbv beta iota zeta in Hrun. rewrite Hkey in Hrun.
  cbv beta iota zeta in Hrun. rewrite Hprivate in Hrun.
  cbv beta iota zeta in Hrun. rewrite Hsend in Hrun.
  subst run. repeat split.
Qed.

(** ** The local typing indicator *)

Lemma sendTypingMessage_dispatch (env : Collaborators)
    (settings : LocalTyping.Settings) (this : ConversationAttributes.t)
    (isTyping : bool) (now : Z) (timers : LocalTyping.Timers) (eff : Effect) :
  eff ∈ trace (LocalTyping.sendTypingMessage env settings this isTyping now
                 timers) ->
  ConversationQueries.isPrivate this = true
  /\ LocalTyping.primaryDevicePubKey settings
     <> Some (ConversationAttributes.id this)
  /\ eff = SendToPubKey (ConversationAttributes.id this)
             (TypingMessage isTyping now).
Proof.
  unfold LocalTyping.sendTypingMessage.
  split_calls; unfold trace; cbn; intros H;
    first [ inversion H; fail
          | apply list_elem_of_singleton in H; subst ].
  destruct (ConversationQueries.isPrivate this); [| discriminate].
  split; [reflexivity |]. split; [| reflexivity].
  apply negb_false_iff in Hcond0. rewrite Hcond0 in Hcond1.
  cbn [andb] in Hcond1. apply bool_decide_eq_false_1 in Hcond1. exact Hcond1.
Qed.

(** X15. [bumpTyping] does nothing at all in an open group, in a medium
    group, with the typing-indicators setting off, and in a blocked
    conversation: no timer, no message. A typing message is only ever sent
    from a private conversation, to its peer, and never to our own primary
    device; a keystroke sends one, with [isTyping] true, only when no
    refresh timer is running. *)
Theorem bumpTyping_suppressed (env : Collaborators)
    (settings : LocalTyping.Settings) (this : ConversationAttributes.t)
    (now : Z) (timers : LocalTyping.Timers) :
  let r := LocalTyping.bumpTyping env settings this now timers in
  (ConversationQueries.isPublic this = true
   \/ ConversationQueries.isMediumGroup this = true
   \/ LocalTyping.typing_indicators_setting settings = false
   \/ LocalTyping.isBlocked env settings this = true ->
   r = (Returned tt, timers, []))
  /\ (forall isTyping eff,
        eff ∈ dispatches
                (trace (LocalTyping.sendTypingMessage env settings this
                          isTyping now timers)) ->
        ConversationQueries.isPrivate this = true
        /\ LocalTyping.primaryDevicePubKey settings
           <> Some (ConversationAttributes.id this)
        /\ eff = SendToPubKey (ConversationAttributes.id this)
                   (TypingMessage isTyping now))
  /\ (forall eff,
        eff ∈ dispatches (trace r) ->
        LocalTyping.typingRefreshTimer timers = None
        /\ ConversationQueries.isPrivate this = true
        /\ LocalTyping.isBlocked env settings this = false
        /\ LocalTyping.primaryDevicePubKey settings
           <> Some (ConversationAttributes.id this)
        /\ eff = SendToPubKey (ConversationAttributes.id this)
                   (TypingMessage true now)).
Proof.
  cbv zeta. split; [| split].
  - unfold LocalTyping.bumpTyping.
    intros [-> | [-> | [-> | ->]]]; rewrite ?orb_true_r; try reflexivity.
    all: destruct (ConversationQueries.isPublic this
                   || ConversationQueries.isMediumGroup this);
      rewrite ?orb_true_r; reflexivity.
  - intros isTyping eff Hin.
    apply elem_of_List_filter in Hin as [Hin _].
    exact (sendTypingMessage_dispatch _ _ _ _ _ _ _ Hin).
  - intros eff. unfold LocalTyping.bumpTyping.
    destruct (ConversationQueries.isPublic this
              || ConversationQueries.isMediumGroup this);
      [intros H; inversion H |].
    destruct (LocalTyping.typing_indicators_setting settings); cbn [negb orb];
      [| intros H; inversion H].
    destruct (LocalTyping.isBlocked env settings this);
      [intros H; inversion H |].
    unfold bind at 1. unfold get at 1. cbv beta iota zeta.
    destruct timers as [[refresh |] pause]; cbn [LocalTyping.typingRefreshTimer].
    + rewrite bool_decide_eq_true_2 by eauto. cbn [negb].
      unfold LocalTyping.setTypingPauseTimer. run_async; cbn;
        intros H; inversion H.
    + rewrite bool_decide_eq_false_2 by (intros [? ?]; discriminate).
      cbn [negb].
      unfold LocalTyping.setTypingRefreshTimer, LocalTyping.setTypingPauseTimer,
        LocalTyping.sendTypingMessage.
      split_calls; unfold trace; cbn; intros H;
        first [ inversion H; fail
              | apply list_elem_of_singleton in H; subst ].
      all: destruct (ConversationQueries.isPrivate this); [| discriminate].
      all: repeat split.
      all: match goal with
           | H0 : negb (truthyStr _) = false,
             H1 : truthyStr _ && bool_decide _ = false |- _ =>
               apply negb_false_iff in H0; rewrite H0 in H1;
               cbn [andb] in H1; apply bool_decide_eq_false_1 in H1; exact H1
           end.
Qed.

Lemma signals_app (t t' : list Effect) :
  LocalTyping.signals (t ++ t')
  = LocalTyping.signals t ++ LocalTyping.signals t'.
Proof.
  induction t as [| eff t IH]; [reflexivity |]. simpl.
  destruct eff as [| | | k [] | | | | | | | |]; simpl; rewrite ?IH;
    reflexivity.
Qed.

Lemma lastFlag_app (typing : bool) (l l' : list bool) :
  lastFlag typing (l ++ l') = lastFlag (lastFlag typing l) l'.
Proof.
  unfold lastFlag. destruct l' as [| b l'] using rev_ind.
  - rewrite app_nil_r. reflexivity.
  - rewrite app_assoc, !last_snoc. reflexivity.
Qed.

Lemma alternates_app (typing : bool) (l l' : list bool) :
  alternates typing (l ++ l')
  <-> alternates typing l /\ alternates (lastFlag typing l) l'.
Proof.
  revert typing. induction l as [| b l IH]; intros typing.
  - simpl. unfold lastFlag. simpl. tauto.
  - cbn [app alternates]. rewrite IH.
    replace (lastFlag typing (b :: l)) with (lastFlag b l); [tauto |].
    unfold lastFlag. destruct l as [| b0 l]; [reflexivity |].
    change (last (b :: b0 :: l)) with (last (b0 :: l)).
    destruct (last (b0 :: l)) eqn:E; [reflexivity |].
    apply last_None in E. discriminate.
Qed.

Ltac typing_finish :=
  repeat split; intros;
  repeat match goal with
    | H : negb _ = true |- _ => apply negb_true_iff in H
    | H : negb _ = false |- _ => apply negb_false_iff in H
    end;
  repeat match goal with
    | H : is_Some None |- _ => destruct H; discriminate
    | H : ?b = true, Hc : context [?b] |- _ =>
        first [constr_eq H Hc; fail 1 | progress rewrite H in Hc]
    | H : ?b = false, Hc : context [?b] |- _ =>
        first [constr_eq H Hc; fail 1 | progress rewrite H in Hc]
    | H : ?b = true |- context [?b] => rewrite H
    | H : ?b = false |- context [?b] => rewrite H
    end;
  cbn in *; rewrite ?andb_false_r in *;
  repeat match goal with
    | H : bool_decide _ = true |- _ => apply bool_decide_eq_true_1 in H
    | H : bool_decide _ = false |- _ => apply bool_decide_eq_false_1 in H
    | H : negb _ = true |- _ => apply negb_true_iff in H
    | H : negb _ = false |- _ => apply negb_false_iff in H
    | H : _ && _ = true |- _ => apply andb_true_iff in H as [? ?]
    end;
  try discriminate; try congruence; eauto; try tauto;
  try match goal with
    | H : is_Some None |- _ => destruct H; discriminate
    | H : ?P, H0 : ~ ?P |- _ => contradiction
    | H : LocalTyping.due ?x _ = true, H0 : ~ is_Some ?x |- _ =>
        destruct x; [exfalso; apply H0; eauto | discriminate]
    | H : is_Some ?x -> negb (bool_decide ?P) && _ = true -> _,
      H0 : ?P |- _ =>
        exfalso; revert H0; clear; intros H0; tauto
    | H : is_Some ?x -> negb (bool_decide ?P) && _ = true -> _,
      H0 : ~ ?P |- _ =>
        rewrite (bool_decide_eq_false_2 P H0) in H; eauto
    end.

Lemma typing_step (env : Collaborators) (settings : LocalTyping.Settings)
    (this : ConversationAttributes.t) (timers timers' : LocalTyping.Timers)
    (typing : bool) (ev : LocalTyping.Event) (t : list Effect) :
  typingInvariant env settings this timers typing ->
  LocalTyping.step env settings this timers ev = Some (timers', t) ->
  alternates typing (LocalTyping.signals t)
  /\ typingInvariant env settings this timers'
       (lastFlag typing (LocalTyping.signals t)).
Proof.
  unfold typingInvariant, typingGoesOut.
  intros [Hpause Hrefresh] Hstep.
  destruct timers as [refresh pause].
  cbn [LocalTyping.typingRefreshTimer LocalTyping.typingPauseTimer] in *.
  destruct ev as [now | now | now |];
    cbn [LocalTyping.step LocalTyping.typingRefreshTimer
         LocalTyping.typingPauseTimer] in Hstep.
  - injection Hstep as <- <-. revert Hpause Hrefresh.
    unfold LocalTyping.bumpTyping, LocalTyping.setTypingRefreshTimer,
      LocalTyping.setTypingPauseTimer, LocalTyping.sendTypingMessage,
      LocalTyping.isBlocked.
    split_calls; unfold trace, final, lastFlag; cbn.
    all: intros Hpause Hrefresh.
    all: typing_finish.
  - destruct (LocalTyping.due refresh now) eqn:Hdue; [| cbv iota in Hstep; discriminate].
    injection Hstep as <- <-. revert Hpause Hrefresh.
    unfold LocalTyping.onTypingRefreshTimeout,
      LocalTyping.setTypingRefreshTimer, LocalTyping.sendTypingMessage.
    split_calls; unfold trace, final, lastFlag; cbn.
    all: intros Hpause Hrefresh.
    all: typing_finish.
  - destruct (LocalTyping.due pause now) eqn:Hdue; [| cbv iota in Hstep; discriminate].
    injection Hstep as <- <-. revert Hpause Hrefresh.
    unfold LocalTyping.onTypingPauseTimeout, LocalTyping.clearTypingTimers,
      LocalTyping.sendTypingMessage.
    split_calls; unfold trace, final, lastFlag; cbn.
    all: intros Hpause Hrefresh.
    all: typing_finish.
  - injection Hstep as <- <-. revert Hpause Hrefresh.
    unfold LocalTyping.clearTypingTimers.
    split_calls; unfold trace, final, lastFlag; cbn.
    all: intros Hpause Hrefresh.
    all: typing_finish.
Qed.

Lemma typing_run (env : Collaborators) (settings : LocalTyping.Settings)
    (this : ConversationAttributes.t) (evs : list LocalTyping.Event)
    (timers timers' : LocalTyping.Timers) (typing : bool) (t : list Effect) :
  typingInvariant env settings this timers typing ->
  LocalTyping.run env settings this timers evs = Some (timers', t) ->
  alternates typing (LocalTyping.signals t)
  /\ typingInvariant env settings this timers'
       (lastFlag typing (LocalTyping.signals t)).
Proof.
  revert timers typing t.
  induction evs as [| ev evs IH]; intros timers typing t Hinv Hrun.
  - injection Hrun as <- <-. split; [exact I | exact Hinv].
  - cbn [LocalTyping.run] in Hrun.
    destruct (LocalTyping.step env settings this timers ev)
      as [[timers1 t1] |] eqn:Hstep; [| discriminate].
    destruct (LocalTyping.run env settings this timers1 evs)
      as [[timers2 t2] |] eqn:Hrest; [| discriminate].
    injection Hrun as <- <-.
    destruct (typing_step _ _ _ _ _ _ _ _ Hinv Hstep) as [Halt1 Hinv1].
    destruct (IH _ _ _ Hinv1 Hrest) as [Halt2 Hinv2].
    rewrite signals_app, lastFlag_app. split; [| exact Hinv2].
    apply alternates_app. auto.
Qed.

Lemma alternates_lookup (typing : bool) (log : list bool) (i : nat) :
  alternates typing log -> log !! i = Some false ->
  (i = 0 /\ typing = true) \/ exists j, i = S j /\ log !! j = Some true.
Proof.
  revert typing i. induction log as [| flag log IH]; intros typing i Halt Hi;
    [discriminate |].
  destruct Halt as [Hflag Halt]. destruct i as [| i]; simpl in Hi.
  - injection Hi as ->. left. auto.
  - right. exists i. split; [reflexivity |].
    destruct (IH _ _ Halt Hi) as [[-> ->] | (j & -> & Hj)];
      [reflexivity | exact Hj].
Qed.

(** X16. Whatever the keystrokes, timeouts and sent messages of a
    conversation, in any order in which the timeouts can come due, the
    typing flags it sends out never hold a [false] that does not come
    straight after a [true]: "stopped typing" is only sent after "typing",
    and never twice in a row. A pause timer is only ever set beside a
    refresh timer, and while a refresh timer is set in a conversation whose
    typing messages go out, the last flag sent was [true]. *)
Theorem typing_signals_alternate (env : Collaborators)
    (settings : LocalTyping.Settings) (this : ConversationAttributes.t)
    (evs : list LocalTyping.Event) (timers : LocalTyping.Timers)
    (t : list Effect) :
  LocalTyping.run env settings this LocalTyping.idle evs = Some (timers, t) ->
  let log := LocalTyping.signals t in
  (forall i, log !! i = Some false ->
     exists j, i = S j /\ log !! j = Some true)
  /\ (is_Some (LocalTyping.typingPauseTimer timers) ->
      is_Some (LocalTyping.typingRefreshTimer timers))
  /\ (is_Some (LocalTyping.typingRefreshTimer timers) ->
      typingGoesOut env settings this = true -> last log = Some true).
Proof.
  intros Hrun log.
  assert (Hidle : typingInvariant env settings this LocalTyping.idle false).
  { split; cbn; intros [? ?]; discriminate. }
  destruct (typing_run _ _ _ _ _ _ _ _ Hidle Hrun) as [Halt [Hpause Hlast]].
  fold log in Halt, Hlast.
  split; [| split; [exact Hpause |]].
  - intros i Hi.
    destruct (alternates_lookup _ _ _ Halt Hi) as [[_ ?] | ?];
      [discriminate | assumption].
  - intros Hrefresh Hout. specialize (Hlast Hrefresh Hout).
    unfold lastFlag in Hlast. destruct (last log) as [[] |];
      [reflexivity | discriminate | discriminate].
Qed.

(** Three keystrokes and the two timeouts that follow them, in a private
    conversation: the third flag sent is "stopped typing", straight after a
    "typing". *)
Lemma typing_signals_alternate_witness :
  let out :=
    default (LocalTyping.idle, [])
      (LocalTyping.run sampleEnv sampleSettings
         (sampleConversation "05bob" "private" []) LocalTyping.idle
         sampleKeystrokes) in
  exists j, 2 = S j /\ LocalTyping.signals out.2 !! j = Some true.
Proof.
  exact (proj1 (typing_signals_alternate sampleEnv sampleSettings
                  (sampleConversation "05bob" "private" []) sampleKeystrokes
                  _ _ eq_refl) 2 eq_refl).
Defined.

(** The three keystrokes send "typing" once; the refresh timeout sends it
    again ten seconds after the first keystroke, before the pause timeout
    sends "stopped typing" ten seconds after the last. *)
Example typing_three_keystrokes :
  option_map (fun out => LocalTyping.signals out.2)
    (LocalTyping.run sampleEnv sampleSettings
       (sampleConversation "05bob" "private" []) LocalTyping.idle
       sampleKeystrokes)
  = Some [true; true; false].
Proof. reflexivity. Qed.

(** ** Validation of a conversation id *)

Lemma hex_not_space (ch : Ascii.ascii) :
  Validation.isHexDigit ch = true -> Validation.isSpace ch = false.
Proof.
  unfold Validation.isHexDigit, Validation.isSpace.
  generalize (Ascii.nat_of_ascii ch). intros n.
  rewrite !orb_true_iff, !andb_true_iff, !Nat.leb_le.
  intros H. rewrite !orb_false_iff, andb_false_iff, !Nat.leb_gt, !Nat.eqb_neq.
  lia.
Qed.

Lemma length_list_ascii (s : string) :
  length (String.list_ascii_of_string s) = String.length s.
Proof. induction s as [| ch s IH]; simpl; congruence. Qed.

Lemma truthyStr_iff (s : string) : truthyStr s = true <-> s <> "".
Proof.
  unfold truthyStr. rewrite negb_true_iff. split.
  - intros H ->. discriminate.
  - intros H. destruct s; [contradiction | reflexivity].
Qed.

Lemma isHex_chars (id : string) :
  Validation.isHex id = true ->
  Forall (fun ch => Validation.isHexDigit ch = true
                    \/ Validation.isSpace ch = true)
    (String.list_ascii_of_string id)
  /\ Exists (fun ch => Validation.isHexDigit ch = true)
       (String.list_ascii_of_string id).
Proof.
  unfold Validation.isHex. generalize (String.list_ascii_of_string id).
  intros chars. rewrite andb_true_iff, Nat.ltb_lt.
  induction chars as [| ch chars IH]; simpl; [intros [H _]; inversion H |].
  destruct (Validation.isSpace ch) eqn:Hspace; simpl.
  - intros H. destruct (IH H) as [Hall Hex].
    split; [constructor; auto | apply Exists_cons_tl, Hex].
  - rewrite andb_true_iff. intros [_ [Hch Hrest]].
    split; [| apply Exists_cons_hd, Hch].
    constructor; [auto |].
    clear IH. induction chars as [| c chars IH]; [constructor |].
    simpl in Hrest. destruct (Validation.isSpace c) eqn:Hc; simpl in Hrest.
    + constructor; auto.
    + apply andb_true_iff in Hrest as [Hc' Hrest]. constructor; auto.
Qed.

Lemma isHex_all_hex (id : string) :
  id <> "" ->
  Forall (fun ch => Validation.isHexDigit ch = true)
    (String.list_ascii_of_string id) ->
  Validation.isHex id = true.
Proof.
  unfold Validation.isHex. intros Hid Hall.
  assert (Hsame :
    List.filter (fun ch => negb (Validation.isSpace ch))
      (String.list_ascii_of_string id)
    = String.list_ascii_of_string id).
  { induction Hall as [| ch chars Hch Hall IH]; [reflexivity |]. simpl.
    rewrite (hex_not_space ch Hch). simpl. f_equal. exact IH. }
  rewrite Hsame, length_list_ascii. apply andb_true_iff. split.
  - apply Nat.ltb_lt. destruct id; [contradiction | simpl; lia].
  - apply forallb_forall. intros ch Hin.
    rewrite Forall_forall in Hall. apply Hall, list_elem_of_In, Hin.
Qed.

(** X21. [validateNumber] answers ['Invalid ID'] exactly for an empty id
    and accepts any other id of a conversation that is not private. The id
    of a private conversation that it accepts has 64 characters, or 66 of
    which the first two are ["05"]; each character is a hexadecimal digit or
    white space, and one at least is a digit. Every id of that length made
    of hexadecimal digits only is accepted. [validate] accepts attributes
    only with an id, with the type ['private'] or ['group'], and when
    [validateNumber] accepts the id of the model. *)
Theorem validateNumber_accepts (this : ConversationAttributes.t) :
  let id := ConversationAttributes.id this in
  let chars := String.list_ascii_of_string id in
  let wellSized :=
    String.length id = 64
    \/ (String.length id = 66 /\ String.prefix "05" id = true) in
  (Validation.validateNumber this = Some "Invalid ID" <-> id = "")
  /\ (id <> "" -> ConversationQueries.isPrivate this = false ->
      Validation.validateNumber this = None)
  /\ (ConversationQueries.isPrivate this = true ->
      Validation.validateNumber this = None ->
      wellSized
      /\ Forall (fun ch => Validation.isHexDigit ch = true
                           \/ Validation.isSpace ch = true) chars
      /\ Exists (fun ch => Validation.isHexDigit ch = true) chars)
  /\ (ConversationQueries.isPrivate this = true ->
      Forall (fun ch => Validation.isHexDigit ch = true) chars ->
      wellSized -> Validation.validateNumber this = None)
  /\ (forall attributes,
        Validation.validate attributes this = None ->
        ConversationAttributes.id attributes <> ""
        /\ (ConversationAttributes.type attributes = "private"
            \/ ConversationAttributes.type attributes = "group")
        /\ Validation.validateNumber this = None).
Proof.
  cbv zeta. unfold Validation.validateNumber.
  split; [| split; [| split; [| split]]].
  - destruct (truthyStr (ConversationAttributes.id this)) eqn:Hid; cbn [negb].
    + apply truthyStr_iff in Hid. split; [| contradiction].
      destruct (ConversationQueries.isPrivate this); cbn [negb];
        [| discriminate].
      destruct (Validation.isHex (ConversationAttributes.id this)); cbn [negb];
        [| discriminate].
      match goal with
      | |- context [if ?b then _ else _] => destruct b
      end; discriminate.
    + split; [intros _ | reflexivity].
      destruct (ConversationAttributes.id this); [reflexivity | discriminate].
  - intros Hid Hprivate. apply truthyStr_iff in Hid.
    rewrite Hid, Hprivate. reflexivity.
  - intros Hprivate. rewrite Hprivate. cbn [negb].
    destruct (truthyStr (ConversationAttributes.id this)); cbn [negb];
      [| discriminate].
    destruct (Validation.isHex (ConversationAttributes.id this)) eqn:Hhex;
      cbn [negb]; [| discriminate].
    destruct (Nat.eqb_spec (String.length (ConversationAttributes.id this))
                (33 * 2)) as [H66 | H66];
      destruct (Nat.eqb_spec (String.length (ConversationAttributes.id this))
                  (32 * 2)) as [H64 | H64];
      destruct (String.prefix "05" (ConversationAttributes.id this)) eqn:H05;
      cbn [negb orb andb]; try discriminate; intros _;
      (split; [| apply isHex_chars, Hhex]); simpl in *; auto.
  - intros Hprivate Hall Hsize. rewrite Hprivate. cbn [negb].
    assert (Hid : ConversationAttributes.id this <> "").
    { intros Heq. rewrite Heq in Hsize. cbn in Hsize.
      destruct Hsize as [? | [? _]]; discriminate. }
    rewrite (proj2 (truthyStr_iff _) Hid). cbn [negb].
    rewrite (isHex_all_hex _ Hid Hall). cbn [negb].
    destruct Hsize as [-> | [-> ->]]; reflexivity.
  - intros attributes. unfold Validation.validate.
    destruct (truthyStr (ConversationAttributes.id attributes)) eqn:Hid,
      (truthyStr (ConversationAttributes.type attributes));
      cbn; try discriminate.
    repeat case_bool_decide; cbn; try discriminate;
      apply truthyStr_iff in Hid;
      unfold Validation.validateNumber;
      match goal with
      | |- context [match ?x with Some _ => _ | None => _ end] =>
          destruct x eqn:Hnum
      end; try discriminate; auto.
Qed.

(** ** Deleting messages of an open group *)

Lemma elem_of_unionIdsFrom (seen l : list Z) (n : Z) :
  n ∈ PublicMessages.unionIdsFrom seen l <-> n ∈ l /\ n ∉ seen.
Proof.
  revert seen. induction l as [| y l IH]; intros seen; simpl.
  - split; [intros H; inversion H | intros [H _]; inversion H].
  - case_bool_decide as Hy.
    + rewrite IH, elem_of_cons. split.
      * intros [? ?]. auto.
      * intros [[-> | ?] ?]; [contradiction | auto].
    + rewrite !elem_of_cons, IH, elem_of_cons. split.
      * intros [-> | [? ?]]; [auto |]. split; [auto | tauto].
      * intros [[-> | ?] ?]; [auto |].
        destruct (decide (n = y)); [auto | right; tauto].
Qed.

Lemma elem_of_unionIds (a b : list Z) (n : Z) :
  n ∈ PublicMessages.unionIds a b <-> n ∈ a \/ n ∈ b.
Proof.
  unfold PublicMessages.unionIds.
  rewrite elem_of_unionIdsFrom, elem_of_app. split; [tauto |].
  intros H. split; [exact H | apply not_elem_of_nil].
Qed.

Lemma elem_of_unionFrom (seen : list string)
    (l : list PublicMessages.Message) (m : PublicMessages.Message) :
  (forall a b, a ∈ l -> b ∈ l ->
               PublicMessages.cid a = PublicMessages.cid b -> a = b) ->
  m ∈ PublicMessages.unionFrom seen l
  <-> m ∈ l /\ PublicMessages.cid m ∉ seen.
Proof.
  revert seen. induction l as [| y l IH]; intros seen Hcid; simpl.
  - split; [intros H; inversion H | intros [H _]; inversion H].
  - assert (Hcid' : forall a b, a ∈ l -> b ∈ l ->
                      PublicMessages.cid a = PublicMessages.cid b -> a = b).
    { intros a b Ha Hb. apply Hcid; apply elem_of_cons; auto. }
    case_bool_decide as Hy.
    + rewrite (IH _ Hcid'), elem_of_cons. split.
      * intros [? ?]. auto.
      * intros [[-> | ?] ?]; [contradiction | auto].
    + rewrite !elem_of_cons, (IH _ Hcid'), elem_of_cons. split.
      * intros [-> | [? ?]]; [auto |]. split; [auto | tauto].
      * intros [[-> | Hm] Hseen]; [auto |].
        destruct (decide (PublicMessages.cid m = PublicMessages.cid y))
          as [Heq | Hne]; [| right; tauto].
        left. apply Hcid; [apply elem_of_cons | apply elem_of_cons |]; auto.
Qed.

Lemma NoDup_unionFrom (seen : list string) (l : list PublicMessages.Message) :
  NoDup (map PublicMessages.cid (PublicMessages.unionFrom seen l))
  /\ forall m, m ∈ PublicMessages.unionFrom seen l ->
               PublicMessages.cid m ∉ seen.
Proof.
  revert seen. induction l as [| y l IH]; intros seen; simpl.
  - split; [constructor | intros m H; inversion H].
  - case_bool_decide as Hy; [apply IH |].
    destruct (IH (PublicMessages.cid y :: seen)) as [Hnd Hseen].
    split.
    + simpl. apply NoDup_cons. split; [| exact Hnd].
      intros Hin. apply list_elem_of_fmap in Hin as (m & Hm & Hin).
      apply (Hseen m Hin). rewrite <- Hm. apply elem_of_cons. auto.
    + intros m Hm. apply elem_of_cons in Hm as [-> | Hm]; [exact Hy |].
      intros Hin. apply (Hseen m Hm). apply elem_of_cons. auto.
Qed.

Lemma promiseAll_run {S A} (f : A -> Async S unit) (h : A -> S -> S)
    (tr : A -> list Effect) (l : list A) (s : S) :
  (forall x s', f x s' = (Returned tt, h x s', tr x)) ->
  promiseAll f l s
  = (Returned tt, foldl (fun s' x => h x s') s l, concat (map tr l)).
Proof.
  intros Hf. revert s. induction l as [| x l IH]; intros s; [reflexivity |].
  simpl. rewrite Hf, IH. reflexivity.
Qed.

Lemma removed_rows (l : list PublicMessages.Message)
    (c : ConversationModel.Model) :
  let c' :=
    foldl (fun s' m =>
             ConversationModel.setTable
               (PublicMessages.removeOne (PublicMessages.id m)) s') c l in
  ConversationModel.attributes c' = ConversationModel.attributes c
  /\ forall row,
       row ∈ ConversationModel.table c'
       <-> row ∈ ConversationModel.table c
           /\ ~ (exists m, m ∈ l
                           /\ PublicMessages.id m = MessageAttributes.id row).
Proof.
  cbv zeta. revert c. induction l as [| x l IH]; intros c.
  - simpl. split; [reflexivity |]. intros row. split; [| tauto].
    intros H. split; [exact H |]. intros (m & Hm & _). inversion Hm.
  - cbn [foldl].
    destruct (IH (ConversationModel.setTable
                    (PublicMessages.removeOne (PublicMessages.id x)) c))
      as [Hattrs Hrows].
    split; [rewrite Hattrs; reflexivity |].
    intros row. rewrite Hrows. cbn [ConversationModel.table
                                     ConversationModel.setTable].
    unfold PublicMessages.removeOne.
    rewrite elem_of_List_filter, negb_true_iff, bool_decide_eq_false.
    split.
    + intros [[Hrow Hx] Hnone]. split; [exact Hrow |].
      intros (m & Hm & Hid). apply elem_of_cons in Hm as [-> | Hm].
      * apply Hx. symmetry. exact Hid.
      * apply Hnone. eauto.
    + intros [Hrow Hnone]. split; [split; [exact Hrow |] |].
      * intros Hid. apply Hnone. exists x.
        split; [apply elem_of_cons; auto | symmetry; exact Hid].
      * intros (m & Hm & Hid). apply Hnone. exists m.
        split; [apply elem_of_cons; auto | exact Hid].
Qed.

Lemma deletePublicMessages_answered (answer : PublicMessages.Deletion)
    (messages : list PublicMessages.Message) (c : ConversationModel.Model) :
  (forall a b, a ∈ messages -> b ∈ messages ->
               PublicMessages.cid a = PublicMessages.cid b -> a = b) ->
  let toDeleteLocally :=
    PublicMessages.unionModels
      (List.filter
         (fun m =>
            match PublicMessages.serverId m with
            | Some n =>
                bool_decide
                  (n ∈ PublicMessages.unionIds
                         (PublicMessages.deletedIds answer)
                         (PublicMessages.ignoredIds answer))
            | None => false
            end) messages)
      (List.filter
         (fun m => negb (truthyNum (PublicMessages.serverId m))) messages) in
  deletedLocally answer messages c
    ((promiseAll (fun m => PublicMessages.removeMessage (PublicMessages.id m))
        toDeleteLocally ;;
      ret toDeleteLocally) c).
Proof.
  intros Hcid toDeleteLocally.
  unfold bind.
  rewrite (promiseAll_run _
             (fun m s' =>
                ConversationModel.setTable
                  (PublicMessages.removeOne (PublicMessages.id m)) s')
             (fun _ => [Trigger "messageDeleted"]))
    by (intros x s'; reflexivity).
  unfold ret. exists toDeleteLocally.
  unfold result, final. cbn [fst snd].
  split; [reflexivity |].
  destruct (removed_rows toDeleteLocally c) as [Hattrs Hrows].
  split; [| split; [apply NoDup_unionFrom | split; [exact Hattrs | exact Hrows]]].
  intros m. subst toDeleteLocally. unfold PublicMessages.unionModels.
  rewrite elem_of_unionFrom.
  - rewrite elem_of_app, !elem_of_List_filter, negb_true_iff.
    split.
    + intros [[[Hm Hin] | [Hm Hinvalid]] _]; (split; [exact Hm |]); auto.
      destruct (PublicMessages.serverId m) as [n |]; [| discriminate].
      apply bool_decide_eq_true, elem_of_unionIds in Hin.
      right. eauto.
    + intros [Hm H]. split; [| apply not_elem_of_nil].
      destruct H as [Hinvalid | (n & Hn & Hin)]; [right; auto |].
      left. split; [exact Hm |]. rewrite Hn.
      apply bool_decide_eq_true, elem_of_unionIds. exact Hin.
  - intros a b Ha Hb. apply Hcid.
    + apply elem_of_app in Ha as [Ha | Ha];
        apply elem_of_List_filter in Ha; tauto.
    + apply elem_of_app in Hb as [Hb | Hb];
        apply elem_of_List_filter in Hb; tauto.
Qed.

(** X22. [deletePublicMessages] asks the server to delete the messages
    that have a server id, when there are any, and then removes locally the
    messages without a server id and those whose server id the server
    reports as deleted or as ignored, each once: the rows with their ids
    leave the table, every other row stays, and the messages removed are
    handed back. A message whose server id the server reports as neither is
    never removed. Without a channel, or when the server call fails, it
    throws before anything is removed. *)
Theorem deletePublicMessages_removes
    (channelAPI : option (list Z -> Completion PublicMessages.Deletion))
    (messages : list PublicMessages.Message) (c : ConversationModel.Model) :
  (forall a b, a ∈ messages -> b ∈ messages ->
               PublicMessages.cid a = PublicMessages.cid b -> a = b) ->
  let r := PublicMessages.deletePublicMessages channelAPI messages c in
  let pending :=
    List.filter (fun m => truthyNum (PublicMessages.serverId m)) messages in
  match channelAPI with
  | None =>
      r = (Thrown (newError "Unable to get public channel API"), c, [])
  | Some deleteMessages =>
      if Nat.ltb 0 (length pending) then
        match deleteMessages (omap PublicMessages.serverId pending) with
        | Thrown e => r = (Thrown e, c, [])
        | Returned answer => deletedLocally answer messages c r
        end
      else
        deletedLocally
          {| PublicMessages.deletedIds := [];
             PublicMessages.ignoredIds := [] |} messages c r
  end.
Proof.
  intros Hcid r pending. subst r pending.
  unfold PublicMessages.deletePublicMessages.
  destruct channelAPI as [deleteMessages |]; [| reflexivity].
  destruct (Nat.ltb 0 _) eqn:Hpending.
  - destruct (deleteMessages _) as [answer | e] eqn:Hanswer.
    + unfold bind at 1. unfold ret at 1. cbv beta iota zeta.
      pose proof (deletePublicMessages_answered answer messages c Hcid)
        as Hrun.
      cbv zeta in Hrun.
      destruct ((promiseAll _ _ ;; ret _) c) as [[res s] t] eqn:Hp.
      cbn [app]. exact Hrun.
    + reflexivity.
  - unfold bind at 1. unfold ret at 1. cbv beta iota zeta.
    pose proof (deletePublicMessages_answered
                  {| PublicMessages.deletedIds := [];
                     PublicMessages.ignoredIds := [] |} messages c Hcid)
      as Hrun.
    cbv zeta in Hrun.
    destruct ((promiseAll _ _ ;; ret _) c) as [[res s] t] eqn:Hp.
    cbn [app]. exact Hrun.
Qed.

(** Both messages of the sample group are removed: the server deletes the
    first, the second never reached it. *)
Lemma deletePublicMessages_removes_witness :
  deletedLocally
    {| PublicMessages.deletedIds := [7%Z]; PublicMessages.ignoredIds := [] |}
    sampleToDelete samplePublicModel
    (PublicMessages.deletePublicMessages (Some sampleChannel) sampleToDelete
       samplePublicModel).
Proof.
  exact (deletePublicMessages_removes (Some sampleChannel) sampleToDelete
           samplePublicModel
           ltac:(intros a b Ha Hb;
                 apply elem_of_cons in Ha as [-> | Ha];
                 [| apply list_elem_of_singleton in Ha as ->];
                 (apply elem_of_cons in Hb as [-> | Hb];
                  [| apply list_elem_of_singleton in Hb as ->]);
                 intros H; first [reflexivity | discriminate H])).
Defined.

Example deletePublicMessages_sample :
  ConversationModel.table
    (final (PublicMessages.deletePublicMessages (Some sampleChannel)
              sampleToDelete samplePublicModel)) = []
  /\ ConversationModel.table
       (final (PublicMessages.deletePublicMessages
                 (Some (fun _ =>
                          Returned {| PublicMessages.deletedIds := [];
                                      PublicMessages.ignoredIds := [] |}))
                 sampleToDelete samplePublicModel))
     = [sampleOutgoing "m1" "publicChat:1@chat.example.org" []].
Proof. split; reflexivity. Qed.

(** ** The left pane *)

Section LeftPane.
Local Open Scope Z_scope.

(** One turn of the loop of [_getLeftPaneLists]. *)
Lemma leftPaneLoop_cons (locale : Selectors.Locale)
    (selectedConversation : option string) (c : Selectors.ConversationType)
    (rest conversations allContacts : list Selectors.ConversationType)
    (index : nat) (unreadCount : Z) :
  Selectors.leftPaneLoop locale selectedConversation (c :: rest) conversations
    allContacts index unreadCount
  = if listed c then
      let shown := decorated locale selectedConversation index c in
      Selectors.leftPaneLoop locale selectedConversation rest
        (conversations ++ [shown])
        (if bool_decide (Selectors.activeAt c <> None)
         then allContacts ++ [shown] else allContacts)
        (S index)
        (if Z.ltb unreadCount 9 && Z.ltb 0 (Selectors.unreadCount c)
         then unreadCount + Selectors.unreadCount c else unreadCount)
    else
      Selectors.leftPaneLoop locale selectedConversation rest conversations
        allContacts index unreadCount.
Proof.
  destruct c as [cid cname ctype cpub cts cact cunread csel cblk cidx clast].
  unfold listed, decorated. cbn.
  destruct (bool_decide (selectedConversation = Some cid)); cbn;
    destruct (Selectors.numberBlocked locale cid),
      (Selectors.groupBlocked locale cid); cbn;
    destruct cpub; cbn;
    destruct (truthyOptStr cname);
    destruct (bool_decide (cname = Some "Unknown group"));
    destruct (truthyNum cts); destruct (truthyNum cact);
    cbn; try reflexivity;
    destruct (bool_decide (cact <> None)); reflexivity.
Qed.

Lemma leftPaneLoop_lists (locale : Selectors.Locale)
    (selectedConversation : option string)
    (sorted conversations allContacts : list Selectors.ConversationType)
    (unreadCount : Z) :
  let r :=
    Selectors.leftPaneLoop locale selectedConversation sorted conversations
      allContacts (length conversations) unreadCount in
  let shown :=
    imap (fun k c =>
            decorated locale selectedConversation (length conversations + k) c)
      (List.filter listed sorted) in
  Selectors.LeftPaneLists.conversations r = conversations ++ shown
  /\ Selectors.LeftPaneLists.contacts r
     = allContacts
       ++ List.filter
            (fun c => bool_decide (Selectors.activeAt c <> None)) shown.
Proof.
  cbv zeta. revert conversations allContacts unreadCount.
  induction sorted as [| c sorted IH];
    intros conversations allContacts unreadCount.
  - simpl. rewrite !app_nil_r. auto.
  - rewrite leftPaneLoop_cons. cbn [List.filter].
    destruct (listed c); [| apply IH]. cbv zeta.
    set (shown := decorated locale selectedConversation (length conversations) c).
    match goal with
    | |- context [Selectors.leftPaneLoop _ _ _ _ ?contacts _ ?u] =>
        destruct (IH (conversations ++ [shown]) contacts u) as [IHc IHa]
    end.
    rewrite length_app, Nat.add_1_r in IHc, IHa. rewrite IHc, IHa.
    rewrite imap_cons, Nat.add_0_r. fold shown.
    assert (Hnext :
      imap (fun k c0 =>
              decorated locale selectedConversation
                (S (length conversations) + k) c0)
        (List.filter listed sorted)
      = imap ((fun k c0 =>
                 decorated locale selectedConversation
                   (length conversations + k) c0) ∘ S)
          (List.filter listed sorted)).
    { apply imap_ext. intros k y _. cbn. f_equal. lia. }
    rewrite Hnext, <- app_assoc. split; [reflexivity |].
    cbn [List.filter].
    change (Selectors.activeAt shown) with (Selectors.activeAt c).
    destruct (bool_decide (Selectors.activeAt c <> None));
      rewrite <- ?app_assoc; reflexivity.
Qed.

Lemma unreadTotal_nonneg (l : list Selectors.ConversationType) :
  0 <= unreadTotal l.
Proof. induction l as [| c l IH]; simpl; lia. Qed.

Lemma leftPaneLoop_unread (locale : Selectors.Locale)
    (selectedConversation : option string)
    (sorted conversations allContacts : list Selectors.ConversationType)
    (index : nat) (unreadCount : Z) :
  let r :=
    Selectors.leftPaneLoop locale selectedConversation sorted conversations
      allContacts index unreadCount in
  let total := unreadTotal (List.filter listed sorted) in
  (9 <= unreadCount -> Selectors.LeftPaneLists.unreadCount r = unreadCount)
  /\ (unreadCount < 9 ->
      Z.min 9 (unreadCount + total) <= Selectors.LeftPaneLists.unreadCount r
      <= unreadCount + total).
Proof.
  cbv zeta. revert conversations allContacts index unreadCount.
  induction sorted as [| c sorted IH];
    intros conversations allContacts index unreadCount.
  - simpl. lia.
  - rewrite leftPaneLoop_cons. cbn [List.filter].
    destruct (listed c); [| apply IH]. cbv zeta. cbn [unreadTotal foldr].
    fold (unreadTotal (List.filter listed sorted)).
    pose proof (unreadTotal_nonneg (List.filter listed sorted)) as Hpos.
    match goal with
    | |- context [Selectors.leftPaneLoop _ _ _ ?convs ?contacts ?i ?u] =>
        destruct (IH convs contacts i u) as [IHhigh IHlow]
    end.
    destruct (Z.ltb_spec unreadCount 9) as [Hlt | Hge];
      destruct (Z.ltb_spec 0 (Selectors.unreadCount c)) as [Hc | Hc];
      cbn [andb] in *; split; intros ?; lia.
Qed.

Lemma unreadTotal_decorated (locale : Selectors.Locale)
    (selectedConversation : option string) (f : nat -> nat)
    (l : list Selectors.ConversationType) :
  unreadTotal
    (imap (fun k c => decorated locale selectedConversation (f k) c) l)
  = unreadTotal l.
Proof.
  revert f. induction l as [| c l IH]; intros f; [reflexivity |].
  rewrite imap_cons. cbn [unreadTotal foldr].
  fold (unreadTotal l).
  fold (unreadTotal
          (imap ((fun k c0 => decorated locale selectedConversation (f k) c0)
                 ∘ S) l)).
  change ((fun k c0 => decorated locale selectedConversation (f k) c0) ∘ S)
    with (fun k c0 => decorated locale selectedConversation ((f ∘ S) k) c0).
  rewrite IH. reflexivity.
Qed.

(** The loop of [_getSessionConversationInfo] stops at the first
    conversation with the selected id. *)
Lemma getSessionConversationInfo_first
    (sorted : list Selectors.ConversationType)
    (selectedConversation : option string) :
  (forall c,
     Selectors._getSessionConversationInfo sorted selectedConversation
     = Some c ->
     exists i,
       sorted !! i = Some c
       /\ forall j c', (j < i)%nat -> sorted !! j = Some c' ->
             selectedConversation <> Some (Selectors.id c'))
  /\ (Selectors._getSessionConversationInfo sorted selectedConversation
      = None ->
      forall c, c ∈ sorted -> selectedConversation <> Some (Selectors.id c)).
Proof.
  induction sorted as [| x sorted [IHsome IHnone]]; cbn.
  - split; [discriminate |]. intros _ c Hc. inversion Hc.
  - case_bool_decide as Hx.
    + split; [| discriminate]. intros c [= <-]. exists 0%nat.
      split; [reflexivity |]. intros j c' Hj. inversion Hj.
    + split.
      * intros c Hinfo. destruct (IHsome c Hinfo) as (i & Hi & Hbefore).
        exists (S i). split; [exact Hi |].
        intros [| j] c' Hj Hc'.
        -- injection Hc' as <-. congruence.
        -- apply (Hbefore j c'); [apply Nat.succ_lt_mono; exact Hj | exact Hc'].
      * intros Hinfo c Hc. apply elem_of_cons in Hc as [-> | Hc];
          [congruence | exact (IHnone Hinfo c Hc)].
Qed.

(** X23. What the left pane lists. The conversations of
    [_getLeftPaneLists] are those of the sorted array that are to be listed
    (an open group once it has a name other than ['Unknown group'], any
    other conversation once it is active), in the order of the array; each
    is shown at its position in the list as [index], selected when its id
    is the selected one, blocked when a block list holds its id, and with a
    ['sending'] placeholder as last message for an open group without a
    timestamp. The contacts are the listed conversations whose [activeAt] is
    defined, in the same order. The conversation that
    [_getSessionConversationInfo] finds is the first of the array with the
    selected id, and none is found only when no conversation of the array
    has that id; when it is to be listed, it is shown selected in the left
    pane. *)
Theorem getLeftPaneLists_lists (locale : Selectors.Locale)
    (sorted : list Selectors.ConversationType)
    (selectedConversation : option string) :
  let r := Selectors._getLeftPaneLists locale sorted selectedConversation in
  let conversations := Selectors.LeftPaneLists.conversations r in
  conversations
  = imap (decorated locale selectedConversation) (List.filter listed sorted)
  /\ Selectors.LeftPaneLists.contacts r
     = List.filter (fun c => bool_decide (Selectors.activeAt c <> None))
         conversations
  /\ (forall k c, conversations !! k = Some c ->
        Selectors.index c = Some k /\ listed c = true)
  /\ map Selectors.id conversations
     = map Selectors.id (List.filter listed sorted)
  /\ (forall c,
        Selectors._getSessionConversationInfo sorted selectedConversation
        = Some c ->
        c ∈ sorted /\ selectedConversation = Some (Selectors.id c)
        /\ (listed c = true ->
            exists k shown,
              conversations !! k = Some shown
              /\ Selectors.id shown = Selectors.id c
              /\ Selectors.isSelected shown = true))
  /\ (forall c,
        Selectors._getSessionConversationInfo sorted selectedConversation
        = Some c ->
        exists i,
          sorted !! i = Some c
          /\ forall j c', (j < i)%nat -> sorted !! j = Some c' ->
                selectedConversation <> Some (Selectors.id c'))
  /\ (Selectors._getSessionConversationInfo sorted selectedConversation
      = None ->
      forall c, c ∈ sorted -> selectedConversation <> Some (Selectors.id c)).
Proof.
  cbv zeta. unfold Selectors._getLeftPaneLists.
  destruct (leftPaneLoop_lists locale selectedConversation sorted [] [] 0)
    as [Hc Ha].
  cbn [length app Nat.add] in Hc, Ha. rewrite Hc, Ha.
  split; [reflexivity |]. split; [reflexivity |].
  split; [| split; [| split]].
  - intros k c Hk. apply list_lookup_imap_Some in Hk as (c0 & Hc0 & ->).
    split; [reflexivity |].
    apply list_elem_of_lookup_2, elem_of_List_filter in Hc0 as [_ Hl].
    unfold listed in *. exact Hl.
  - generalize (List.filter listed sorted). intros l.
    change (decorated locale selectedConversation)
      with (fun k c => decorated locale selectedConversation (id k) c).
    generalize (@id nat). induction l as [| c l IH]; intros f;
      [reflexivity |].
    rewrite imap_cons. cbn [map]. f_equal. apply (IH (f ∘ S)).
  - intros c Hinfo.
    assert (Hfound : c ∈ sorted
                     /\ selectedConversation = Some (Selectors.id c)).
    { clear Hc Ha. induction sorted as [| x sorted IH]; [discriminate |].
      cbn in Hinfo. case_bool_decide as Hx.
      - injection Hinfo as ->. split; [apply elem_of_cons; auto | auto].
      - destruct (IH Hinfo) as [? ?]. split; [apply elem_of_cons |]; auto. }
    destruct Hfound as [Hin Hsel]. split; [exact Hin |].
    split; [exact Hsel |]. intros Hlisted.
    assert (Hin' : c ∈ List.filter listed sorted)
      by (apply elem_of_List_filter; auto).
    apply list_elem_of_lookup_1 in Hin' as [k Hk].
    exists k, (decorated locale selectedConversation k c).
    split; [| split; [reflexivity |]].
    + rewrite list_lookup_imap, Hk. reflexivity.
    + cbn. rewrite bool_decide_eq_true_2 by exact Hsel. reflexivity.
  - exact (getSessionConversationInfo_first sorted selectedConversation).
Qed.

(** X24. The unread badge of the left pane. Conversations are counted in
    the order of the list, and counting stops once 9 is reached: the count
    [_getLeftPaneLists] returns equals the number of unread messages of the
    listed conversations when that number is below 9, and is otherwise at
    least 9 and at most that number. *)
Theorem getLeftPaneLists_unreadCount (locale : Selectors.Locale)
    (sorted : list Selectors.ConversationType)
    (selectedConversation : option string) :
  let r := Selectors._getLeftPaneLists locale sorted selectedConversation in
  let total := unreadTotal (Selectors.LeftPaneLists.conversations r) in
  Z.min 9 total <= Selectors.LeftPaneLists.unreadCount r <= total
  /\ (total < 9 -> Selectors.LeftPaneLists.unreadCount r = total)
  /\ total = unreadTotal (List.filter listed sorted).
Proof.
  cbv zeta. unfold Selectors._getLeftPaneLists.
  destruct (leftPaneLoop_lists locale selectedConversation sorted [] [] 0)
    as [Hc _].
  cbn [length app Nat.add] in Hc. rewrite Hc.
  change (decorated locale selectedConversation)
    with (fun k c => decorated locale selectedConversation (id k) c).
  rewrite unreadTotal_decorated.
  destruct (leftPaneLoop_unread locale selectedConversation sorted [] [] 0 0)
    as [_ Hlow].
  specialize (Hlow ltac:(lia)). cbn [Z.add] in Hlow.
  split; [exact Hlow |]. split; [intros ?; lia | reflexivity].
Qed.

End LeftPane.

Section Comparator.
Local Open Scope Z_scope.

(** X25. The comparator of the left pane is a consistent order whenever
    the collator is one: swapping its arguments negates its result, and it
    is transitive. A conversation with a timestamp (set and not zero) comes
    before every conversation without one, and of two conversations with
    different timestamps the one with the later timestamp comes first. *)
Theorem getConversationComparator_order (locale : Selectors.Locale) :
  (forall a b, Selectors.compare locale a b = - Selectors.compare locale b a) ->
  (forall a b c,
      Selectors.compare locale a b <= 0 -> Selectors.compare locale b c <= 0 ->
      Selectors.compare locale a c <= 0) ->
  let comparator := Selectors._getConversationComparator locale in
  (forall left right, comparator left right = - comparator right left)
  /\ (forall a b c,
        comparator a b <= 0 -> comparator b c <= 0 -> comparator a c <= 0)
  /\ (forall left right,
        truthyNum (Selectors.timestamp left) = true ->
        truthyNum (Selectors.timestamp right) = false ->
        comparator left right < 0)
  /\ (forall left right later earlier,
        Selectors.timestamp left = Some later ->
        Selectors.timestamp right = Some earlier ->
        later <> 0 -> earlier <> 0 -> earlier < later ->
        comparator left right < 0).
Proof.
  intros Hanti Htrans comparator. subst comparator.
  unfold Selectors._getConversationComparator.
  split; [| split; [| split]].
  - intros left right.
    destruct (Selectors.timestamp left) as [l |],
      (Selectors.timestamp right) as [r |]; cbn;
      repeat match goal with
        | |- context [Z.eqb ?a 0] => destruct (Z.eqb_spec a 0); cbn
        end;
      repeat case_bool_decide; cbn; try lia; try congruence; apply Hanti.
  - intros a b c.
    destruct (Selectors.timestamp a) as [ta |],
      (Selectors.timestamp b) as [tb |],
      (Selectors.timestamp c) as [tc |]; cbn;
      repeat match goal with
        | |- context [Z.eqb ?a 0] => destruct (Z.eqb_spec a 0); cbn
        end;
      repeat case_bool_decide; cbn; try lia; try congruence;
      try apply Htrans;
      repeat match goal with
        | H : Some _ = Some _ |- _ => injection H as H
        end;
      try (intros; exfalso;
           first [ lia
                 | match goal with
                   | H : Some _ <> Some _ |- _ => apply H; f_equal; lia
                   end ]).
  - intros left right Hl Hr. rewrite Hl, Hr. cbn. lia.
  - intros left right later earlier -> -> Hl He Hlt. cbn.
    destruct (Z.eqb_spec later 0), (Z.eqb_spec earlier 0); try contradiction.
    cbn. rewrite bool_decide_eq_false_2 by (intros [= ?]; lia). cbn. lia.
Qed.

(** Two conversations that differ in their timestamp only. *)
Lemma getConversationComparator_order_witness :
  Selectors._getConversationComparator sampleLocale
    (sampleProps "05alice" (Some 2000) 0) (sampleProps "05bob" (Some 1000) 0)
  = - Selectors._getConversationComparator sampleLocale
        (sampleProps "05bob" (Some 1000) 0)
        (sampleProps "05alice" (Some 2000) 0).
Proof.
  exact (proj1 (getConversationComparator_order sampleLocale
                  (fun _ _ => eq_refl) (fun _ _ _ _ _ => Z.le_refl 0))
           (sampleProps "05alice" (Some 2000) 0)
           (sampleProps "05bob" (Some 1000) 0)).
Defined.

End Comparator.
(** ** The job chain *)

Import JobQueue.

Lemma chained_empty : chained empty.
Proof.
  split; simpl; try reflexivity.
  all: intros j job H; try (intros i' job' Hi H'); inversion H.
Qed.

Lemma lookup_update (l : list Job) (i j : nat) (old new job : Job) :
  l !! i = Some old -> <[i := new]> l !! j = Some job ->
  (j = i /\ job = new) \/ (j <> i /\ l !! j = Some job).
Proof.
  intros Hold H. destruct (decide (j = i)) as [-> | Hne].
  - rewrite list_lookup_insert_eq in H by (eapply lookup_lt_Some; eauto).
    left. split; congruence.
  - rewrite list_lookup_insert_ne in H by congruence. auto.
Qed.

(** Replacing a promise by one that is settled whenever the old one was
    keeps earlier promises settled. *)
Lemma settledBefore_update (q q' : Queue) (i : nat) (old new : Job) (j : nat) :
  jobs q !! i = Some old ->
  jobs q' = <[i := new]> (jobs q) ->
  (settled (state old) = true -> settled (state new) = true) ->
  settledBefore q j -> settledBefore q' j.
Proof.
  intros Hold Hjobs Hmono H i' job Hlt Hjob. rewrite Hjobs in Hjob.
  destruct (lookup_update _ _ _ _ _ _ Hold Hjob) as [[-> ->] | [_ Hjob']].
  - apply Hmono. exact (H _ _ Hlt Hold).
  - exact (H _ _ Hlt Hjob').
Qed.

Lemma settledBefore_queueJob (q : Queue) (j : nat) :
  j <= length (jobs q) -> settledBefore q j -> settledBefore (queueJob q) j.
Proof.
  intros Hj H i job Hlt Hjob. simpl in Hjob.
  rewrite lookup_app_l in Hjob by lia. exact (H _ _ Hlt Hjob).
Qed.

Lemma chained_queueJob (q : Queue) : chained q -> chained (queueJob q).
Proof.
  intros [Hpend Hprev Hstart Hsett Hlog Hbound Hlogs].
  assert (Hnew : forall j job, jobs (queueJob q) !! j = Some job ->
            (j < length (jobs q) /\ jobs q !! j = Some job)
            \/ (j = length (jobs q)
                /\ job = {| previous := pending q; started := false;
                            state := Pending; cleaned := false |})).
  { intros j job H. simpl in H. apply lookup_app_Some in H.
    destruct H as [H | [Hge H]].
    - left. split; [eapply lookup_lt_Some; eauto | exact H].
    - right. destruct (j - length (jobs q)) as [|k] eqn:E; simpl in H;
        [| destruct k; discriminate].
      split; [lia | congruence]. }
  split; simpl startLog; simpl pending; try assumption.
  - simpl. rewrite length_app. simpl. lia.
  - intros j job H. destruct (Hnew _ _ H) as [[Hlt Hj] | [-> ->]].
    + specialize (Hprev _ _ Hj). destruct (previous job); [exact Hprev |].
      apply settledBefore_queueJob; [lia | exact Hprev].
    + simpl. destruct (pending q) as [p |]; [lia |].
      apply settledBefore_queueJob; [lia | exact Hpend].
  - intros j job H Hs. destruct (Hnew _ _ H) as [[Hlt Hj] | [-> ->]].
    + apply settledBefore_queueJob; [lia | eauto].
    + discriminate.
  - intros j job H Hs. destruct (Hnew _ _ H) as [[Hlt Hj] | [-> ->]].
    + eauto.
    + discriminate.
  - simpl. rewrite length_app. simpl. lia.
  - intros j job H. destruct (Hnew _ _ H) as [[Hlt Hj] | [-> ->]].
    + eauto.
    + simpl. split; [discriminate |].
      intros Hlt. lia.
Qed.

Lemma chained_start (q q' : Queue) (i : nat) :
  chained q -> step q (Start i) = Some q' -> chained q'.
Proof.
  intros [Hpend Hprev Hstart Hsett Hlog Hbound Hlogs] Hstep. simpl in Hstep.
  destruct (jobs q !! i) as [old |] eqn:Hold; [| discriminate].
  destruct (negb (started old) && previousSettled q old) eqn:Hen;
    [| discriminate].
  apply andb_true_iff in Hen. destruct Hen as [Hnot Hps].
  apply negb_true_iff in Hnot.
  injection Hstep as <-.
  set (new := {| previous := previous old; started := true;
                 state := state old; cleaned := cleaned old |}).
  assert (Hlen : i < length (jobs q)) by (eapply lookup_lt_Some; eauto).
  (* everything before [i] has settled *)
  assert (Hbefore : settledBefore q i).
  { specialize (Hprev _ _ Hold). unfold previousSettled in Hps.
    destruct (previous old) as [p |]; [| exact Hprev].
    destruct (jobs q !! p) as [pj |] eqn:Hp; [| discriminate].
    intros i' job Hlt Hjob.
    destruct (decide (i' = p)) as [-> | Hne]; [congruence |].
    apply (Hstart _ _ Hp (Hsett _ _ Hp Hps) i' job); [lia | exact Hjob]. }
  (* so [i] is the next task in the log *)
  assert (Hi : i = length (startLog q)).
  { assert (~ i < length (startLog q)).
    { intros Hlt. apply (Hlogs _ _ Hold) in Hlt. congruence. }
    destruct (decide (length (startLog q) < i)) as [Hgt |]; [| lia].
    destruct (lookup_lt_is_Some_2 (jobs q) (length (startLog q)))
      as [kj Hkj]; [lia |].
    pose proof (Hsett _ _ Hkj (Hbefore _ _ Hgt Hkj)) as Hks.
    apply (Hlogs _ _ Hkj) in Hks. lia. }
  assert (Hmono : forall q' j, jobs q' = <[i := new]> (jobs q) ->
            settledBefore q j -> settledBefore q' j).
  { intros q' j Hjobs. apply (settledBefore_update q q' i old new); auto. }
  split; simpl pending; simpl startLog; simpl jobs.
  - destruct (pending q); [rewrite length_insert; exact Hpend |].
    rewrite length_insert. apply Hmono; [reflexivity | exact Hpend].
  - intros j job Hjob.
    destruct (lookup_update _ _ _ _ _ _ Hold Hjob) as [[-> ->] | [_ Hj]].
    + simpl. specialize (Hprev _ _ Hold).
      destruct (previous old); [exact Hprev | apply Hmono; [reflexivity | exact Hprev]].
    + specialize (Hprev _ _ Hj).
      destruct (previous job); [exact Hprev | apply Hmono; [reflexivity | exact Hprev]].
  - intros j job Hjob Hs.
    destruct (lookup_update _ _ _ _ _ _ Hold Hjob) as [[-> ->] | [_ Hj]].
    + apply Hmono; [reflexivity | exact Hbefore].
    + apply Hmono; [reflexivity | eauto].
  - intros j job Hjob Hs.
    destruct (lookup_update _ _ _ _ _ _ Hold Hjob) as [[-> ->] | [_ Hj]].
    + reflexivity.
    + eauto.
  - rewrite length_app. simpl. rewrite Nat.add_1_r, seq_S. simpl.
    rewrite <- Hlog, <- Hi. reflexivity.
  - rewrite length_app, length_insert. simpl. lia.
  - intros j job Hjob. rewrite length_app. simpl.
    destruct (lookup_update _ _ _ _ _ _ Hold Hjob) as [[-> ->] | [Hne Hj]].
    + simpl. split; [lia | reflexivity].
    + rewrite (Hlogs _ _ Hj). lia.
Qed.

Lemma fulfilled_settled (s : PromiseState) :
  fulfilled s = true -> settled s = true.
Proof. destruct s as [| []]; simpl; congruence. Qed.

Lemma chained_settle (q q' : Queue) (i : nat) (o : Outcome) :
  chained q -> step q (Settle i o) = Some q' -> chained q'.
Proof.
  intros [Hpend Hprev Hstart Hsett Hlog Hbound Hlogs] Hstep. simpl in Hstep.
  destruct (jobs q !! i) as [old |] eqn:Hold; [| discriminate].
  destruct (started old && negb (settled (state old))) eqn:Hen;
    [| discriminate].
  apply andb_true_iff in Hen. destruct Hen as [Hs _].
  injection Hstep as <-.
  set (new := {| previous := previous old; started := started old;
                 state := Settled o; cleaned := cleaned old |}).
  assert (Hmono : forall q' j, jobs q' = <[i := new]> (jobs q) ->
            settledBefore q j -> settledBefore q' j).
  { intros q' j Hjobs. apply (settledBefore_update q q' i old new); auto. }
  split; simpl pending; simpl startLog; simpl jobs;
    rewrite ?length_insert; try assumption.
  - destruct (pending q); [exact Hpend | apply Hmono; [reflexivity | exact Hpend]].
  - intros j job Hjob.
    destruct (lookup_update _ _ _ _ _ _ Hold Hjob) as [[-> ->] | [_ Hj]].
    + simpl. specialize (Hprev _ _ Hold).
      destruct (previous old); [exact Hprev | apply Hmono; [reflexivity | exact Hprev]].
    + specialize (Hprev _ _ Hj).
      destruct (previous job); [exact Hprev | apply Hmono; [reflexivity | exact Hprev]].
  - intros j job Hjob Hst.
    destruct (lookup_update _ _ _ _ _ _ Hold Hjob) as [[-> ->] | [_ Hj]];
      (apply Hmono; [reflexivity | eauto]).
  - intros j job Hjob Hst.
    destruct (lookup_update _ _ _ _ _ _ Hold Hjob) as [[-> ->] | [_ Hj]];
      [exact Hs | eauto].
  - intros j job Hjob.
    destruct (lookup_update _ _ _ _ _ _ Hold Hjob) as [[-> ->] | [_ Hj]];
      [exact (Hlogs _ _ Hold) | eauto].
Qed.

Lemma chained_cleanup (q q' : Queue) (i : nat) :
  chained q -> step q (Cleanup i) = Some q' -> chained q'.
Proof.
  intros [Hpend Hprev Hstart Hsett Hlog Hbound Hlogs] Hstep. simpl in Hstep.
  destruct (jobs q !! i) as [old |] eqn:Hold; [| discriminate].
  destruct (fulfilled (state old) && negb (cleaned old)) eqn:Hen;
    [| discriminate].
  apply andb_true_iff in Hen. destruct Hen as [Hful _].
  apply fulfilled_settled in Hful.
  injection Hstep as <-.
  set (new := {| previous := previous old; started := started old;
                 state := state old; cleaned := true |}).
  assert (Hmono : forall q' j, jobs q' = <[i := new]> (jobs q) ->
            settledBefore q j -> settledBefore q' j).
  { intros q' j Hjobs. apply (settledBefore_update q q' i old new); auto. }
  split; simpl pending; simpl startLog; simpl jobs;
    rewrite ?length_insert; try assumption.
  - case_bool_decide as Hp.
    + apply Hmono; [reflexivity |]. rewrite Hp in Hpend. rewrite <- Hpend.
      intros i' job Hlt Hjob.
      destruct (decide (i' = i)) as [-> | Hne]; [congruence |].
      apply (Hstart _ _ Hold (Hsett _ _ Hold Hful) i' job); [lia | exact Hjob].
    + destruct (pending q); [exact Hpend | apply Hmono; [reflexivity | exact Hpend]].
  - intros j job Hjob.
    destruct (lookup_update _ _ _ _ _ _ Hold Hjob) as [[-> ->] | [_ Hj]].
    + simpl. specialize (Hprev _ _ Hold).
      destruct (previous old); [exact Hprev | apply Hmono; [reflexivity | exact Hprev]].
    + specialize (Hprev _ _ Hj).
      destruct (previous job); [exact Hprev | apply Hmono; [reflexivity | exact Hprev]].
  - intros j job Hjob Hst.
    destruct (lookup_update _ _ _ _ _ _ Hold Hjob) as [[-> ->] | [_ Hj]];
      (apply Hmono; [reflexivity | eauto]).
  - intros j job Hjob Hst.
    destruct (lookup_update _ _ _ _ _ _ Hold Hjob) as [[-> ->] | [_ Hj]];
      [exact (Hsett _ _ Hold Hst) | eauto].
  - intros j job Hjob.
    destruct (lookup_update _ _ _ _ _ _ Hold Hjob) as [[-> ->] | [_ Hj]];
      [exact (Hlogs _ _ Hold) | eauto].
Qed.

Lemma chained_step (q q' : Queue) (ev : Event) :
  chained q -> step q ev = Some q' -> chained q'.
Proof.
  destruct ev as [| i | i o | i].
  - intros H Hstep. injection Hstep as <-. apply chained_queueJob, H.
  - apply chained_start.
  - apply chained_settle.
  - apply chained_cleanup.
Qed.

Lemma chained_run (evs : list Event) (q q' : Queue) :
  chained q -> run q evs = Some q' -> chained q'.
Proof.
  revert q. induction evs as [| ev evs IH]; intros q H Hrun; simpl in Hrun.
  - congruence.
  - destruct (step q ev) as [q1 |] eqn:Hstep; [| discriminate].
    eapply IH; [eapply chained_step; eauto | exact Hrun].
Qed.

Lemma reachable_chained (q : Queue) : reachable q -> chained q.
Proof. intros [evs H]. eapply chained_run; [apply chained_empty | exact H]. Qed.

(** C1. In every state the job chain of a conversation can reach, by any
    sequence of calls to [queueJob] and any interleaving of the event loop:
    the tasks called so far are the first tasks submitted, in submission
    order; a task has been called only if the promise of every task
    submitted before it has settled, so no two tasks are running at once;
    while the promise of an earlier task is pending the event loop cannot
    call a later task; and once the promises of all earlier tasks have
    settled, fulfilled or rejected (by a failure or by the timeout), the
    next task can be called. *)
Theorem queueJob_runs_tasks_in_order (q : Queue) :
  reachable q ->
  startLog q = seq 0 (length (startLog q))
  /\ (forall i j ji jj,
        i < j -> jobs q !! i = Some ji -> jobs q !! j = Some jj ->
        started jj = true -> settled (state ji) = true)
  /\ (forall i j ji jj,
        jobs q !! i = Some ji -> jobs q !! j = Some jj ->
        isRunning ji = true -> isRunning jj = true -> i = j)
  /\ (forall i j ji jj,
        i < j -> jobs q !! i = Some ji -> jobs q !! j = Some jj ->
        settled (state ji) = false -> step q (Start j) = None)
  /\ (forall j jj,
        jobs q !! j = Some jj -> started jj = false ->
        (forall i ji, i < j -> jobs q !! i = Some ji ->
                      settled (state ji) = true) ->
        is_Some (step q (Start j))).
Proof.
  intros Hreach. apply reachable_chained in Hreach.
  destruct Hreach as [Hpend Hprev Hstart Hsett Hlog Hbound Hlogs].
  assert (Hord : forall i j ji jj,
            i < j -> jobs q !! i = Some ji -> jobs q !! j = Some jj ->
            started jj = true -> settled (state ji) = true).
  { intros i j ji jj Hlt Hi Hj Hs. exact (Hstart _ _ Hj Hs _ _ Hlt Hi). }
  split; [exact Hlog |]. split; [exact Hord |]. split; [| split].
  - intros i j ji jj Hi Hj Hri Hrj.
    unfold isRunning in *. apply andb_true_iff in Hri, Hrj.
    destruct Hri as [Hsi Hni], Hrj as [Hsj Hnj].
    apply negb_true_iff in Hni, Hnj.
    destruct (Nat.lt_trichotomy i j) as [Hlt | [Heq | Hgt]]; [| exact Heq |].
    + rewrite (Hord _ _ _ _ Hlt Hi Hj Hsj) in Hni. discriminate.
    + rewrite (Hord _ _ _ _ Hgt Hj Hi Hsi) in Hnj. discriminate.
  - intros i j ji jj Hlt Hi Hj Hpending. simpl. rewrite Hj.
    destruct (negb (started jj) && previousSettled q jj) eqn:Hen;
      [| reflexivity].
    exfalso. apply andb_true_iff in Hen. destruct Hen as [_ Hps].
    specialize (Hprev _ _ Hj). unfold previousSettled in Hps.
    destruct (previous jj) as [p |].
    + destruct (jobs q !! p) as [pj |] eqn:Hp; [| discriminate].
      destruct (decide (i = p)) as [-> | Hne]; [congruence |].
      assert (settled (state ji) = true); [| congruence].
      apply (Hstart _ _ Hp (Hsett _ _ Hp Hps) i ji); [lia | exact Hi].
    + rewrite (Hprev _ _ Hlt Hi) in Hpending. discriminate.
  - intros j jj Hj Hns Hall. simpl. rewrite Hj, Hns. simpl.
    assert (Hps : previousSettled q jj = true); [| rewrite Hps; eauto].
    specialize (Hprev _ _ Hj). unfold previousSettled.
    destruct (previous jj) as [p |]; [| reflexivity].
    destruct (lookup_lt_is_Some_2 (jobs q) p) as [pj Hp].
    { apply lookup_lt_Some in Hj. lia. }
    rewrite Hp. apply (Hall p pj); [lia | exact Hp].
Qed.

(** The theorem on a chain of three tasks, the first failed and the second
    timed out. *)
Lemma queueJob_runs_tasks_in_order_witness :
  reachable sampleQueue
  /\ startLog sampleQueue = [0; 1; 2]
  /\ startLog sampleQueue = seq 0 (length (startLog sampleQueue)).
Proof.
  assert (H : reachable sampleQueue) by (exists sampleEvents; reflexivity).
  split; [exact H |]. split; [reflexivity |].
  exact (proj1 (queueJob_runs_tasks_in_order sampleQueue H)).
Defined.

Lemma queueJob_chainAfter (n : nat) :
  queueJob (chainAfter [] n) = chainAfter [] (S n).
Proof.
  unfold queueJob, chainAfter. simpl jobs. simpl pending. simpl startLog.
  rewrite length_map, length_seq, seq_S, map_app. reflexivity.
Qed.

Lemma run_queueJobs (k n : nat) (evs : list Event) :
  run (chainAfter [] n) (replicate k QueueJob ++ evs)
  = run (chainAfter [] (n + k)) evs.
Proof.
  revert n. induction k as [| k IH]; intros n; simpl.
  - rewrite Nat.add_0_r. reflexivity.
  - rewrite queueJob_chainAfter, IH. f_equal. f_equal. lia.
Qed.

Lemma lookup_chainAfter (done : list Outcome) (n k : nat) :
  k < n -> jobs (chainAfter done n) !! k = Some (jobAfter done k).
Proof.
  intros H. simpl. rewrite list_lookup_fmap.
  rewrite (lookup_seq_lt 0 n k H). reflexivity.
Qed.

Lemma jobs_after_one_more (done : list Outcome) (o : Outcome) (n : nat) :
  length done < n ->
  <[length done := jobAfter (done ++ [o]) (length done)]>
    (map (jobAfter done) (seq 0 n))
  = map (jobAfter (done ++ [o])) (seq 0 n).
Proof.
  intros Hlt. apply list_eq. intros k.
  destruct (decide (k = length done)) as [-> | Hne].
  - rewrite list_lookup_insert_eq by (rewrite length_map, length_seq; lia).
    rewrite list_lookup_fmap, (lookup_seq_lt 0 n _ Hlt). reflexivity.
  - rewrite list_lookup_insert_ne by congruence.
    rewrite !list_lookup_fmap.
    destruct (decide (k < n)) as [Hk | Hk].
    + rewrite (lookup_seq_lt 0 n k Hk). simpl. f_equal.
      unfold jobAfter. f_equal.
      * apply bool_decide_ext. rewrite length_app. simpl. lia.
      * destruct (decide (k < length done)) as [Hd | Hd].
        -- rewrite lookup_app_l by lia. reflexivity.
        -- rewrite (lookup_ge_None_2 done k) by lia.
           rewrite lookup_ge_None_2; [reflexivity |].
           rewrite length_app. simpl. lia.
    + rewrite (lookup_seq_ge 0 n k) by lia. reflexivity.
Qed.

Lemma run_one_task (done : list Outcome) (o : Outcome) (n : nat)
    (evs : list Event) :
  length done < n ->
  run (chainAfter done n)
    (Start (length done) :: Settle (length done) o :: evs)
  = run (chainAfter (done ++ [o]) n) evs.
Proof.
  intros Hlt.
  cbn [run step]. rewrite (lookup_chainAfter done n _ Hlt).
  assert (Hps : previousSettled (chainAfter done n)
                  (jobAfter done (length done)) = true).
  { unfold previousSettled. simpl previous.
    destruct (length done) as [| p] eqn:Hp; [reflexivity |].
    rewrite (lookup_chainAfter done n p) by lia.
    simpl. destruct (lookup_lt_is_Some_2 done p) as [o' Ho']; [lia |].
    rewrite Ho'. reflexivity. }
  rewrite Hps.
  assert (Hns : started (jobAfter done (length done)) = false).
  { simpl. apply bool_decide_eq_false. lia. }
  rewrite Hns. cbn [negb andb jobs pending startLog].
  rewrite list_lookup_insert_eq
    by (simpl; rewrite length_map, length_seq; lia).
  cbn [started state settled negb andb previous cleaned].
  assert (Hst : state (jobAfter done (length done)) = Pending).
  { simpl. rewrite (lookup_ge_None_2 done (length done)) by lia. reflexivity. }
  rewrite Hst. cbn [settled negb andb jobs pending startLog].
  rewrite list_insert_insert_eq.
  f_equal. unfold chainAfter. f_equal.
  - rewrite <- (jobs_after_one_more done o n Hlt). f_equal.
    unfold jobAfter. f_equal.
    + symmetry. apply bool_decide_eq_true. rewrite length_app. simpl. lia.
    + rewrite lookup_app_r by lia. rewrite Nat.sub_diag. reflexivity.
  - rewrite length_app. simpl. rewrite Nat.add_1_r, seq_S. reflexivity.
Qed.

Lemma run_inOrder (os done : list Outcome) (n : nat) :
  length done + length os <= n ->
  run (chainAfter done n) (inOrder (length done) os)
  = Some (chainAfter (done ++ os) n).
Proof.
  revert done. induction os as [| o os IH]; intros done Hn; cbn [inOrder].
  - rewrite app_nil_r. reflexivity.
  - simpl in Hn. rewrite run_one_task by lia.
    replace (S (length done)) with (length (done ++ [o]))
      by (rewrite length_app; simpl; lia).
    rewrite IH by (rewrite length_app; simpl; lia).
    rewrite <- app_assoc. reflexivity.
Qed.

(** X1. Whatever the outcomes of the tasks, the schedule that queues them
    and lets each run to its outcome goes through: every task is called, in
    submission order, and every promise settles with the outcome of its
    task. A failure or a timeout stops nothing behind it. *)
Theorem schedule_runs_every_task (os : list Outcome) :
  let q := chainAfter os (length os) in
  run empty (schedule os) = Some q
  /\ startLog q = seq 0 (length os)
  /\ map state (jobs q) = map Settled os.
Proof.
  cbv zeta. split; [| split].
  - unfold schedule. change empty with (chainAfter [] 0).
    rewrite run_queueJobs. simpl "+".
    apply (run_inOrder os [] (length os)). simpl. lia.
  - reflexivity.
  - simpl. rewrite map_map. apply list_eq. intros k.
    rewrite !list_lookup_fmap.
    destruct (decide (k < length os)) as [Hk | Hk].
    + rewrite (lookup_seq_lt 0 _ k Hk). simpl.
      destruct (lookup_lt_is_Some_2 os k Hk) as [o Ho]. rewrite Ho. reflexivity.
    + rewrite (lookup_seq_ge 0 _ k) by lia.
      rewrite (lookup_ge_None_2 os k) by lia. reflexivity.
Qed.

(** Three tasks that fail, time out and succeed: each is called once the one
    before it has settled, and all three settle. *)
Example schedule_after_failures :
  option_map (fun q => (startLog q, map state (jobs q), pending q))
    (run empty (schedule [Failed; TimedOut; Succeeded]))
  = Some ([0; 1; 2],
          [Settled Failed; Settled TimedOut; Settled Succeeded],
          Some 2).
Proof. reflexivity. Qed.

(** A task cannot be called while the task before it is running. *)
Example start_refused_while_running :
  run empty [QueueJob; QueueJob; Start 0; Start 1] = None.
Proof. reflexivity. Qed.
